(** * NCrystal / Geant4 bridge: chemical formulas, material caches, plugin names

    A shallow embedding of [ncrystal_geant4/src/G4NCMatHelper.cc] (the
    derivation of reduced chemical formulas, their Hill-system rendering and
    the two-level cache of Geant4 materials) and of the plugin-name
    uniqueness check of the top-level [CMakeLists.txt], with the properties
    the specification states about them.

    Conventions.
    - [unsigned] values are [N]; the only conversions that can wrap
      ([G4int] to [unsigned] and back) are written out.
    - [double] values are IEEE binary64 floats ([PrimFloat.float]).
    - A [G4Material*] is the index of the material in Geant4's material
      table: every [G4Material] registers itself there on construction, at
      the index [GetIndex()] reports, and a deleted material leaves a null
      entry behind.
    - [nc_assert] and [assert] are compiled out (release build, [NDEBUG]). *)

From Stdlib Require Import ZArith NArith List Ascii Lia Permutation Sorted.
From Stdlib Require String.
From Stdlib Require Import Floats.PrimFloat.
From stdpp Require Import base option list gmap strings pretty.
From Equations Require Import Equations.

Set Warnings "-inexact-float".
Local Open Scope N_scope.

(** ** Results of fallible code *)

(** The [NCrystal::Error] exception classes thrown by [NCRYSTAL_THROW]. *)
Inductive ErrorKind :=
| BadInput | MissingInfo | LogicError | CalcError | FileNotFound | DataLoadError.

(** An [NCrystal::Error::Exception]: its class and its message. *)
Record NCError := {
  err_kind : ErrorKind;
  err_msg : string
}.

(** What a C++ call can throw: an [NCrystal::Error::Exception], or the
    [std::out_of_range] of [std::vector::at]. *)
Inductive Exception :=
| NCrystalError (e : NCError)
| StdOutOfRange.

Inductive Result (A : Type) :=
| Ok (a : A)
| Throw (e : Exception).
Arguments Ok {A} a.
Arguments Throw {A} e.

(** [NCRYSTAL_THROW(kind, msg)] *)
Definition NCRYSTAL_THROW {A} (kind : ErrorKind) (msg : string) : Result A :=
  Throw (NCrystalError {| err_kind := kind; err_msg := msg |}).

Definition is_BadInput (e : Exception) : Prop :=
  match e with
  | NCrystalError e => err_kind e = BadInput
  | StdOutOfRange => False
  end.

(** ** Integers *)

(** Conversion of a [G4int] (32-bit signed) to [unsigned]. *)
Definition unsigned_of_G4int (z : Z) : N := Z.to_N (z mod 2 ^ 32).

(** Conversion of an [unsigned] to [G4int]. *)
Definition G4int_of_unsigned (n : N) : Z :=
  let r := (Z.of_N n mod 2 ^ 32)%Z in
  if (r <? 2 ^ 31)%Z then r else (r - 2 ^ 32)%Z.

(** ** Strings *)


(** The order of [std::pair<std::string,std::string>]: by the first
    component, then by the second ([operator<], or equal). *)
Definition strpair_le (p q : string * string) : bool :=
  match String.compare p.1 q.1 with
  | Lt => true
  | Gt => false
  | Eq => String.leb p.2 q.2
  end.

(** The order of [std::pair<unsigned,unsigned>] ([operator<], or equal). *)
Definition upair_le (p q : N * N) : bool :=
  match p.1 ?= q.1 with
  | Lt => true
  | Gt => false
  | Eq => p.2 <=? q.2
  end.

(** [std::sort]: the result is the sorted permutation of the input. Both
    orders it is used with are total and antisymmetric, so that permutation
    is unique ([std_sort_upair_unique] and [std_sort_strpair_unique] below)
    and insertion sort computes it. *)
Fixpoint sort_insert {A} (le : A -> A -> bool) (x : A) (l : list A) : list A :=
  match l with
  | [] => [x]
  | y :: l' => if le x y then x :: y :: l' else y :: sort_insert le x l'
  end.

Fixpoint std_sort {A} (le : A -> A -> bool) (l : list A) : list A :=
  match l with
  | [] => []
  | x :: l' => sort_insert le x (std_sort le l')
  end.

Definition string_concat (l : list string) : string :=
  fold_right String.append "" l.

(** ** Atomic numbers (lines 34-53) *)

Definition specialZValueDeuterium : N := 1001.

Definition zIsDeuterium (z : N) : bool := z =? specialZValueDeuterium.

Definition validNCrystalZValue (z : N) : bool :=
  ((0 <? z) && (z <? 120)) || zIsDeuterium z.

Equations greatestCommonDivisor (a b : N) : N by wf (N.to_nat b) lt :=
  greatestCommonDivisor a 0 := a;
  greatestCommonDivisor a b := greatestCommonDivisor b (a mod b).
Next Obligation.
  pose proof (N.mod_upper_bound a (N.pos p) ltac:(discriminate)). lia.
Qed.

(** ** The parts of [NCrystal::Info] the helper reads *)

Record AtomInfo := {
  atomic_number : N;
  number_per_unit_cell : N
}.

(** [hasX()] is [is_Some] of the field, [getX()] its content. *)
Record Info := {
  composition : option (list (string * float));
  atomInfo : option (list AtomInfo);
  density : option float;
  temperature : option float
}.

Definition hasComposition (i : Info) : bool := bool_decide (is_Some (composition i)).
Definition hasAtomInfo (i : Info) : bool := bool_decide (is_Some (atomInfo i)).
Definition hasDensity (i : Info) : bool := bool_decide (is_Some (density i)).
Definition hasTemperature (i : Info) : bool := bool_decide (is_Some (temperature i)).

(** (atomic_number, count) pairs *)
Definition ChemicalFormula := list (N * N).

(** The greatest common divisor of a list of counts. *)
Definition list_gcd (l : list N) : N := fold_right N.gcd 0 l.

(** ** Geant4 elements and the collaborators outside this file *)

(** A [G4Element*]: the process-wide deuterium element of
    [getDeuteriumG4Element] (built on first use, then shared), or what
    [G4NistManager::FindOrBuildElement] hands out for an atomic number or for
    an element name. *)
Inductive G4Element :=
| DeuteriumElement
| NistElementZ (z : Z)
| NistElementName (name : string).

(** What the helper calls in NCrystal, Geant4 and CLHEP. The factories
    report failure by throwing an [NCrystal::Error::Exception]. *)
Class Externals := {
  MatCfg : Type;
  Scatter : Type;
  (** [NCrystal::MatCfg::MatCfg] from a C string *)
  MatCfg_parse : string -> sum NCError MatCfg;
  (** [cfg.toStrCfg(true,0)] *)
  toStrCfg : MatCfg -> string;
  get_packfact : MatCfg -> float;
  (** [NCrystal::libClashDetect()]: [Some e] when it throws [e] *)
  libClashDetect : option NCError;
  createScatter : MatCfg -> sum NCError Scatter;
  createInfo : MatCfg -> sum NCError Info;
  (** [G4NistManager::Instance()->GetZ(name)] *)
  nist_GetZ : string -> Z;
  (** [G4NistManager::Instance()->GetNistElementNames()] *)
  symbol_db : list string;
  (** [elem->GetAtomicMassAmu()] *)
  GetAtomicMassAmu : G4Element -> float;
  (** [operator<<] of a [double] under [std::setprecision(16)] *)
  double_to_string : float -> string;
  (** CLHEP units *)
  CLHEP_kelvin : float;
  CLHEP_gram : float;
  CLHEP_cm3 : float;
  CLHEP_atmosphere : float
}.

(** ** [getChemicalFormula] (lines 68-117) *)

(** The loop over the atom list (lines 93-98). *)
Fixpoint collect_atoms (atoms : list AtomInfo) (cf : ChemicalFormula)
  : Result ChemicalFormula :=
  match atoms with
  | [] => Ok cf
  | a :: rest =>
    if negb (validNCrystalZValue (atomic_number a)) then
      NCRYSTAL_THROW BadInput
        ("invalid atomic number (" +:+ pretty (atomic_number a) +:+ ")")
    else if number_per_unit_cell a =? 0 then collect_atoms rest cf
    else collect_atoms rest (cf ++ [(atomic_number a, number_per_unit_cell a)])
  end.

(** The gcd of the counts (lines 104-106); [cf] is not empty there. *)
Definition formula_gcd (cf : ChemicalFormula) : N :=
  match cf with
  | [] => 0
  | e0 :: rest => fold_left (fun g e => greatestCommonDivisor g e.2) rest e0.2
  end.

(** Lines 104-111: divide the counts by their gcd, sort by atomic number. *)
Definition reduce_and_sort (cf : ChemicalFormula) : ChemicalFormula :=
  let thegcd := formula_gcd cf in
  std_sort upair_le (map (fun e : N * N => (e.1, e.2 / thegcd)) cf).

(** The sanity check of lines 114-116: is there an [i] with
    [cf.at(i).first == cf.at(i+1).first]? *)
Fixpoint has_adjacent_duplicate (cf : ChemicalFormula) : bool :=
  match cf with
  | e1 :: ((e2 :: _) as rest) => (e1.1 =? e2.1) || has_adjacent_duplicate rest
  | _ => false
  end.

(** The monoatomic special case (lines 77-83): the atomic number the
    formula is made of, when the case applies. *)
Definition monoatomic_Z `{Externals} (info : Info) : option N :=
  match composition info with
  | Some [ef] =>
    let z := nist_GetZ ef.1 in
    if validNCrystalZValue (unsigned_of_G4int z)
    then Some (unsigned_of_G4int z) else None
  | _ => None
  end.

Definition getChemicalFormula `{Externals} (info : Info) : Result ChemicalFormula :=
  match monoatomic_Z info with
  | Some z => Ok [(z, 1)]
  | None =>
    match atomInfo info with
    | None => Ok []
    | Some atoms =>
      match collect_atoms atoms [] with
      | Throw e => Throw e
      | Ok [] =>
        NCRYSTAL_THROW BadInput
          "Atomic composition info indicates an empty unit cell."
      | Ok cf =>
        let cf := reduce_and_sort cf in
        if has_adjacent_duplicate cf then
          NCRYSTAL_THROW BadInput
            "Atomic composition info has duplicate entries for same atomic number."
        else Ok cf
      end
    end
  end.

(** What the properties of [getChemicalFormula] speak of. *)

Definition valid_atom (a : AtomInfo) : Prop :=
  validNCrystalZValue (atomic_number a) = true.

Definition atom_entry (a : AtomInfo) : N * N :=
  (atomic_number a, number_per_unit_cell a).

(** The atoms that are in the unit cell at all. *)
Definition counted_atoms (atoms : list AtomInfo) : list AtomInfo :=
  List.filter (fun a => negb (number_per_unit_cell a =? 0)) atoms.

(** The counts have no common divisor: the gcd the code computes is 1. *)
Definition reduced (cf : ChemicalFormula) : Prop := formula_gcd cf = 1.

Definition strictly_increasing (cf : ChemicalFormula) : Prop :=
  StronglySorted (fun e1 e2 : N * N => e1.1 < e2.1) cf.

(** ** [getChemicalFormulaInHillSystemString] (lines 120-181) *)

(** Is there carbon anywhere in the formula (lines 145-151)? *)
Definition any_carbon (chemform : ChemicalFormula) : bool :=
  existsb (fun e => e.1 =? 6) chemform.

(** One turn of the loop of lines 152-173: the (sort key, text) pair of a
    formula entry. *)
Definition hill_entry `{Externals} (carbon : bool) (e : N * N) : string * string :=
  let z := e.1 in
  let sortkey :=
    if carbon && ((z =? 1) || zIsDeuterium z || (z =? 6)) then
      (if z =? 6 then "1" else if z =? 1 then "2" else "3")
    else "" in
  let '(symb, sortkey) :=
    if zIsDeuterium z then ("D", sortkey)
    else if z <? N.of_nat (length symbol_db)
         then (default "" (symbol_db !! N.to_nat z), sortkey)
    else ("Elem<" +:+ pretty z +:+ ">", "{" +:+ ("Elem<" +:+ pretty z +:+ ">")) in
  let sortkey := if String.eqb sortkey "" then symb else sortkey in
  (sortkey, if e.2 =? 1 then symb else symb +:+ pretty e.2).

Definition getChemicalFormulaInHillSystemString `{Externals}
    (chemform : ChemicalFormula) : string :=
  let hillsystem_sort := map (hill_entry (any_carbon chemform)) chemform in
  string_concat (map snd (std_sort strpair_le hillsystem_sort)).

(** ** Geant4 materials and the material table *)

Inductive G4State := kStateUndefined | kStateSolid | kStateLiquid | kStateGas.

(** The two forms of [G4Material::AddElement]: a number of atoms, or a
    fraction of the mass. *)
Inductive ElementAmount :=
| AtomCount (n : Z)
| MassFraction (f : float).

(** The two constructors the helper uses: from a number of components, or
    from a base material. *)
Inductive G4MaterialOrigin :=
| FromComponents (nComponents : N)
| FromBaseMaterial (baseMaterial : nat).

Record G4Material := {
  mat_name : string;
  mat_density : float;
  mat_origin : G4MaterialOrigin;
  mat_state : G4State;
  mat_temp : float;
  mat_pressure : float;
  mat_elements : list (G4Element * ElementAmount);
  mat_chemicalFormula : string
}.

Definition mat_baseMaterial (m : G4Material) : option nat :=
  match mat_origin m with
  | FromBaseMaterial b => Some b
  | FromComponents _ => None
  end.

Definition add_element (el : G4Element) (a : ElementAmount) (m : G4Material) : G4Material :=
  {| mat_name := mat_name m; mat_density := mat_density m;
     mat_origin := mat_origin m; mat_state := mat_state m;
     mat_temp := mat_temp m; mat_pressure := mat_pressure m;
     mat_elements := mat_elements m ++ [(el, a)];
     mat_chemicalFormula := mat_chemicalFormula m |}.

Definition set_chemical_formula (f : string) (m : G4Material) : G4Material :=
  {| mat_name := mat_name m; mat_density := mat_density m;
     mat_origin := mat_origin m; mat_state := mat_state m;
     mat_temp := mat_temp m; mat_pressure := mat_pressure m;
     mat_elements := mat_elements m;
     mat_chemicalFormula := f |}.

(** ** The state of the process *)

(** The calls into NCrystal and Geant4 that the properties count. *)
Inductive Event `{Externals} :=
| EvCreateScatter (cfg : MatCfg)
| EvCreateInfo (cfg : MatCfg)
| EvNewG4Material (ptr : nat) (name : string)
| EvHandleError (origin : string) (code : N) (e : NCError).

Record World `{Externals} := {
  (** [G4Material::GetMaterialTable()]; [None] is a null entry *)
  materialTable : list (option G4Material);
  (** the [static] cache of [getBaseG4MaterialWithCache] *)
  base_cache : gmap string nat;
  (** the [static] cache of [getG4MaterialWithCache] *)
  cache : gmap string nat;
  (** what [Manager::addScatterProperty] attached to which material *)
  scatterProperties : list (nat * Scatter);
  (** the calls made so far, oldest first *)
  calls : list Event
}.

Section Monad.
Context `{Externals}.

Definition set_materialTable (t : list (option G4Material)) (w : World) : World :=
  {| materialTable := t; base_cache := base_cache w; cache := cache w;
     scatterProperties := scatterProperties w; calls := calls w |}.

Definition set_base_cache (c : gmap string nat) (w : World) : World :=
  {| materialTable := materialTable w; base_cache := c; cache := cache w;
     scatterProperties := scatterProperties w; calls := calls w |}.

Definition set_cache (c : gmap string nat) (w : World) : World :=
  {| materialTable := materialTable w; base_cache := base_cache w; cache := c;
     scatterProperties := scatterProperties w; calls := calls w |}.

Definition set_scatterProperties (p : list (nat * Scatter)) (w : World) : World :=
  {| materialTable := materialTable w; base_cache := base_cache w; cache := cache w;
     scatterProperties := p; calls := calls w |}.

Definition set_calls (l : list Event) (w : World) : World :=
  {| materialTable := materialTable w; base_cache := base_cache w; cache := cache w;
     scatterProperties := scatterProperties w; calls := l |}.

(** A computation on the process state that returns or throws. *)
Definition M (A : Type) : Type := World -> Result A * World.

Definition ret {A} (a : A) : M A := fun w => (Ok a, w).

Definition bind {A B} (c : M A) (k : A -> M B) : M B :=
  fun w =>
    match c w with
    | (Ok a, w') => k a w'
    | (Throw e, w') => (Throw e, w')
    end.

Definition throw {A} (e : Exception) : M A := fun w => (Throw e, w).

Definition get_world : M World := fun w => (Ok w, w).

Definition modify (f : World -> World) : M unit := fun w => (Ok tt, f w).

Definition lift {A} (r : Result A) : M A :=
  fun w => (r, w).

(** A call of a collaborator that throws NCrystal exceptions. *)
Definition lift_nc {A} (r : sum NCError A) : M A :=
  match r with
  | inl e => throw (NCrystalError e)
  | inr a => ret a
  end.

(** [try { c } catch ( NCrystal::Error::Exception& e ) { h e }]: any other
    exception passes through. *)
Definition try_catch {A} (c : M A) (h : NCError -> M A) : M A :=
  fun w =>
    match c w with
    | (Throw (NCrystalError e), w') => h e w'
    | r => r
    end.

(** The call [e] is made. *)
Definition log_call (e : Event) (w : World) : World :=
  set_calls (calls w ++ [e]) w.

Definition log (e : Event) : M unit := modify (log_call e).

End Monad.

Notation "'let*' x ':=' c 'in' k" := (bind c (fun x => k))
  (at level 10, x pattern, c at level 100, k at level 200).

(** ** The Geant4 and NCrystal calls of the helper *)

Section Helper.
Context `{Externals}.

(** [G4Material::GetMaterialTable()->at(i)] *)
Definition materialTable_at (i : nat) : M (option G4Material) :=
  let* w := get_world in
  match materialTable w !! i with
  | Some entry => ret entry
  | None => throw StdOutOfRange
  end.

(** The material [m] is appended to the table. *)
Definition push_material (m : G4Material) (w : World) : World :=
  set_materialTable (materialTable w ++ [Some m]) w.

(** [new G4Material(...)]: the constructor appends the material to the
    table; the pointer is its index. *)
Definition new_G4Material (m : G4Material) : M nat :=
  let* w := get_world in
  let idx := length (materialTable w) in
  let* _ := modify (push_material m) in
  let* _ := log (EvNewG4Material idx (mat_name m)) in
  ret idx.

(** The material [mat] points to is changed by [f]. *)
Definition change_material (mat : nat) (f : G4Material -> G4Material) (w : World) : World :=
  set_materialTable (alter (fmap f) mat (materialTable w)) w.

(** A member function that changes the material [mat] points to. *)
Definition update_material (mat : nat) (f : G4Material -> G4Material) : M unit :=
  modify (change_material mat f).

Definition AddElement (mat : nat) (el : G4Element) (a : ElementAmount) : M unit :=
  update_material mat (add_element el a).

Definition SetChemicalFormula (mat : nat) (f : string) : M unit :=
  update_material mat (set_chemical_formula f).

(** [delete mat]: the destructor leaves a null entry in the table. *)
Definition delete_G4Material (mat : nat) (w : World) : World :=
  set_materialTable (alter (fun _ => None) mat (materialTable w)) w.

(** [G4NCrystal::Manager::getInstance()->addScatterProperty(mat,scatter)] *)
Definition addScatterProperty (mat : nat) (scatter : Scatter) : M unit :=
  modify (fun w => set_scatterProperties (scatterProperties w ++ [(mat, scatter)]) w).

(** [Manager::handleError(origin,code,e)]: hands the error to the handler
    of the application. *)
Definition handleError (origin : string) (code : N) (e : NCError) : M unit :=
  log (EvHandleError origin code e).

Definition call_libClashDetect : M unit :=
  match libClashDetect with
  | Some e => throw (NCrystalError e)
  | None => ret tt
  end.

Definition call_createScatter (cfg : MatCfg) : M Scatter :=
  let* _ := log (EvCreateScatter cfg) in lift_nc (createScatter cfg).

Definition call_createInfo (cfg : MatCfg) : M Info :=
  let* _ := log (EvCreateInfo cfg) in lift_nc (createInfo cfg).

Definition getComposition (info : Info) : list (string * float) :=
  default [] (composition info).

Definition getDensity (info : Info) : float := default 0%float (density info).

(** [for (x : l) body x] *)
Fixpoint for_each {A} (l : list A) (body : A -> M unit) : M unit :=
  match l with
  | [] => ret tt
  | x :: l' => let* _ := body x in for_each l' body
  end.

(** ** [getBaseG4MaterialWithCache] (lines 183-278) *)

(** The key made of element names and fractions (lines 197-205). *)
Fixpoint composition_key_from (first : bool) (comp : list (string * float)) : string :=
  match comp with
  | [] => ""
  | ef :: rest =>
    (if first then "_" else "") +:+ ef.1 +:+ "_" +:+ double_to_string ef.2
      +:+ composition_key_from false rest
  end.

Definition composition_key (comp : list (string * float)) : string :=
  composition_key_from true comp.

(** The formula and the cache key of a material (lines 187-209). *)
Definition base_chemform (info : Info) : Result (ChemicalFormula * string) :=
  match getChemicalFormula info with
  | Throw e => Throw e
  | Ok [] =>
    if negb (hasComposition info) then
      NCRYSTAL_THROW MissingInfo
        "Selected crystal info source lacks info about atomic composition."
    else Ok ([], composition_key (getComposition info))
  | Ok chemform => Ok (chemform, getChemicalFormulaInHillSystemString chemform)
  end.

Definition base_matnameprefix : string := "NCrystalBaseMat::".

(** Lines 235-247: elements counted in atoms. *)
Definition add_formula_elements (mat : nat) (chemform : ChemicalFormula) : M unit :=
  for_each chemform (fun e =>
    let elem := if zIsDeuterium e.1 then DeuteriumElement
                else NistElementZ (G4int_of_unsigned e.1) in
    AddElement mat elem (AtomCount (G4int_of_unsigned e.2))).

(** Lines 252-268: the elements with their contributions to the mass. *)
Definition mass_contributions (comp : list (string * float)) : list (float * G4Element) :=
  map (fun ef : string * float =>
         let elem := if String.eqb ef.1 "D" then DeuteriumElement
                     else NistElementName ef.1 in
         ((ef.2 * GetAtomicMassAmu elem)%float, elem)) comp.

Definition total_mass (elements : list (float * G4Element)) : float :=
  fold_left (fun tot e => (tot + e.1)%float) elements 0%float.

(** Lines 249-270: elements given by mass fraction. *)
Definition add_fraction_elements (mat : nat) (comp : list (string * float)) : M unit :=
  let elements := mass_contributions comp in
  let tot_mass := total_mass elements in
  for_each elements (fun e => AddElement mat e.2 (MassFraction (e.1 / tot_mass)%float)).

Definition is_nil {A} (l : list A) : bool :=
  match l with [] => true | _ => false end.

(** The lookup both caches start with: the cached material, unless there
    is none or it has been deleted. *)
Definition cache_lookup (c : gmap string nat) (key : string) : M (option nat) :=
  match c !! key with
  | Some idx =>
    let* cachedmat := materialTable_at idx in
    ret (if cachedmat is Some _ then Some idx else None)
  | None => ret None
  end.

(** The arguments of the constructor call of lines 228-233. *)
Definition new_base_material (info : Info) (chemform : ChemicalFormula)
    (chemform_str : string) : G4Material :=
  {| mat_name := base_matnameprefix +:+ chemform_str;
     mat_density := (1.0 * CLHEP_gram / CLHEP_cm3)%float;
     mat_origin := FromComponents
       (if is_nil chemform then N.of_nat (length (getComposition info))
        else N.of_nat (length chemform));
     mat_state := kStateSolid;
     mat_temp := (293.15 * CLHEP_kelvin)%float;
     mat_pressure := (1.0 * CLHEP_atmosphere)%float;
     mat_elements := [];
     mat_chemicalFormula := "" |}.

(** Lines 223-277: the base material is built and cached. *)
Definition build_base_material (info : Info) (chemform : ChemicalFormula)
    (chemform_str : string) : M nat :=
  let* mat := new_G4Material (new_base_material info chemform chemform_str) in
  let* _ := (if negb (is_nil chemform) then add_formula_elements mat chemform
             else add_fraction_elements mat (getComposition info)) in
  let* _ := (if negb (is_nil chemform) then SetChemicalFormula mat chemform_str
             else ret tt) in
  let* _ := modify (fun w => set_base_cache (<[chemform_str := mat]> (base_cache w)) w) in
  ret mat.

Definition getBaseG4MaterialWithCache (info : Info) : M nat :=
  let* (chemform, chemform_str) := lift (base_chemform info) in
  let* w := get_world in
  let* hit := cache_lookup (base_cache w) chemform_str in
  match hit with
  | Some cachedmat => ret cachedmat
  | None => build_base_material info chemform chemform_str
  end.

(** ** [getG4MaterialWithCache] (lines 280-336) *)

Definition matnameprefix : string := "NCrystal::".

(** Lines 322-324. *)
Definition derived_temperature (info : Info) : float :=
  if hasTemperature info
  then (default 0 (temperature info) * CLHEP_kelvin)%float
  else (293.15 * CLHEP_kelvin)%float.

(** The arguments of the constructor call of lines 327-329. *)
Definition new_derived_material (cfg : MatCfg) (info : Info) (matBase : nat) : G4Material :=
  {| mat_name := matnameprefix +:+ toStrCfg cfg;
     mat_density :=
       (get_packfact cfg * getDensity info * (CLHEP_gram / CLHEP_cm3))%float;
     mat_origin := FromBaseMaterial matBase;
     mat_state := kStateSolid;
     mat_temp := derived_temperature info;
     mat_pressure := (1.0 * CLHEP_atmosphere)%float;
     mat_elements := [];
     mat_chemicalFormula := "" |}.

(** Lines 299-335: the material is built and cached. *)
Definition build_material (cfg : MatCfg) : M nat :=
  let cache_key := toStrCfg cfg in
  let* _ := call_libClashDetect in
  let* scatter := call_createScatter cfg in
  let* info := call_createInfo cfg in
  let* _ := (if negb (hasDensity info) then
               lift (NCRYSTAL_THROW MissingInfo
                 "Selected crystal info source lacks info about material density.")
             else ret tt) in
  let* matBase := getBaseG4MaterialWithCache info in
  let* mat := new_G4Material (new_derived_material cfg info matBase) in
  let* _ := addScatterProperty mat scatter in
  let* _ := modify (fun w => set_cache (<[cache_key := mat]> (cache w)) w) in
  ret mat.

(** The body runs with [cache_mutex] held, from the [lock_guard] of line
    291 to the return or the throw: see [thread_step] below for the lock. *)
Definition getG4MaterialWithCache (cfg : MatCfg) : M nat :=
  let cache_key := toStrCfg cfg in
  let* w := get_world in
  let* hit := cache_lookup (cache w) cache_key in
  match hit with
  | Some cachedmat => ret cachedmat
  | None => build_material cfg
  end.

(** The changes [g x], for the [x] of [l] in turn. *)
Definition apply_all {A} (g : A -> G4Material -> G4Material) (l : list A)
    (m : G4Material) : G4Material :=
  fold_left (fun m x => g x m) l m.

(** The base material once its elements and its formula are set (lines
    235-273). *)
Definition formula_element (e : N * N) : G4Element * ElementAmount :=
  (if zIsDeuterium e.1 then DeuteriumElement else NistElementZ (G4int_of_unsigned e.1),
   AtomCount (G4int_of_unsigned e.2)).

Definition fraction_elements (comp : list (string * float))
  : list (G4Element * ElementAmount) :=
  let elements := mass_contributions comp in
  map (fun e : float * G4Element => (e.2, MassFraction (e.1 / total_mass elements)%float))
      elements.

Definition built_base_material (info : Info) (chemform : ChemicalFormula)
    (chemform_str : string) : G4Material :=
  {| mat_name := base_matnameprefix +:+ chemform_str;
     mat_density := (1.0 * CLHEP_gram / CLHEP_cm3)%float;
     mat_origin := FromComponents
       (if is_nil chemform then N.of_nat (length (getComposition info))
        else N.of_nat (length chemform));
     mat_state := kStateSolid;
     mat_temp := (293.15 * CLHEP_kelvin)%float;
     mat_pressure := (1.0 * CLHEP_atmosphere)%float;
     mat_elements :=
       if is_nil chemform then fraction_elements (getComposition info)
       else map formula_element chemform;
     mat_chemicalFormula := if is_nil chemform then "" else chemform_str |}.

(** The process after a base material has been built and cached. *)
Definition with_base_material (info : Info) (chemform : ChemicalFormula)
    (chemform_str : string) (w : World) : World :=
  let mat := length (materialTable w) in
  {| materialTable := materialTable w ++ [Some (built_base_material info chemform chemform_str)];
     base_cache := <[chemform_str := mat]> (base_cache w);
     cache := cache w;
     scatterProperties := scatterProperties w;
     calls := calls w ++ [EvNewG4Material mat (base_matnameprefix +:+ chemform_str)] |}.

(** The process after a derived material has been built and cached. *)
Definition with_derived_material (cfg : MatCfg) (info : Info) (scatter : Scatter)
    (matBase : nat) (w : World) : World :=
  let mat := length (materialTable w) in
  {| materialTable := materialTable w ++ [Some (new_derived_material cfg info matBase)];
     base_cache := base_cache w;
     cache := <[toStrCfg cfg := mat]> (cache w);
     scatterProperties := scatterProperties w ++ [(mat, scatter)];
     calls := calls w ++ [EvNewG4Material mat (matnameprefix +:+ toStrCfg cfg)] |}.

(** The part of [build_material] that does not look at the state: the
    exception it ends with and the calls made until then, or what the
    factories returned with the formula and the key of the base material. *)
Definition build_attempt (cfg : MatCfg)
  : sum (Exception * list Event) (Scatter * Info * ChemicalFormula * string) :=
  match libClashDetect with
  | Some e => inl (NCrystalError e, [])
  | None =>
    match createScatter cfg with
    | inl e => inl (NCrystalError e, [EvCreateScatter cfg])
    | inr scatter =>
      match createInfo cfg with
      | inl e => inl (NCrystalError e, [EvCreateScatter cfg; EvCreateInfo cfg])
      | inr info =>
        if hasDensity info then
          match base_chemform info with
          | Throw e => inl (e, [EvCreateScatter cfg; EvCreateInfo cfg])
          | Ok (chemform, chemform_str) => inr (scatter, info, chemform, chemform_str)
          end
        else
          inl (NCrystalError
                 {| err_kind := MissingInfo;
                    err_msg := "Selected crystal info source lacks info about material density." |},
               [EvCreateScatter cfg; EvCreateInfo cfg])
      end
    end
  end.

(** ** [G4NCrystal::createMaterial] (lines 339-363); [None] is the null
    pointer *)

Definition createMaterial_MatCfg (cfg : MatCfg) : M (option nat) :=
  try_catch
    (let* mat := getG4MaterialWithCache cfg in ret (Some mat))
    (fun e => let* _ := handleError "G4NCrystal::createMaterial" 101 e in ret None).

Definition createMaterial (cfgstr : string) : M (option nat) :=
  try_catch
    (let* cfg := lift_nc (MatCfg_parse cfgstr) in
     let* mat := getG4MaterialWithCache cfg in ret (Some mat))
    (fun e => let* _ := handleError "G4NCrystal::createMaterial" 101 e in ret None).

Definition createMaterial_G4String (cfgstr : string) : M (option nat) :=
  createMaterial cfgstr.

(** The process before the first request, with whatever materials the
    application has built itself. *)
Definition initial_world (table : list (option G4Material)) : World :=
  {| materialTable := table; base_cache := ∅; cache := ∅;
     scatterProperties := []; calls := [] |}.

(** A sequence of requests served one after the other. *)
Fixpoint serve_all (cfgs : list MatCfg) (w : World) : list (Result nat) * World :=
  match cfgs with
  | [] => ([], w)
  | cfg :: rest =>
    let '(r, w') := getG4MaterialWithCache cfg w in
    let '(rs, w'') := serve_all rest w' in
    (r :: rs, w'')
  end.

(** The same request [n] times over, through [createMaterial]. *)
Fixpoint request_again (cfg : MatCfg) (n : nat) (w : World)
  : list (Result (option nat)) * World :=
  match n with
  | O => ([], w)
  | S n' =>
    let '(r, w') := createMaterial_MatCfg cfg w in
    let '(rs, w'') := request_again cfg n' w' in
    (r :: rs, w'')
  end.

(** What [createMaterial] hands to the error handler. *)
Definition handled (e : NCError) : Event :=
  EvHandleError "G4NCrystal::createMaterial" 101 e.

End Helper.

(** ** Threads calling [getG4MaterialWithCache]

    Every call takes the one [static std::mutex cache_mutex] with a
    [std::lock_guard] (line 291) before it looks at the cache, and holds it
    until it returns or throws. A thread is therefore at the lock, inside
    the critical section (lines 292-335), or done. *)

Section Threads.
Context `{Externals}.

Inductive ThreadState :=
| AtLockGuard (cfg : MatCfg)
| InCriticalSection (cfg : MatCfg)
| Returned (cfg : MatCfg) (r : Result nat).

Record Process := {
  world : World;
  (** the thread that holds [cache_mutex], if any *)
  cache_mutex : option nat;
  threads : list ThreadState
}.

(** The next step of thread [t]; [None] when it cannot move: it is blocked
    at the lock, or it is done. *)
Definition thread_step (t : nat) (p : Process) : option Process :=
  match threads p !! t with
  | Some (AtLockGuard cfg) =>
    match cache_mutex p with
    | None =>
      Some {| world := world p; cache_mutex := Some t;
              threads := <[t := InCriticalSection cfg]> (threads p) |}
    | Some _ => None
    end
  | Some (InCriticalSection cfg) =>
    let '(r, w') := getG4MaterialWithCache cfg (world p) in
    Some {| world := w'; cache_mutex := None;
            threads := <[t := Returned cfg r]> (threads p) |}
  | Some (Returned _ _) | None => None
  end.

(** The scheduler picks the threads in the order of [schedule]; picking a
    thread that cannot move changes nothing. *)
Fixpoint run_schedule (schedule : list nat) (p : Process) : Process :=
  match schedule with
  | [] => p
  | t :: rest => run_schedule rest (default p (thread_step t p))
  end.

(** Threads about to request [cfgs], one each. *)
Definition start_process (w : World) (cfgs : list MatCfg) : Process :=
  {| world := w; cache_mutex := None; threads := map AtLockGuard cfgs |}.

Definition reachable_from (p0 p : Process) : Prop :=
  exists schedule, run_schedule schedule p0 = p.

(** Thread [t] is waiting for the lock and cannot get it. *)
Definition blocked (t : nat) (p : Process) : Prop :=
  (exists cfg, threads p !! t = Some (AtLockGuard cfg)) /\ thread_step t p = None.

Definition building (t : nat) (cfg : MatCfg) (p : Process) : Prop :=
  threads p !! t = Some (InCriticalSection cfg).

(** The lock is held by the thread inside the critical section, and by
    nobody when no thread is inside. *)
Definition mutex_consistent (p : Process) : Prop :=
  (forall t, cache_mutex p = Some t ->
     exists cfg, threads p !! t = Some (InCriticalSection cfg)) /\
  (forall t cfg, threads p !! t = Some (InCriticalSection cfg) -> cache_mutex p = Some t).

End Threads.

(** ** Counting calls *)

Section Counting.
Context `{Externals}.

(** Is the event the construction of a material of this name? *)
Definition is_new_material (name : string) (e : Event) : bool :=
  match e with
  | EvNewG4Material _ n => String.eqb n name
  | _ => false
  end.

(** Is the event a call of a factory for a configuration with this key? *)
Definition is_factory_call (key : string) (e : Event) : bool :=
  match e with
  | EvCreateScatter cfg | EvCreateInfo cfg => String.eqb (toStrCfg cfg) key
  | _ => false
  end.

Definition is_createScatter_call (key : string) (e : Event) : bool :=
  match e with
  | EvCreateScatter cfg => String.eqb (toStrCfg cfg) key
  | _ => false
  end.

Definition count_events (f : Event -> bool) (l : list Event) : nat :=
  length (filter (fun e => f e = true) l).

(** The materials the derived cache has built for a key, and the base
    materials the base cache has built for a formula. *)
Definition derived_builds (key : string) (l : list Event) : nat :=
  count_events (is_new_material (matnameprefix +:+ key)) l.

Definition base_builds (chemform_str : string) (l : list Event) : nat :=
  count_events (is_new_material (base_matnameprefix +:+ chemform_str)) l.

(** The pointer is to a material that has not been deleted. *)
Definition live (w : World) (mat : nat) : Prop :=
  exists m, materialTable w !! mat = Some (Some m).

(** The entry of a cache is ready: it points to a live material. *)
Definition ready (c : gmap string nat) (w : World) (key : string) (mat : nat) : Prop :=
  c !! key = Some mat /\ live w mat.

(** Every cached index is an index of the material table. *)
Definition caches_in_range (w : World) : Prop :=
  (forall key idx, cache w !! key = Some idx -> idx < length (materialTable w))%nat /\
  (forall key idx, base_cache w !! key = Some idx -> idx < length (materialTable w))%nat.

(** No cached material has been deleted. *)
Definition caches_live (w : World) : Prop :=
  (forall key idx, cache w !! key = Some idx -> live w idx) /\
  (forall key idx, base_cache w !! key = Some idx -> live w idx).

(** The calls a cache has made for a key, and whether the key is cached:
    at most one material is built for a key, none for a key that is cached
    already, and a key a material was built for is cached afterwards. *)
Definition builds_once (before after : gmap string nat)
    (builds : string -> nat) : Prop :=
  forall key,
    (builds key <= 1)%nat /\
    (before !! key <> None -> builds key = 0%nat) /\
    (builds key = 1%nat -> after !! key <> None).

(** [w'] is [w] after some requests have been served and nothing has been
    deleted: the table and the caches have only grown, by materials built
    meanwhile, and [evs] are the calls made. *)
Record extends (w w' : World) (evs : list Event) : Prop := {
  ext_table : exists new, materialTable w' = materialTable w ++ new;
  ext_cache : forall key i, cache w !! key = Some i -> cache w' !! key = Some i;
  ext_base : forall key i, base_cache w !! key = Some i -> base_cache w' !! key = Some i;
  ext_fresh_cache : forall key i, cache w' !! key = Some i ->
    cache w !! key = Some i \/ (length (materialTable w) <= i)%nat;
  ext_fresh_base : forall key i, base_cache w' !! key = Some i ->
    base_cache w !! key = Some i \/ (length (materialTable w) <= i)%nat;
  ext_calls : calls w' = calls w ++ evs;
  ext_derived : builds_once (cache w) (cache w') (fun key => derived_builds key evs);
  ext_basebuilds : builds_once (base_cache w) (base_cache w')
                     (fun key => base_builds key evs);
  ext_factory : forall key, cache w !! key <> None ->
    count_events (is_factory_call key) evs = 0%nat
}.

(** What holds of a process whatever the schedule: its state is the state
    after the requests of the threads that are done, served one after the
    other in the order in which they took the lock. *)
Record process_invariant (w : World) (p : Process) : Prop := {
  inv_serial : exists served rs, serve_all served w = (rs, world p);
  inv_mutex : mutex_consistent p;
  inv_returned : forall t cfg mat,
    threads p !! t = Some (Returned cfg (Ok mat)) ->
    ready (cache (world p)) (world p) (toStrCfg cfg) mat
}.

End Counting.

(** ** The plugin names of [CMakeLists.txt] (lines 299-418)

    A CMake list is a list of strings; plugin names hold no list
    separator. *)

Module CMake.

Inductive Outcome (A : Type) :=
| Configured (a : A)
| FATAL_ERROR (msg : string).
Arguments Configured {A} a.
Arguments FATAL_ERROR {A} msg.

(** [string(TOLOWER ...)] *)
Definition lower_ascii (c : ascii) : ascii :=
  let n := N_of_ascii c in
  if (65 <=? n) && (n <=? 90) then ascii_of_N (n + 32) else c.

Fixpoint TOLOWER (s : string) : string :=
  match s with
  | EmptyString => EmptyString
  | String c s' => String (lower_ascii c) (TOLOWER s')
  end.

(** [string(TOUPPER ...)] *)
Definition upper_ascii (c : ascii) : ascii :=
  let n := N_of_ascii c in
  if (97 <=? n) && (n <=? 122) then ascii_of_N (n - 32) else c.

Fixpoint TOUPPER (s : string) : string :=
  match s with
  | EmptyString => EmptyString
  | String c s' => String (upper_ascii c) (TOUPPER s')
  end.

Fixpoint has_suffix (suffix s : string) : bool :=
  String.eqb s suffix ||
  match s with
  | EmptyString => false
  | String _ s' => has_suffix suffix s'
  end.

(** [if(NOT var)]: the value is one of CMake's false constants. *)
Definition is_false_constant (value : string) : bool :=
  let v := TOUPPER value in
  bool_decide (v ∈ [""; "0"; "OFF"; "NO"; "FALSE"; "N"; "IGNORE"; "NOTFOUND"])
  || has_suffix "-NOTFOUND" v.

(** [isspace] in the C locale *)
Definition is_space (c : ascii) : bool :=
  let n := N_of_ascii c in
  (n =? 32) || ((9 <=? n) && (n <=? 13)).

Fixpoint strip_left (s : string) : string :=
  match s with
  | String c s' => if is_space c then strip_left s' else s
  | EmptyString => EmptyString
  end.

Fixpoint strip_right (s : string) : string :=
  match s with
  | EmptyString => EmptyString
  | String c s' =>
    match strip_right s' with
    | EmptyString => if is_space c then EmptyString else String c EmptyString
    | r => String c r
    end
  end.

(** [string(STRIP ...)] *)
Definition STRIP (s : string) : string := strip_right (strip_left s).

(** Lines 337-340. *)
Definition standard_plugin_names (BUILD_EXTRA : bool) : list string :=
  ["stdscat"; "stdabs"; "stdncmat"] ++ (if BUILD_EXTRA then ["nxslaz"] else []).

(** Is there a colon in the string? ([entry MATCHES ":"], line 307) *)
Fixpoint has_colon (s : string) : bool :=
  match s with
  | EmptyString => false
  | String c s' => (N_of_ascii c =? 58) || has_colon s'
  end.

(** An entry of [BUILTIN_PLUGIN_LIST] with what the loop finds out about
    it on the way: in the file system, and from the plugin's own
    [CMakeLists.txt]. *)
Record PluginEntry := {
  pluginentry : string;
  (** the number of parts between [::] of a remote entry (line 313) *)
  nparts : nat;
  (** [IS_ABSOLUTE], for a local entry *)
  is_absolute : bool;
  has_ncplugin_name_txt : bool;
  has_CMakeLists_txt : bool;
  (** the first line of [ncplugin_name.txt] *)
  name_line : string;
  (** did the plugin's own [CMakeLists.txt] set [NCPLUGIN_SRCFILES]? *)
  provides_srcfiles : bool;
  (** the first of its data files whose name is not
      [ncplugin-<pluginname>_*.ncmat], if any *)
  bad_datafile : option string
}.

Definition pluginentry_islocal (e : PluginEntry) : bool := negb (has_colon (pluginentry e)).

(** The two lists the loop extends. *)
Record PluginNames := {
  all_plugin_names_lc : list string;
  NCrystal_builtin_plugin_names : list string
}.

(** One turn of the [foreach] of lines 344-418. *)
Definition add_plugin (names : PluginNames) (e : PluginEntry) : Outcome PluginNames :=
  if negb (pluginentry_islocal e) && negb ((nparts e =? 1)%nat || (nparts e =? 2)%nat) then
    FATAL_ERROR ("Invalid syntax of entry in BUILTIN_PLUGIN_LIST: " +:+ pluginentry e)
  else if pluginentry_islocal e && negb (is_absolute e) then
    FATAL_ERROR ("Local path in BUILTIN_PLUGIN_LIST is not an absolute paths: "
                 +:+ pluginentry e)
  else if negb (has_ncplugin_name_txt e) || negb (has_CMakeLists_txt e) then
    FATAL_ERROR ("Entry in BUILTIN_PLUGIN_LIST does not appear to contain proper sources (missing ncplugin_name.txt or CMakeLists.txt file): "
                 +:+ pluginentry e)
  else
    let NCPlugin_NAME := STRIP (name_line e) in
    let NCPlugin_NAME_lowercase := TOLOWER NCPlugin_NAME in
    if bool_decide (NCPlugin_NAME_lowercase ∈ all_plugin_names_lc names) then
      FATAL_ERROR ("Multiple plugins have the same name (must be unique and not clash with standard plugins): "
                   +:+ NCPlugin_NAME +:+ ".")
    else
      let names_lc := all_plugin_names_lc names ++ [NCPlugin_NAME_lowercase] in
      if negb (provides_srcfiles e) || is_false_constant NCPlugin_NAME then
        FATAL_ERROR ("Problem adding plugin (did not provide both NCPLUGIN_SRCFILES and NCPlugin_NAME variables): "
                     +:+ pluginentry e)
      else
        match bad_datafile e with
        | Some dfbn =>
          FATAL_ERROR ("Problem adding plugin: name of datafile " +:+ dfbn +:+
                       " does not have required form: ncplugin-" +:+ NCPlugin_NAME +:+
                       "_*.ncmat")
        | None =>
          Configured
            {| all_plugin_names_lc := names_lc;
               NCrystal_builtin_plugin_names :=
                 NCrystal_builtin_plugin_names names ++ [NCPlugin_NAME] |}
        end.

(** The whole [foreach]: a fatal error stops the configuration. *)
Fixpoint add_plugins (names : PluginNames) (entries : list PluginEntry)
  : Outcome PluginNames :=
  match entries with
  | [] => Configured names
  | e :: rest =>
    match add_plugin names e with
    | Configured names' => add_plugins names' rest
    | FATAL_ERROR msg => FATAL_ERROR msg
    end
  end.

(** Lines 337-418. *)
Definition configure_plugins (BUILD_EXTRA : bool) (BUILTIN_PLUGIN_LIST : list PluginEntry)
  : Outcome PluginNames :=
  add_plugins {| all_plugin_names_lc := standard_plugin_names BUILD_EXTRA;
                 NCrystal_builtin_plugin_names := [] |}
              BUILTIN_PLUGIN_LIST.

(** The name of a plugin as the file gives it, and as it is compared. *)
Definition plugin_name (e : PluginEntry) : string := STRIP (name_line e).
Definition registered_name (e : PluginEntry) : string := TOLOWER (plugin_name e).

(** The entry passes the checks that come before the name check. *)
Definition sources_found (e : PluginEntry) : Prop :=
  (pluginentry_islocal e = true -> is_absolute e = true) /\
  (pluginentry_islocal e = false -> nparts e = 1%nat \/ nparts e = 2%nat) /\
  has_ncplugin_name_txt e = true /\ has_CMakeLists_txt e = true.

Definition is_duplicate_name_error (msg : string) : Prop :=
  exists name,
    msg = "Multiple plugins have the same name (must be unique and not clash with standard plugins): "
          +:+ name +:+ ".".

End CMake.

(** ** The Hill system, in the words of the specification *)

Section HillSystem.
Context `{Externals}.








End HillSystem.

(** ** A concrete installation

    Geant4's table of element symbols, a few NCMAT files and the
    configurations the specification names. *)

Module Scenario.

Definition nist_symbols : list string :=
  [""; "H"; "He"; "Li"; "Be"; "B"; "C"; "N"; "O"; "F"; "Ne";
   "Na"; "Mg"; "Al"; "Si"; "P"; "S"; "Cl"; "Ar"; "K"; "Ca";
   "Sc"; "Ti"; "V"; "Cr"; "Mn"; "Fe"; "Co"; "Ni"; "Cu"; "Zn";
   "Ga"; "Ge"; "As"; "Se"; "Br"; "Kr"; "Rb"; "Sr"; "Y"; "Zr";
   "Nb"; "Mo"; "Tc"; "Ru"; "Rh"; "Pd"; "Ag"; "Cd"; "In"; "Sn";
   "Sb"; "Te"; "I"; "Xe"; "Cs"; "Ba"; "La"; "Ce"; "Pr"; "Nd";
   "Pm"; "Sm"; "Eu"; "Gd"; "Tb"; "Dy"; "Ho"; "Er"; "Tm"; "Yb";
   "Lu"; "Hf"; "Ta"; "W"; "Re"; "Os"; "Ir"; "Pt"; "Au"; "Hg";
   "Tl"; "Pb"; "Bi"; "Po"; "At"; "Rn"; "Fr"; "Ra"; "Ac"; "Th";
   "Pa"; "U"; "Np"; "Pu"; "Am"; "Cm"; "Bk"; "Cf"; "Es"; "Fm";
   "Md"; "No"; "Lr"; "Rf"; "Db"; "Sg"; "Bh"].

(** [GetZ]: the atomic number of a symbol, 0 when there is none. *)
Fixpoint symbol_index (name : string) (symbols : list string) (i : Z) : Z :=
  match symbols with
  | [] => 0
  | s :: rest =>
    if String.eqb s name && negb (String.eqb name "") then i
    else symbol_index name rest (i + 1)
  end.

Definition al_info (temp : float) : Info :=
  {| composition := Some [("Al", 1%float)];
     atomInfo := Some [{| atomic_number := 13; number_per_unit_cell := 4 |}];
     density := Some 2.69865%float;
     temperature := Some temp |}.

Definition al_info_no_temperature : Info :=
  {| composition := Some [("Al", 1%float)];
     atomInfo := Some [{| atomic_number := 13; number_per_unit_cell := 4 |}];
     density := Some 2.69865%float;
     temperature := None |}.

(** Aluminium with its four atoms listed as two crystallographic sites. *)
Definition al_two_sites : list AtomInfo :=
  [{| atomic_number := 13; number_per_unit_cell := 2 |};
   {| atomic_number := 13; number_per_unit_cell := 2 |}].

Definition al_two_sites_info : Info :=
  {| composition := Some [("Al", 1%float)];
     atomInfo := Some al_two_sites;
     density := Some 2.69865%float;
     temperature := Some 293.15%float |}.

Definition corundum_atoms : list AtomInfo :=
  [{| atomic_number := 13; number_per_unit_cell := 12 |};
   {| atomic_number := 8; number_per_unit_cell := 18 |}].

Definition corundum_info : Info :=
  {| composition := Some [("Al", 0.4%float); ("O", 0.6%float)];
     atomInfo := Some corundum_atoms;
     density := Some 3.98%float;
     temperature := Some 293.15%float |}.

Definition error (kind : ErrorKind) (msg : string) : NCError :=
  {| err_kind := kind; err_msg := msg |}.

(** A configuration is its own canonical string here. *)
Definition scenario_createInfo (cfg : string) : sum NCError Info :=
  if String.eqb cfg "Al_sg225.ncmat" then inr (al_info 293.15)
  else if String.eqb cfg "Al_sg225.ncmat;dcutoff=1.5" then inr (al_info 293.15)
  else if String.eqb cfg "Al_sg225.ncmat;temp=77K" then inr (al_info 77)
  else if String.eqb cfg "Al2O3_sg167_Corundum.ncmat" then inr corundum_info
  else if String.eqb cfg "Al_sg225.nxs" then inr al_info_no_temperature
  else inl (error FileNotFound "Could not find input file").

Definition scenario_createScatter (cfg : string) : sum NCError string :=
  if String.eqb cfg "Al_sg225.ncmat;dcutoff=999"
  then inl (error BadInput "dcutoff must be at most 1e5 and larger than dcutoffup")
  else match scenario_createInfo cfg with
       | inl e => inl e
       | inr _ => inr cfg
       end.

Definition atomic_mass (el : G4Element) : float :=
  match el with
  | DeuteriumElement => 2.01410178%float
  | NistElementZ 13 => 26.9815385%float
  | NistElementZ 8 => 15.999%float
  | NistElementZ _ => 1%float
  | NistElementName name =>
    if String.eqb name "Al" then 26.9815385%float
    else if String.eqb name "O" then 15.999%float
    else 1%float
  end.

Definition print_double (x : float) : string :=
  if PrimFloat.eqb x 1 then "1"
  else if PrimFloat.eqb x 0.4 then "0.4000000000000000"
  else if PrimFloat.eqb x 0.6 then "0.6000000000000000"
  else "0".

Definition installation : Externals := {|
  MatCfg := string;
  Scatter := string;
  MatCfg_parse := fun s =>
    if String.eqb s "" then inl (error BadInput "Missing data file") else inr s;
  toStrCfg := fun cfg => cfg;
  get_packfact := fun _ => 1%float;
  libClashDetect := None;
  createScatter := scenario_createScatter;
  createInfo := scenario_createInfo;
  nist_GetZ := fun name => symbol_index name nist_symbols 0;
  symbol_db := nist_symbols;
  GetAtomicMassAmu := atomic_mass;
  double_to_string := print_double;
  CLHEP_kelvin := 1%float;
  CLHEP_gram := 6.241509074460763e+21%float;
  CLHEP_cm3 := 1000%float;
  CLHEP_atmosphere := 632420632.6974211%float
|}.

#[local] Existing Instance installation.

Definition empty_world : World := initial_world [].

(** The configurations requested below. *)
Definition Al : MatCfg := "Al_sg225.ncmat".
Definition Al_dcutoff : MatCfg := "Al_sg225.ncmat;dcutoff=1.5".
Definition Al_bad_dcutoff : MatCfg := "Al_sg225.ncmat;dcutoff=999".
Definition Al_77K : MatCfg := "Al_sg225.ncmat;temp=77K".
Definition Al_nxs : MatCfg := "Al_sg225.nxs".
Definition corundum : MatCfg := "Al2O3_sg167_Corundum.ncmat".
Definition nofile : MatCfg := "nofile.ncmat".

(** The process after aluminium has been requested once. *)
Definition al_world : World :=
  (getG4MaterialWithCache Al empty_world).2.

(** Two threads, one asking for aluminium, one for corundum. *)
Definition two_threads : Process :=
  start_process empty_world [Al; corundum].

(** Heavy water with a trace of carbon, as a formula: H4 C O2 D2 B. *)
Definition example_formula : ChemicalFormula :=
  [(1, 4); (6, 1); (8, 2); (1001, 2); (5, 1)].

Definition my_plugin : CMake.PluginEntry :=
  {| CMake.pluginentry := "/opt/ncplugin-MyPlugin";
     CMake.nparts := 0;
     CMake.is_absolute := true;
     CMake.has_ncplugin_name_txt := true;
     CMake.has_CMakeLists_txt := true;
     CMake.name_line := "MyPlugin ";
     CMake.provides_srcfiles := true;
     CMake.bad_datafile := None |}.

(** A plugin whose name is that of a standard plugin, in other case. *)
Definition clashing_plugin : CMake.PluginEntry :=
  {| CMake.pluginentry := "mctools:StdScat::develop";
     CMake.nparts := 2;
     CMake.is_absolute := false;
     CMake.has_ncplugin_name_txt := true;
     CMake.has_CMakeLists_txt := true;
     CMake.name_line := "StdScat";
     CMake.provides_srcfiles := true;
     CMake.bad_datafile := None |}.

End Scenario.
(** ** Further notions

    What the properties of the code beyond the plugin names and the caches
    speak of. *)

(** The unit cell [k] times over. *)
Definition scale_atom (k : N) (a : AtomInfo) : AtomInfo :=
  {| atomic_number := atomic_number a;
     number_per_unit_cell := k * number_per_unit_cell a |}.

Definition scale_entry (k : N) (e : N * N) : N * N := (e.1, k * e.2).

(** *** The characters of a Hill-system string *)

Definition is_upper (c : ascii) : bool :=
  let n := N_of_ascii c in (65 <=? n) && (n <=? 90).

Definition is_lower (c : ascii) : bool :=
  let n := N_of_ascii c in (97 <=? n) && (n <=? 122).

Definition is_letter (c : ascii) : bool := is_upper c || is_lower c.

Definition is_digit (c : ascii) : bool :=
  let n := N_of_ascii c in (48 <=? n) && (n <=? 57).

Fixpoint all_chars (P : ascii -> bool) (s : string) : bool :=
  match s with
  | EmptyString => true
  | String c s' => P c && all_chars P s'
  end.

(** The string is at its end, or goes on with a character that is not [P]. *)
Definition stops (P : ascii -> bool) (s : string) : bool :=
  match s with
  | EmptyString => true
  | String c _ => negb (P c)
  end.

(** An element symbol as chemistry writes it: a capital letter, then
    small letters. *)
Definition is_symbol_name (s : string) : bool :=
  match s with
  | String c rest => is_upper c && all_chars is_lower rest
  | EmptyString => false
  end.

(** What one element of a formula adds to the string: a capital letter,
    then no capital letter. *)
Definition is_token (s : string) : bool :=
  match s with
  | String c rest => is_upper c && all_chars (fun c => negb (is_upper c)) rest
  | EmptyString => false
  end.

Section Symbols.
Context `{Externals}.

(** Geant4's table of element symbols, indexed by atomic number (nothing
    is asked of index 0, which is no element): the symbols are symbols
    of different elements, and none is the "D" of deuterium. *)
Definition symbols_wellformed : Prop :=
  List.NoDup (tail symbol_db) /\
  List.Forall (fun s => is_symbol_name s = true /\ s <> "D") (tail symbol_db).

(** Lines 158-166: how the element is written. *)
Definition entry_symbol (z : N) : string :=
  if zIsDeuterium z then "D"
  else if z <? N.of_nat (length symbol_db) then default "" (symbol_db !! N.to_nat z)
  else "Elem<" +:+ pretty z +:+ ">".

(** Lines 169-170: how the count is written. *)
Definition count_text (n : N) : string := if n =? 1 then "" else pretty n.

Definition entry_text (e : N * N) : string := entry_symbol e.1 +:+ count_text e.2.


(** The three ways an element is written. *)
Inductive SymbolKind (z : N) : Prop :=
| WrittenD : z = specialZValueDeuterium -> entry_symbol z = "D" -> SymbolKind z
| WrittenSymbol (s : string) :
    z <> specialZValueDeuterium ->
    tail symbol_db !! N.to_nat (z - 1) = Some s -> entry_symbol z = s -> SymbolKind z
| WrittenElem :
    entry_symbol z = "Elem<" +:+ pretty z +:+ ">" -> SymbolKind z.

End Symbols.

(** *** The application and the helper *)

Section Application.
Context `{Externals}.

(** What an application does that the helper can see: it asks for a
    material, it builds a material of its own, it deletes a material. *)
Inductive Action :=
| Request (cfg : MatCfg)
| Construct (m : G4Material)
| Destroy (mat : nat).

Definition run_action (a : Action) (w : World) : World :=
  match a with
  | Request cfg => (createMaterial_MatCfg cfg w).2
  | Construct m => push_material m w
  | Destroy mat => delete_G4Material mat w
  end.

Definition run_actions (actions : list Action) (w : World) : World :=
  fold_left (fun w a => run_action a w) actions w.

(** A state the process can be in. *)
Definition reachable_world (w : World) : Prop :=
  exists table actions, w = run_actions actions (initial_world table).

(** The pointers of the derived materials built, oldest first. *)
Definition derived_pointer (e : Event) : option nat :=
  match e with
  | EvNewG4Material ptr name =>
    if String.prefix matnameprefix name then Some ptr else None
  | _ => None
  end.

Definition derived_pointers (l : list Event) : list nat :=
  omap derived_pointer l.

(** The element [AddElement] is called with for an atomic number, and
    for an element name (lines 238-242 and 258-262). *)
Definition element_of_Z (z : N) : G4Element :=
  if zIsDeuterium z then DeuteriumElement else NistElementZ (Z.of_N z).

Definition element_of_name (name : string) : G4Element :=
  if String.eqb name "D" then DeuteriumElement else NistElementName name.

Definition is_handleError (e : Event) : bool :=
  match e with
  | EvHandleError _ _ _ => true
  | _ => false
  end.

(** The cache has no material for the key: no entry, or an entry whose
    material has been deleted. *)
Definition missing (c : gmap string nat) (w : World) (key : string) : Prop :=
  forall idx, c !! key = Some idx -> materialTable w !! idx = Some None.

(** The four ways [createMaterial] ends when no cached index is out of
    range: with the cached material; with a null pointer after a failed
    build; with a new material on the cached base material; with a new
    material on a new base material. *)
Inductive RequestOutcome (cfg : MatCfg) (w : World) : Result (option nat) -> World -> Prop :=
| CacheHit (mat : nat) :
    ready (cache w) w (toStrCfg cfg) mat ->
    RequestOutcome cfg w (Ok (Some mat)) w
| BuildFailed (e : NCError) (evs : list Event) :
    missing (cache w) w (toStrCfg cfg) ->
    build_attempt cfg = inl (NCrystalError e, evs) ->
    RequestOutcome cfg w (Ok None) (log_call (handled e) (set_calls (calls w ++ evs) w))
| BuiltOnBase (scatter : Scatter) (info : Info) (chemform : ChemicalFormula)
    (chemform_str : string) (matBase : nat) :
    missing (cache w) w (toStrCfg cfg) ->
    build_attempt cfg = inr (scatter, info, chemform, chemform_str) ->
    ready (base_cache w) w chemform_str matBase ->
    RequestOutcome cfg w (Ok (Some (length (materialTable w))))
      (with_derived_material cfg info scatter matBase
         (set_calls (calls w ++ [EvCreateScatter cfg; EvCreateInfo cfg]) w))
| BuiltWithBase (scatter : Scatter) (info : Info) (chemform : ChemicalFormula)
    (chemform_str : string) :
    missing (cache w) w (toStrCfg cfg) ->
    build_attempt cfg = inr (scatter, info, chemform, chemform_str) ->
    missing (base_cache w) w chemform_str ->
    RequestOutcome cfg w (Ok (Some (S (length (materialTable w)))))
      (with_derived_material cfg info scatter (length (materialTable w))
         (with_base_material info chemform chemform_str
            (set_calls (calls w ++ [EvCreateScatter cfg; EvCreateInfo cfg]) w))).

(** What holds of the caches, the material table and the scatter
    properties in every state the process can be in. *)
Record helper_invariant (w : World) : Prop := {
  hi_range : caches_in_range w;
  hi_derived : forall (key : string) (idx : nat) (m : G4Material),
    cache w !! key = Some idx -> materialTable w !! idx = Some (Some m) ->
    mat_name m = matnameprefix +:+ key /\
    exists b, mat_origin m = FromBaseMaterial b /\ (b < idx)%nat;
  hi_base : forall (key : string) (idx : nat) (m : G4Material),
    base_cache w !! key = Some idx -> materialTable w !! idx = Some (Some m) ->
    mat_name m = base_matnameprefix +:+ key /\
    exists n, mat_origin m = FromComponents n;
  hi_scatter : map fst (scatterProperties w) = derived_pointers (calls w);
  hi_scatter_origin : forall mat s, In (mat, s) (scatterProperties w) ->
    exists cfg, createScatter cfg = inr s /\
      forall m, materialTable w !! mat = Some (Some m) ->
                mat_name m = matnameprefix +:+ toStrCfg cfg;
  hi_pointers : forall ptr, In ptr (derived_pointers (calls w)) ->
    (ptr < length (materialTable w))%nat;
  hi_nodup : List.NoDup (derived_pointers (calls w));
  hi_cached : forall (key : string) (idx : nat), cache w !! key = Some idx ->
    In idx (derived_pointers (calls w))
}.

End Application.

Arguments Request {_} cfg.
Arguments Construct {_} m.
Arguments Destroy {_} mat.

(** *** Threads and the order of their requests *)

Section Linearization.
Context `{Externals}.


Definition has_returned (p : Process) (t : nat) : Prop :=
  exists cfg r, threads p !! t = Some (Returned cfg r).


(** The steps a thread still has to take: the lock and the critical
    section, the critical section, none. *)
Definition steps_left (st : ThreadState) : nat :=
  match st with
  | AtLockGuard _ => 2
  | InCriticalSection _ => 1
  | Returned _ _ => 0
  end.

Definition remaining (p : Process) : nat :=
  foldr (fun st n => (steps_left st + n)%nat) 0%nat (threads p).

End Linearization.

(** *** [getDeuteriumG4Element] (lines 55-64)

    The element is kept in a [static] pointer and built on the first
    call; the calls are serialized by a mutex of their own. A
    [G4Element*] is the index of the element in Geant4's table of
    elements, where every [G4Element] registers itself. *)

Record G4Isotope := {
  iso_name : string;
  iso_Z : Z;
  iso_N : Z
}.

Record G4ElementObject := {
  elem_name : string;
  elem_symbol : string;
  elem_nIsotopes : Z;
  (** the isotopes added, with their relative abundance *)
  elem_isotopes : list (G4Isotope * float)
}.

Record ElementStore := {
  elementTable : list G4ElementObject;
  s_deuterium : option nat
}.

(** [new G4Element(name, symbol, nIsotopes)] *)
Definition new_G4Element (name symbol : string) (nIsotopes : Z) (st : ElementStore)
  : nat * ElementStore :=
  (length (elementTable st),
   {| elementTable := elementTable st ++
        [{| elem_name := name; elem_symbol := symbol; elem_nIsotopes := nIsotopes;
            elem_isotopes := [] |}];
      s_deuterium := s_deuterium st |}).

(** [el->AddIsotope(isotope, abundance)] *)
Definition AddIsotope (el : nat) (isotope : G4Isotope) (abundance : float)
    (st : ElementStore) : ElementStore :=
  {| elementTable :=
       alter (fun e => {| elem_name := elem_name e; elem_symbol := elem_symbol e;
                          elem_nIsotopes := elem_nIsotopes e;
                          elem_isotopes := elem_isotopes e ++ [(isotope, abundance)] |})
             el (elementTable st);
     s_deuterium := s_deuterium st |}.

Definition getDeuteriumG4Element (st : ElementStore) : nat * ElementStore :=
  match s_deuterium st with
  | Some el => (el, st)
  | None =>
    let '(el, st) := new_G4Element "Deuterium" "Deuterium" 1 st in
    let st := AddIsotope el {| iso_name := "Deuteron"; iso_Z := 1; iso_N := 2 |} 1 st in
    (el, {| elementTable := elementTable st; s_deuterium := Some el |})
  end.

(** What happens to the table of elements: the helper asks for
    deuterium, or somebody builds another element. *)
Inductive ElementAction :=
| GetDeuterium
| BuildElement (name symbol : string) (nIsotopes : Z).

(** The pointers the calls of [getDeuteriumG4Element] return, and the
    state at the end. *)
Fixpoint run_element_actions (actions : list ElementAction) (st : ElementStore)
  : list nat * ElementStore :=
  match actions with
  | [] => ([], st)
  | GetDeuterium :: rest =>
    let '(el, st) := getDeuteriumG4Element st in
    let '(els, st) := run_element_actions rest st in
    (el :: els, st)
  | BuildElement name symbol n :: rest =>
    run_element_actions rest (new_G4Element name symbol n st).2
  end.

Definition is_GetDeuterium (a : ElementAction) : bool :=
  match a with GetDeuterium => true | BuildElement _ _ _ => false end.

(** The element the helper uses for deuterium. *)
Definition deuterium_element : G4ElementObject :=
  {| elem_name := "Deuterium"; elem_symbol := "Deuterium"; elem_nIsotopes := 1;
     elem_isotopes := [({| iso_name := "Deuteron"; iso_Z := 1; iso_N := 2 |}, 1%float)] |}.

(** ** More of [CMakeLists.txt]: the entries of [BUILTIN_PLUGIN_LIST]

    CMake keeps a list in one string, its elements separated by
    semicolons. *)

Module CMakeConfig.
Import CMake.

(** The elements of a list: the string is cut at the semicolons that are
    not inside square brackets and not behind a backslash, and a
    backslash before a semicolon is dropped. [newArg] is the element
    being read, [squareNesting] the number of brackets open. *)
Fixpoint expand_list_from (s : string) (squareNesting : Z) (newArg : string) : list string :=
  match s with
  | EmptyString => [newArg]
  | String c s' =>
    if Ascii.eqb c "\" then
      match s' with
      | String c' s'' =>
        if Ascii.eqb c' ";" then expand_list_from s'' squareNesting (newArg +:+ ";")
        else expand_list_from s' squareNesting (newArg +:+ "\")
      | EmptyString => [newArg +:+ "\"]
      end
    else if Ascii.eqb c "[" then expand_list_from s' (squareNesting + 1) (newArg +:+ "[")
    else if Ascii.eqb c "]" then expand_list_from s' (squareNesting - 1) (newArg +:+ "]")
    else if Ascii.eqb c ";" && (squareNesting =? 0)%Z then
      newArg :: expand_list_from s' squareNesting ""
    else expand_list_from s' squareNesting (newArg +:+ String c "")
  end.

(** The elements [list(LENGTH ...)] counts and [list(GET ...)] reads:
    empty elements count (policy CMP0007), the empty string is the empty
    list. *)
Definition list_elements (value : string) : list string :=
  if String.eqb value "" then [] else expand_list_from value 0 "".

(** The arguments an unquoted [${var}] stands for: the elements that are
    not empty. *)
Definition unquoted_arguments (value : string) : list string :=
  List.filter (fun s => negb (String.eqb s "")) (list_elements value).

Fixpoint join_semicolon (l : list string) : string :=
  match l with
  | [] => ""
  | [x] => x
  | x :: rest => x +:+ ";" +:+ join_semicolon rest
  end.

(** [set(var ${value} PARENT_SCOPE)]: the value [var] has afterwards. *)
Definition set_unquoted (value : string) : string :=
  join_semicolon (unquoted_arguments value).

(** [list(APPEND var element)] *)
Definition list_APPEND (value element : string) : string :=
  if String.eqb value "" then element else value +:+ ";" +:+ element.

(** [string(REPLACE "::" ";" ...)]: every occurrence, from the left. *)
Fixpoint REPLACE_double_colon (s : string) : string :=
  match s with
  | EmptyString => EmptyString
  | String c1 rest =>
    match rest with
    | String c2 s' =>
      if Ascii.eqb c1 ":" && Ascii.eqb c2 ":" then String ";" (REPLACE_double_colon s')
      else String c1 (REPLACE_double_colon rest)
    | EmptyString => String c1 EmptyString
    end
  end.

(** [string(REPLACE ":" ";" ...)] *)
Fixpoint REPLACE_colon (s : string) : string :=
  match s with
  | EmptyString => EmptyString
  | String c s' => String (if Ascii.eqb c ":" then ";"%char else c) (REPLACE_colon s')
  end.

(** [remoteurl MATCHES "/"] *)
Fixpoint has_slash (s : string) : bool :=
  match s with
  | EmptyString => false
  | String c s' => Ascii.eqb c "/" || has_slash s'
  end.

(** What [parse_pluginentry] sets in the scope of its caller. *)
Inductive ParsedEntry :=
| LocalEntry
| RemoteEntry (pluginentry_remoteurl pluginentry_remoteref : string).

(** Lines 300-333. [list(GET parts 1 ...)] is an error of its own when
    the list has one element after all. *)
Definition parse_pluginentry (entry : string) : Outcome ParsedEntry :=
  if negb (has_colon entry) then Configured LocalEntry
  else
    let parts := REPLACE_double_colon entry in
    let nparts := length (list_elements parts) in
    if negb ((nparts =? 1)%nat || (nparts =? 2)%nat) then
      FATAL_ERROR ("Invalid syntax of entry in BUILTIN_PLUGIN_LIST: " +:+ entry)
    else
      let parts := if (nparts =? 1)%nat then list_APPEND parts "main" else parts in
      match list_elements parts with
      | remoteurl :: remoteref :: _ =>
        let remoteurl :=
          if negb (has_slash remoteurl) then
            match list_elements (REPLACE_colon remoteurl) with
            | [remoteaccount; remotereponameending] =>
              "https://github.com/" +:+ remoteaccount +:+ "/ncplugin-"
                +:+ remotereponameending +:+ ".git"
            | _ => remoteurl
            end
          else remoteurl in
        Configured (RemoteEntry (set_unquoted remoteurl) (set_unquoted remoteref))
      | _ => FATAL_ERROR "list index: 1 out of range (-1, 0)"
      end.

(** The number of parts the loop of lines 344-418 is told of. *)
Definition entry_nparts (entry : string) : nat :=
  length (list_elements (REPLACE_double_colon entry)).

(** A character a list is cut at, or that changes how it is cut. *)
Definition is_list_char (c : ascii) : bool :=
  Ascii.eqb c ";" || Ascii.eqb c "[" || Ascii.eqb c "]" || Ascii.eqb c "\".

(** A name: no colon and nothing a list is cut at. *)
Definition is_name_char (c : ascii) : bool :=
  negb (Ascii.eqb c ":") && negb (is_list_char c).

Definition plain (s : string) : bool := all_chars is_name_char s.

(** The long form of the entry [account:reponameending]. *)
Definition github_url (account reponameending : string) : string :=
  "https://github.com/" +:+ account +:+ "/ncplugin-" +:+ reponameending +:+ ".git".

(** *** The file that loads the plugins (lines 401-417) *)

Definition newline : string := String (ascii_of_nat 10) "".
Definition quote : string := String (ascii_of_nat 34) "".

(** The value of a list variable that got its elements by [list(APPEND ...)]. *)
Definition list_value (elements : list string) : string :=
  fold_left list_APPEND elements "".

Definition registerPlugin_declaration (NCPlugin_NAME : string) : string :=
  "namespace NCrystalPlugin_" +:+ NCPlugin_NAME +:+ " { void registerPlugin(); }" +:+ newline.

Definition loadBuiltinPlugin_call (NCPlugin_NAME : string) : string :=
  "    Plugins::loadBuiltinPlugin(" +:+ quote +:+ NCPlugin_NAME +:+ quote +:+
  ",NCrystalPlugin_" +:+ NCPlugin_NAME +:+ "::registerPlugin);" +:+ newline.

(** The text of [autogen_ncplugins.cc] for the plugins named. *)
Definition ncplugins_text (names : list string) : string :=
  "//Autogenerated file" +:+ newline +:+ "#include <iostream>" +:+ newline +:+
  "#include " +:+ quote +:+ "NCrystal/NCPluginMgmt.hh" +:+ quote +:+ newline +:+
  string_concat (map registerPlugin_declaration names) +:+
  "namespace NCrystal {" +:+ newline +:+ "  void provideBuiltinPlugins() {" +:+ newline +:+
  string_concat (map loadBuiltinPlugin_call names) +:+
  "  }" +:+ newline +:+ "}" +:+ newline.

(** Lines 401-417: the file written, if one is written (and then
    [NCRYSTAL_HAS_BUILTIN_PLUGINS] is defined for the library). *)
Definition autogen_ncplugins_cc (NCrystal_builtin_plugin_names : string) : option string :=
  if is_false_constant NCrystal_builtin_plugin_names then None
  else Some (ncplugins_text (unquoted_arguments NCrystal_builtin_plugin_names)).

(** Does the character occur in the string? *)
Fixpoint contains_char (c : ascii) (s : string) : bool :=
  match s with
  | EmptyString => false
  | String c' s' => Ascii.eqb c' c || contains_char c s'
  end.

End CMakeConfig.

(** ** More cases

    Corundum given by its formula unit, files that leave something out,
    and an installation whose libraries do not fit together. *)

Module Cases.
Import Scenario.

Definition corundum_unit_atoms : list AtomInfo :=
  [{| atomic_number := 8; number_per_unit_cell := 3 |};
   {| atomic_number := 13; number_per_unit_cell := 2 |}].

Definition corundum_unit_info : Info :=
  {| composition := Some [("Al", 0.4%float); ("O", 0.6%float)];
     atomInfo := Some corundum_unit_atoms;
     density := Some 3.98%float;
     temperature := Some 293.15%float |}.

Definition no_density_info : Info :=
  {| composition := Some [("Al", 1%float)];
     atomInfo := Some [{| atomic_number := 13; number_per_unit_cell := 4 |}];
     density := None;
     temperature := None |}.

Definition no_composition_info : Info :=
  {| composition := None;
     atomInfo := None;
     density := Some 1%float;
     temperature := None |}.

Definition incomplete_createInfo (cfg : string) : sum NCError Info :=
  if String.eqb cfg "nodensity.ncmat" then inr no_density_info
  else if String.eqb cfg "nocomposition.ncmat" then inr no_composition_info
  else scenario_createInfo cfg.

(** The installation of [Scenario] with the two incomplete files. *)
Definition incomplete_files : Externals := {|
  MatCfg := string;
  Scatter := string;
  MatCfg_parse := fun s =>
    if String.eqb s "" then inl (error BadInput "Missing data file") else inr s;
  toStrCfg := fun cfg => cfg;
  get_packfact := fun _ => 1%float;
  libClashDetect := None;
  createScatter := fun cfg => inr cfg;
  createInfo := incomplete_createInfo;
  nist_GetZ := fun name => symbol_index name nist_symbols 0;
  symbol_db := nist_symbols;
  GetAtomicMassAmu := atomic_mass;
  double_to_string := print_double;
  CLHEP_kelvin := 1%float;
  CLHEP_gram := 6.241509074460763e+21%float;
  CLHEP_cm3 := 1000%float;
  CLHEP_atmosphere := 632420632.6974211%float
|}.

Definition clash : NCError :=
  error LogicError "Detected multiple versions of the NCrystal library".

(** The installation of [Scenario] with a second NCrystal library in the
    process. *)
Definition clashing_libraries : Externals := {|
  MatCfg := string;
  Scatter := string;
  MatCfg_parse := fun s =>
    if String.eqb s "" then inl (error BadInput "Missing data file") else inr s;
  toStrCfg := fun cfg => cfg;
  get_packfact := fun _ => 1%float;
  libClashDetect := Some clash;
  createScatter := scenario_createScatter;
  createInfo := scenario_createInfo;
  nist_GetZ := fun name => symbol_index name nist_symbols 0;
  symbol_db := nist_symbols;
  GetAtomicMassAmu := atomic_mass;
  double_to_string := print_double;
  CLHEP_kelvin := 1%float;
  CLHEP_gram := 6.241509074460763e+21%float;
  CLHEP_cm3 := 1000%float;
  CLHEP_atmosphere := 632420632.6974211%float
|}.

Definition no_density : @MatCfg incomplete_files := "nodensity.ncmat".
Definition no_composition : @MatCfg incomplete_files := "nocomposition.ncmat".
Definition Al_clashing : @MatCfg clashing_libraries := "Al_sg225.ncmat".

(** The process after aluminium was requested and deleted again. *)
Definition al_deleted_world : World := delete_G4Material 1 al_world.

(** A second plugin, given by its repository. *)
Definition other_plugin : CMake.PluginEntry :=
  {| CMake.pluginentry := "mctools:OtherPlugin::v1.0";
     CMake.nparts := 2;
     CMake.is_absolute := false;
     CMake.has_ncplugin_name_txt := true;
     CMake.has_CMakeLists_txt := true;
     CMake.name_line := "OtherPlugin";
     CMake.provides_srcfiles := true;
     CMake.bad_datafile := None |}.

End Cases.


(** * Properties *)

(** ** Euclid's algorithm *)

Lemma greatestCommonDivisor_0_r (a : N) : greatestCommonDivisor a 0 = a.
Proof. now simp greatestCommonDivisor. Qed.

Lemma greatestCommonDivisor_step (a b : N) :
  b <> 0 -> greatestCommonDivisor a b = greatestCommonDivisor b (a mod b).
Proof.
  destruct b as [|p]; [congruence|]. intros _. now simp greatestCommonDivisor.
Qed.

Lemma greatestCommonDivisor_gcd (a b : N) : greatestCommonDivisor a b = N.gcd a b.
Proof.
  revert a. induction b as [b IH] using (well_founded_induction N.lt_wf_0).
  intros a. destruct (N.eq_dec b 0) as [->|Hb].
  - now rewrite greatestCommonDivisor_0_r, N.gcd_0_r.
  - rewrite greatestCommonDivisor_step by assumption.
    rewrite IH by now apply N.mod_upper_bound.
    rewrite (N.gcd_comm b (a mod b)), N.Lcm0.gcd_mod. apply N.gcd_comm.
Qed.

Lemma fold_left_gcd (l : list N) (g : N) :
  fold_left (fun g x => greatestCommonDivisor g x) l g = N.gcd g (list_gcd l).
Proof.
  revert g. induction l as [|x l IH]; intros g; simpl.
  - now rewrite N.gcd_0_r.
  - now rewrite IH, greatestCommonDivisor_gcd, N.gcd_assoc.
Qed.

Lemma formula_gcd_list_gcd (cf : ChemicalFormula) :
  formula_gcd cf = list_gcd (map snd cf).
Proof.
  destruct cf as [|e0 rest]; [reflexivity|]. unfold formula_gcd.
  transitivity (fold_left (fun g x => greatestCommonDivisor g x) (map snd rest) e0.2).
  - generalize e0.2. induction rest as [|e rest IH]; intros g; simpl; [reflexivity|].
    apply IH.
  - now rewrite fold_left_gcd.
Qed.

Lemma list_gcd_divide (l : list N) (x : N) : In x l -> (list_gcd l | x).
Proof.
  induction l as [|y l IH]; simpl; [tauto|]. intros [->|Hx].
  - apply N.gcd_divide_l.
  - etransitivity; [apply N.gcd_divide_r|]. now apply IH.
Qed.

Lemma list_gcd_greatest (l : list N) (d : N) :
  (forall x, In x l -> (d | x)) -> (d | list_gcd l).
Proof.
  induction l as [|y l IH]; simpl; intros Hd.
  - apply N.divide_0_r.
  - apply N.gcd_greatest; [apply Hd; now left|]. apply IH. intros x Hx. apply Hd. now right.
Qed.

Lemma list_gcd_Permutation (l l' : list N) :
  Permutation l l' -> list_gcd l = list_gcd l'.
Proof.
  induction 1; simpl; try congruence.
  now rewrite !N.gcd_assoc, (N.gcd_comm y x).
Qed.

Lemma list_gcd_nonzero (l : list N) (x : N) : In x l -> x <> 0 -> list_gcd l <> 0.
Proof.
  intros Hin Hx Hg. apply list_gcd_divide in Hin. rewrite Hg in Hin.
  apply N.divide_0_l in Hin. contradiction.
Qed.

(** Dividing all counts by their gcd leaves counts whose gcd is 1. *)
Lemma list_gcd_reduced (l : list N) :
  list_gcd l <> 0 -> list_gcd (map (fun x => x / list_gcd l) l) = 1.
Proof.
  intros Hg. set (g := list_gcd l) in *.
  set (g' := list_gcd (map (fun x => x / g) l)).
  assert (Hdiv : (g * g' | g)).
  { apply list_gcd_greatest. intros x Hx.
    destruct (list_gcd_divide l x Hx) as [q Hq]. fold g in Hq.
    assert (Hxg : x / g = q) by (subst x; now apply N.div_mul).
    assert (Hin : In (x / g) (map (fun x => x / g) l)) by (apply in_map_iff; eauto).
    destruct (list_gcd_divide _ _ Hin) as [q' Hq']. fold g' in Hq'.
    exists q'. rewrite Hq at 1. rewrite <- Hxg, Hq'. lia. }
  destruct Hdiv as [k Hk].
  assert (k * g' = 1) by nia.
  apply N.eq_mul_1 in H. tauto.
Qed.

(** ** Sorting *)

Section Sorting.
Context {A : Type} (le : A -> A -> bool).
Hypothesis le_total : forall x y, le x y = true \/ le y x = true.
Hypothesis le_trans : forall x y z, le x y = true -> le y z = true -> le x z = true.

Lemma sort_insert_Permutation (x : A) (l : list A) :
  Permutation (sort_insert le x l) (x :: l).
Proof.
  induction l as [|y l IH]; simpl; [reflexivity|].
  destruct (le x y); [reflexivity|].
  rewrite IH. apply perm_swap.
Qed.

Lemma std_sort_Permutation (l : list A) : Permutation (std_sort le l) l.
Proof.
  induction l as [|x l IH]; simpl; [reflexivity|].
  rewrite sort_insert_Permutation. now constructor.
Qed.

Lemma sort_insert_sorted (x : A) (l : list A) :
  StronglySorted (fun a b => le a b = true) l ->
  StronglySorted (fun a b => le a b = true) (sort_insert le x l).
Proof.
  induction 1 as [|y l Hs IH Hall]; simpl.
  - repeat constructor.
  - destruct (le x y) eqn:Hxy.
    + constructor; [now constructor|]. constructor; [assumption|].
      eapply List.Forall_impl; [|exact Hall]. simpl. intros z Hz. now apply le_trans with y.
    + constructor; [assumption|].
      assert (Hyx : le y x = true) by (destruct (le_total x y); congruence).
      rewrite List.Forall_forall. intros z Hz.
      apply (Permutation_in _ (sort_insert_Permutation x l)) in Hz.
      destruct Hz as [<-|Hz]; [assumption|].
      rewrite List.Forall_forall in Hall. now apply Hall.
Qed.

Lemma std_sort_sorted (l : list A) :
  StronglySorted (fun a b => le a b = true) (std_sort le l).
Proof.
  induction l as [|x l IH]; simpl; [constructor|]. now apply sort_insert_sorted.
Qed.

(** With an antisymmetric order there is one sorted permutation: whatever
    algorithm [std::sort] runs, it returns [std_sort]'s list. *)
Hypothesis le_antisym : forall x y, le x y = true -> le y x = true -> x = y.

Lemma sort_unique (l1 l2 : list A) :
  Permutation l1 l2 ->
  StronglySorted (fun a b => le a b = true) l1 ->
  StronglySorted (fun a b => le a b = true) l2 ->
  l1 = l2.
Proof.
  revert l2. induction l1 as [|x l1 IH]; intros l2 Hp H1 H2.
  - apply Permutation_nil in Hp. congruence.
  - destruct l2 as [|y l2]; [apply Permutation_sym, Permutation_nil in Hp; congruence|].
    apply StronglySorted_inv in H1 as [H1 Hx]. apply StronglySorted_inv in H2 as [H2 Hy].
    rewrite List.Forall_forall in Hx, Hy.
    assert (x = y) as <-.
    { assert (Hin1 : In x (y :: l2)) by (eapply Permutation_in; [exact Hp|now left]).
      assert (Hin2 : In y (x :: l1)) by (eapply Permutation_in; [symmetry; exact Hp|now left]).
      destruct Hin1 as [->|Hin1]; [reflexivity|].
      destruct Hin2 as [->|Hin2]; [reflexivity|].
      apply le_antisym; auto. }
    f_equal. apply IH; auto. now apply Permutation_cons_inv in Hp.
Qed.

End Sorting.


(** ** The order of [(atomic_number, count)] pairs *)

Lemma upair_le_total (p q : N * N) : upair_le p q = true \/ upair_le q p = true.
Proof.
  unfold upair_le. destruct (N.compare_spec p.1 q.1), (N.compare_spec q.1 p.1);
    try lia; auto.
  destruct (N.leb_spec p.2 q.2); [now left|right]. apply N.leb_le. lia.
Qed.

Lemma upair_le_trans (p q r : N * N) :
  upair_le p q = true -> upair_le q r = true -> upair_le p r = true.
Proof.
  unfold upair_le.
  destruct (N.compare_spec p.1 q.1), (N.compare_spec q.1 r.1), (N.compare_spec p.1 r.1);
    try lia; try congruence.
  rewrite !N.leb_le. lia.
Qed.

Lemma upair_le_antisym (p q : N * N) :
  upair_le p q = true -> upair_le q p = true -> p = q.
Proof.
  unfold upair_le. destruct p as [a b], q as [c d]; simpl.
  destruct (N.compare_spec a c), (N.compare_spec c a); try lia; try congruence.
  rewrite !N.leb_le. intros. f_equal; lia.
Qed.

(** Whatever [std::sort] does to a formula, it returns this list. *)
Lemma std_sort_upair_unique (cf sorted : ChemicalFormula) :
  Permutation sorted cf ->
  StronglySorted (fun a b => upair_le a b = true) sorted ->
  sorted = std_sort upair_le cf.
Proof.
  intros Hp Hs. apply (sort_unique upair_le upair_le_antisym); [|assumption|].
  - rewrite Hp. symmetry. apply std_sort_Permutation.
  - apply std_sort_sorted; [apply upair_le_total|apply upair_le_trans].
Qed.

Lemma upair_le_fst (p q : N * N) : upair_le p q = true -> p.1 <= q.1.
Proof.
  unfold upair_le. destruct (N.compare_spec p.1 q.1); intros; try lia; congruence.
Qed.

(** ** The sanity check on duplicates *)

Lemma has_adjacent_duplicate_NoDup (cf : ChemicalFormula) :
  List.NoDup (map fst cf) -> has_adjacent_duplicate cf = false.
Proof.
  induction cf as [|e1 cf IH]; intros Hnd; [reflexivity|].
  destruct cf as [|e2 rest]; [reflexivity|].
  change (((e1.1 =? e2.1) || has_adjacent_duplicate (e2 :: rest)) = false).
  simpl in Hnd. apply List.NoDup_cons_iff in Hnd as [Hnotin Hnd].
  rewrite IH by assumption. rewrite orb_false_r. apply N.eqb_neq.
  intros Heq. apply Hnotin. left. congruence.
Qed.

Lemma sorted_no_duplicate_strict (cf : ChemicalFormula) :
  StronglySorted (fun a b => upair_le a b = true) cf ->
  has_adjacent_duplicate cf = false ->
  strictly_increasing cf.
Proof.
  unfold strictly_increasing.
  induction cf as [|e1 cf IH]; intros Hs Hdup; [constructor|].
  destruct cf as [|e2 rest].
  - repeat constructor.
  - change (((e1.1 =? e2.1) || has_adjacent_duplicate (e2 :: rest)) = false) in Hdup.
    apply orb_false_iff in Hdup as [Hne Hdup]. apply N.eqb_neq in Hne.
    apply StronglySorted_inv in Hs as [Hs Hall].
    specialize (IH Hs Hdup).
    assert (H12 : e1.1 < e2.1).
    { apply List.Forall_inv in Hall. apply upair_le_fst in Hall. lia. }
    constructor; [assumption|]. constructor; [assumption|].
    apply StronglySorted_inv in IH as [_ IH].
    eapply List.Forall_impl; [|exact IH]. simpl. intros. lia.
Qed.

Lemma strictly_increasing_NoDup (cf : ChemicalFormula) :
  strictly_increasing cf -> List.NoDup (map fst cf).
Proof.
  induction 1 as [|e cf Hs IH Hall]; simpl; constructor; [|assumption].
  rewrite List.Forall_forall in Hall. intros Hin.
  apply in_map_iff in Hin as [e' [Heq Hin]]. specialize (Hall e' Hin). lia.
Qed.

(** ** The loop over the atoms *)

Lemma collect_atoms_valid (atoms : list AtomInfo) (cf : ChemicalFormula) :
  List.Forall valid_atom atoms ->
  collect_atoms atoms cf = Ok (cf ++ map atom_entry (counted_atoms atoms)).
Proof.
  intros Hall. revert cf. induction Hall as [|a atoms Ha Hall IH]; intros cf; simpl.
  - now rewrite app_nil_r.
  - unfold valid_atom in Ha. rewrite Ha. simpl.
    destruct (number_per_unit_cell a =? 0); simpl; [apply IH|].
    rewrite IH, <- app_assoc. reflexivity.
Qed.

Lemma collect_atoms_invalid (atoms : list AtomInfo) (cf : ChemicalFormula) :
  List.Exists (fun a => ~ valid_atom a) atoms ->
  exists e, collect_atoms atoms cf = Throw e /\ is_BadInput e.
Proof.
  intros Hex. revert cf. induction atoms as [|a atoms IH]; intros cf.
  - inversion Hex.
  - simpl. destruct (validNCrystalZValue (atomic_number a)) eqn:Ha; simpl.
    + assert (Hex' : List.Exists (fun a => ~ valid_atom a) atoms).
      { inversion Hex; subst; [|assumption]. unfold valid_atom in *. congruence. }
      destruct (number_per_unit_cell a =? 0); apply IH; assumption.
    + eexists. split; [reflexivity|]. reflexivity.
Qed.

Lemma collect_atoms_throws (atoms : list AtomInfo) (cf : ChemicalFormula) (e : Exception) :
  collect_atoms atoms cf = Throw e -> is_BadInput e.
Proof.
  revert cf. induction atoms as [|a atoms IH]; intros cf; simpl; [discriminate|].
  destruct (validNCrystalZValue (atomic_number a)); simpl.
  - destruct (number_per_unit_cell a =? 0); apply IH.
  - intros [= <-]. reflexivity.
Qed.

Lemma collect_atoms_entries (atoms : list AtomInfo) (cf cf' : ChemicalFormula) :
  collect_atoms atoms cf = Ok cf' ->
  List.Forall valid_atom atoms /\ cf' = cf ++ map atom_entry (counted_atoms atoms).
Proof.
  revert cf. induction atoms as [|a atoms IH]; intros cf; simpl.
  - intros [= <-]. split; [constructor|]. now rewrite app_nil_r.
  - destruct (validNCrystalZValue (atomic_number a)) eqn:Ha; simpl; [|discriminate].
    destruct (number_per_unit_cell a =? 0); simpl; intros Hc; apply IH in Hc as [Hall ->].
    + split; [now constructor|reflexivity].
    + split; [now constructor|]. now rewrite <- app_assoc.
Qed.

Lemma counted_atoms_nonzero (atoms : list AtomInfo) :
  List.Forall (fun e : N * N => e.2 <> 0) (map atom_entry (counted_atoms atoms)).
Proof.
  rewrite List.Forall_forall. intros e Hin.
  apply in_map_iff in Hin as [a [<- Hin]]. apply filter_In in Hin as [_ Hnz].
  simpl. apply negb_true_iff, N.eqb_neq in Hnz. assumption.
Qed.

(** ** The formula that comes out of the reduction (lines 104-116) *)

Lemma reduce_and_sort_fst (cf : ChemicalFormula) :
  Permutation (map fst (reduce_and_sort cf)) (map fst cf).
Proof.
  unfold reduce_and_sort.
  rewrite (Permutation_map fst (std_sort_Permutation upair_le _)).
  rewrite map_map. simpl. reflexivity.
Qed.

Lemma reduce_and_sort_reduced (cf : ChemicalFormula) :
  cf <> [] -> List.Forall (fun e : N * N => e.2 <> 0) cf ->
  reduced (reduce_and_sort cf).
Proof.
  intros Hne Hnz. unfold reduced, reduce_and_sort.
  rewrite formula_gcd_list_gcd.
  rewrite (list_gcd_Permutation _ _ (Permutation_map snd (std_sort_Permutation upair_le _))).
  rewrite map_map. simpl. rewrite formula_gcd_list_gcd.
  rewrite <- (map_map snd (fun x => x / list_gcd (map snd cf))).
  apply list_gcd_reduced.
  destruct cf as [|e cf]; [congruence|].
  apply List.Forall_inv in Hnz.
  apply (list_gcd_nonzero _ e.2); [now left|assumption].
Qed.

Lemma reduce_and_sort_sorted (cf : ChemicalFormula) :
  StronglySorted (fun a b => upair_le a b = true) (reduce_and_sort cf).
Proof. apply std_sort_sorted; [apply upair_le_total|apply upair_le_trans]. Qed.

Lemma reduce_and_sort_nonempty (cf : ChemicalFormula) :
  cf <> [] -> reduce_and_sort cf <> [].
Proof.
  intros Hne Hnil. apply Hne.
  pose proof (reduce_and_sort_fst cf) as Hp. rewrite Hnil in Hp. simpl in Hp.
  apply Permutation_nil in Hp. now destruct cf.
Qed.

(** ** [getChemicalFormula] *)

Section ChemicalFormula.
Context `{Externals}.

Lemma monoatomic_Z_valid (info : Info) (z : N) :
  monoatomic_Z info = Some z -> validNCrystalZValue z = true.
Proof.
  unfold monoatomic_Z. destruct (composition info) as [[|ef [|? ?]]|]; try discriminate.
  destruct (validNCrystalZValue (unsigned_of_G4int (nist_GetZ ef.1))) eqn:Hv; [|discriminate].
  now intros [= <-].
Qed.

(** Without the monoatomic special case the function is the loop, the
    reduction and the sanity check. *)
Lemma getChemicalFormula_atoms (info : Info) (atoms : list AtomInfo) :
  monoatomic_Z info = None -> atomInfo info = Some atoms ->
  getChemicalFormula info =
    match collect_atoms atoms [] with
    | Throw e => Throw e
    | Ok [] =>
      NCRYSTAL_THROW BadInput "Atomic composition info indicates an empty unit cell."
    | Ok cf =>
      if has_adjacent_duplicate (reduce_and_sort cf) then
        NCRYSTAL_THROW BadInput
          "Atomic composition info has duplicate entries for same atomic number."
      else Ok (reduce_and_sort cf)
    end.
Proof. intros Hm Ha. unfold getChemicalFormula. now rewrite Hm, Ha. Qed.

Lemma getChemicalFormula_valid_atoms (info : Info) (atoms : list AtomInfo) :
  monoatomic_Z info = None -> atomInfo info = Some atoms ->
  List.Forall valid_atom atoms ->
  getChemicalFormula info =
    match map atom_entry (counted_atoms atoms) with
    | [] =>
      NCRYSTAL_THROW BadInput "Atomic composition info indicates an empty unit cell."
    | cf =>
      if has_adjacent_duplicate (reduce_and_sort cf) then
        NCRYSTAL_THROW BadInput
          "Atomic composition info has duplicate entries for same atomic number."
      else Ok (reduce_and_sort cf)
    end.
Proof.
  intros Hm Ha Hv. rewrite (getChemicalFormula_atoms info atoms Hm Ha).
  rewrite (collect_atoms_valid atoms [] Hv). simpl.
  now destruct (map atom_entry (counted_atoms atoms)).
Qed.

Lemma reduce_and_sort_valid (cf : ChemicalFormula) :
  List.Forall (fun e : N * N => validNCrystalZValue e.1 = true) cf ->
  List.Forall (fun e : N * N => validNCrystalZValue e.1 = true) (reduce_and_sort cf).
Proof.
  intros Hv. rewrite List.Forall_forall in *. intros e He.
  assert (Hin : In e.1 (map fst cf)).
  { eapply Permutation_in; [apply reduce_and_sort_fst|]. now apply in_map. }
  apply in_map_iff in Hin as [e' [<- Hin]]. now apply Hv.
Qed.

Lemma map_fst_atom_entry (atoms : list AtomInfo) :
  map fst (map atom_entry atoms) = map atomic_number atoms.
Proof. now rewrite map_map. Qed.

Lemma has_adjacent_duplicate_reduce (cf : ChemicalFormula) :
  has_adjacent_duplicate (reduce_and_sort cf) = false <-> List.NoDup (map fst cf).
Proof.
  split.
  - intros Hdup.
    apply (Permutation_NoDup (reduce_and_sort_fst cf)).
    apply strictly_increasing_NoDup, sorted_no_duplicate_strict; [|assumption].
    apply reduce_and_sort_sorted.
  - intros Hnd. apply has_adjacent_duplicate_NoDup.
    apply (Permutation_NoDup (Permutation_sym (reduce_and_sort_fst cf))). assumption.
Qed.

(** What a returned formula looks like, whichever way it was made. *)
Lemma getChemicalFormula_Ok (info : Info) (atoms : list AtomInfo) (cf : ChemicalFormula) :
  atomInfo info = Some atoms ->
  getChemicalFormula info = Ok cf ->
  cf <> [] /\ reduced cf /\ strictly_increasing cf /\
  List.Forall (fun e : N * N => validNCrystalZValue e.1 = true) cf.
Proof.
  intros Ha Hcf. destruct (monoatomic_Z info) as [z|] eqn:Hm.
  - unfold getChemicalFormula in Hcf. rewrite Hm in Hcf. injection Hcf as <-.
    split; [discriminate|]. split; [reflexivity|].
    split; [repeat constructor|]. repeat constructor. simpl.
    now apply monoatomic_Z_valid with info.
  - rewrite (getChemicalFormula_atoms info atoms Hm Ha) in Hcf.
    destruct (collect_atoms atoms []) as [cf0|e] eqn:Hc; [|discriminate].
    apply collect_atoms_entries in Hc as [Hv Hcf0]. simpl in Hcf0.
    destruct cf0 as [|e0 cf0]; [discriminate|].
    destruct (has_adjacent_duplicate (reduce_and_sort (e0 :: cf0))) eqn:Hdup; [discriminate|].
    injection Hcf as <-.
    assert (Hnz : List.Forall (fun e : N * N => e.2 <> 0) (e0 :: cf0))
      by (rewrite Hcf0; apply counted_atoms_nonzero).
    split; [now apply reduce_and_sort_nonempty|].
    split; [now apply reduce_and_sort_reduced|].
    split; [apply sorted_no_duplicate_strict; [apply reduce_and_sort_sorted|assumption]|].
    apply reduce_and_sort_valid. rewrite Hcf0.
    rewrite List.Forall_forall. intros e He.
    apply in_map_iff in He as [a [<- Hin]]. apply filter_In in Hin as [Hin _].
    rewrite List.Forall_forall in Hv. now apply Hv.
Qed.

Lemma getChemicalFormula_Throw (info : Info) (e : Exception) :
  getChemicalFormula info = Throw e -> is_BadInput e.
Proof.
  unfold getChemicalFormula. destruct (monoatomic_Z info); [discriminate|].
  destruct (atomInfo info) as [atoms|]; [|discriminate].
  destruct (collect_atoms atoms []) as [[|e0 cf0]|e'] eqn:Hc.
  - intros [= <-]. reflexivity.
  - destruct (has_adjacent_duplicate _); [|discriminate]. intros [= <-]. reflexivity.
  - intros [= <-]. now apply collect_atoms_throws in Hc.
Qed.

(** C9, as amended. A material with atom info gets either a BadInput error
    or a formula that is not empty, reduced to lowest terms (the gcd of its
    counts, computed by Euclid's algorithm with gcd(a,0) = a, is 1), sorted
    strictly increasing by atomic number and made of valid atomic numbers.
    A material whose composition is a single element with a valid atomic
    number gets that element with count 1, and its atom info is not looked
    at. For every other material BadInput is raised when an atomic number is
    invalid, when no atom has a nonzero count (empty unit cell), and when
    two atoms with nonzero counts have the same atomic number; otherwise
    the formula is returned. *)
Theorem getChemicalFormula_reduced_sorted (info : Info) (atoms : list AtomInfo) :
  atomInfo info = Some atoms ->
  (forall a, greatestCommonDivisor a 0 = a) /\
  (forall z, monoatomic_Z info = Some z -> getChemicalFormula info = Ok [(z, 1)]) /\
  (monoatomic_Z info = None ->
     (List.Exists (fun a => ~ valid_atom a) atoms ->
        exists e, getChemicalFormula info = Throw e /\ is_BadInput e) /\
     (List.Forall valid_atom atoms -> counted_atoms atoms = [] ->
        exists e, getChemicalFormula info = Throw e /\ is_BadInput e) /\
     (List.Forall valid_atom atoms ->
      ~ List.NoDup (map atomic_number (counted_atoms atoms)) ->
        exists e, getChemicalFormula info = Throw e /\ is_BadInput e) /\
     (List.Forall valid_atom atoms -> counted_atoms atoms <> [] ->
      List.NoDup (map atomic_number (counted_atoms atoms)) ->
        exists cf, getChemicalFormula info = Ok cf /\
                   Permutation (map fst cf) (map atomic_number (counted_atoms atoms)))) /\
  (forall cf, getChemicalFormula info = Ok cf ->
     cf <> [] /\ reduced cf /\ strictly_increasing cf /\
     List.Forall (fun e : N * N => validNCrystalZValue e.1 = true) cf) /\
  (forall e, getChemicalFormula info = Throw e -> is_BadInput e).
Proof.
  intros Ha. split; [apply greatestCommonDivisor_0_r|].
  split; [|split; [|split]].
  - intros z Hz. unfold getChemicalFormula. now rewrite Hz.
  - intros Hm. repeat split.
    + intros Hex. rewrite (getChemicalFormula_atoms info atoms Hm Ha).
      destruct (collect_atoms_invalid atoms [] Hex) as [e [-> He]]. eauto.
    + intros Hv Hnil. rewrite (getChemicalFormula_valid_atoms info atoms Hm Ha Hv), Hnil.
      eexists. split; reflexivity.
    + intros Hv Hdup. rewrite (getChemicalFormula_valid_atoms info atoms Hm Ha Hv).
      destruct (map atom_entry (counted_atoms atoms)) as [|e0 cf0] eqn:Hcf.
      * destruct (counted_atoms atoms); [|discriminate]. exfalso. apply Hdup. constructor.
      * cbv beta iota zeta.
        destruct (has_adjacent_duplicate (reduce_and_sort (e0 :: cf0))) eqn:Hd.
        -- eexists. split; reflexivity.
        -- exfalso. apply Hdup. apply has_adjacent_duplicate_reduce in Hd.
           now rewrite <- Hcf, map_fst_atom_entry in Hd.
    + intros Hv Hne Hnd. rewrite (getChemicalFormula_valid_atoms info atoms Hm Ha Hv).
      destruct (map atom_entry (counted_atoms atoms)) as [|e0 cf0] eqn:Hcf.
      * destruct (counted_atoms atoms); [congruence|discriminate].
      * cbv beta iota zeta. rewrite <- map_fst_atom_entry, Hcf in Hnd.
        apply has_adjacent_duplicate_reduce in Hnd. rewrite Hnd.
        eexists. split; [reflexivity|].
        rewrite <- map_fst_atom_entry, Hcf. apply reduce_and_sort_fst.
  - intros cf. now apply (getChemicalFormula_Ok info atoms).
  - apply getChemicalFormula_Throw.
Qed.

End ChemicalFormula.

(** ** The order of strings *)








Lemma StronglySorted_weaken {A} (R R' : A -> A -> Prop) (l : list A) :
  (forall x y, In x l -> In y l -> R x y -> R' x y) ->
  StronglySorted R l -> StronglySorted R' l.
Proof.
  intros Himp Hs. induction Hs as [|x l Hs IH Hall]; constructor.
  - apply IH. intros a b Ha Hb. apply Himp; now right.
  - rewrite List.Forall_forall in *. intros y Hy.
    apply Himp; [now left|now right|now apply Hall].
Qed.

Lemma string_append_empty_r (s : string) : s +:+ "" = s.
Proof.
  induction s as [|c s IH]; [reflexivity|].
  change (String c (s +:+ "") = String c s). now rewrite IH.
Qed.

(** ** The Hill system *)

Section HillOrder.
Context `{Externals}.





End HillOrder.

(** ** Plugin names *)

Module CMakeFacts.
Import CMake.

Lemma standard_plugin_names_NoDup (BUILD_EXTRA : bool) :
  NoDup (standard_plugin_names BUILD_EXTRA).
Proof. destruct BUILD_EXTRA; apply (bool_decide_unpack _); vm_compute; exact I. Qed.

Lemma add_plugin_Configured (names names' : PluginNames) (e : PluginEntry) :
  add_plugin names e = Configured names' ->
  all_plugin_names_lc names' = all_plugin_names_lc names ++ [registered_name e] /\
  NCrystal_builtin_plugin_names names'
  = NCrystal_builtin_plugin_names names ++ [plugin_name e] /\
  registered_name e ∉ all_plugin_names_lc names.
Proof.
  unfold add_plugin, registered_name, plugin_name.
  destruct (negb (pluginentry_islocal e) && _); [discriminate|].
  destruct (pluginentry_islocal e && negb (is_absolute e)); [discriminate|].
  destruct (negb (has_ncplugin_name_txt e) || negb (has_CMakeLists_txt e)); [discriminate|].
  destruct (bool_decide_reflect
              (TOLOWER (STRIP (name_line e)) ∈ all_plugin_names_lc names)) as [Hin|Hnotin];
    [discriminate|].
  destruct (negb (provides_srcfiles e) || is_false_constant (STRIP (name_line e)));
    [discriminate|].
  destruct (bad_datafile e); [discriminate|].
  intros [= <-]. simpl. auto.
Qed.

(** A name that is already in the list is a fatal error, and the error is
    the one about plugin names when the sources are where they should be. *)
Lemma add_plugin_duplicate (names : PluginNames) (e : PluginEntry) :
  registered_name e ∈ all_plugin_names_lc names ->
  (exists msg, add_plugin names e = FATAL_ERROR msg) /\
  (sources_found e ->
   exists msg, add_plugin names e = FATAL_ERROR msg /\ is_duplicate_name_error msg).
Proof.
  intros Hin. split.
  - destruct (add_plugin names e) as [names'|msg] eqn:Hadd; [|eauto].
    apply add_plugin_Configured in Hadd as (_ & _ & Hnotin). contradiction.
  - intros (Hlocal & Hremote & Hname & Hcmake). unfold add_plugin.
    rewrite Hname, Hcmake.
    destruct (pluginentry_islocal e) eqn:Hl.
    + rewrite (Hlocal eq_refl). cbn [negb andb orb].
      fold (plugin_name e). fold (registered_name e).
      rewrite (bool_decide_eq_true_2 _ Hin).
      eexists. split; [reflexivity|]. eexists. reflexivity.
    + assert (Hn : ((nparts e =? 1)%nat || (nparts e =? 2)%nat) = true).
      { destruct (Hremote eq_refl) as [-> | ->]; reflexivity. }
      rewrite Hn. cbn [negb andb orb].
      fold (plugin_name e). fold (registered_name e).
      rewrite (bool_decide_eq_true_2 _ Hin).
      eexists. split; [reflexivity|]. eexists. reflexivity.
Qed.

Lemma add_plugins_Configured (entries : list PluginEntry) (names names' : PluginNames) :
  add_plugins names entries = Configured names' ->
  all_plugin_names_lc names'
  = all_plugin_names_lc names ++ map registered_name entries /\
  NCrystal_builtin_plugin_names names'
  = NCrystal_builtin_plugin_names names ++ map plugin_name entries /\
  (NoDup (all_plugin_names_lc names) -> NoDup (all_plugin_names_lc names')).
Proof.
  revert names. induction entries as [|e entries IH]; intros names; simpl.
  - intros [= <-]. rewrite !app_nil_r. auto.
  - destruct (add_plugin names e) as [names1|msg] eqn:Hadd; [|discriminate].
    apply add_plugin_Configured in Hadd as (Hlc & Hbuiltin & Hnotin).
    intros Hrest. apply IH in Hrest as (Hlc' & Hbuiltin' & Hnd).
    rewrite Hlc', Hbuiltin', Hlc, Hbuiltin.
    split; [now rewrite <- app_assoc|]. split; [now rewrite <- app_assoc|].
    intros Hnames. rewrite <- Hlc, <- Hlc'. apply Hnd.
    rewrite Hlc. apply NoDup_app. split; [assumption|].
    split; [|apply NoDup_singleton].
    intros x Hx Hx'. apply list_elem_of_singleton in Hx'. now subst x.
Qed.

Lemma add_plugins_app (before after : list PluginEntry) (names : PluginNames) :
  add_plugins names (before ++ after) =
  match add_plugins names before with
  | Configured names' => add_plugins names' after
  | FATAL_ERROR msg => FATAL_ERROR msg
  end.
Proof.
  revert names. induction before as [|e before IH]; intros names; simpl; [reflexivity|].
  destruct (add_plugin names e); [apply IH|reflexivity].
Qed.


(** A plugin named like a standard plugin, whatever the case of the
    letters, stops the configuration. *)
Lemma standard_name_rejected (BUILD_EXTRA : bool) (before after : list PluginEntry)
    (e : PluginEntry) :
  registered_name e ∈ standard_plugin_names BUILD_EXTRA ->
  exists msg, configure_plugins BUILD_EXTRA (before ++ e :: after) = FATAL_ERROR msg.
Proof.
  intros Hin. unfold configure_plugins. rewrite add_plugins_app.
  destruct (add_plugins _ before) as [names1|msg] eqn:Hb; [|eauto].
  apply add_plugins_Configured in Hb as (Hlc & _ & _).
    cbn [all_plugin_names_lc] in Hlc.
  cbn [add_plugins].
  assert (Hin' : registered_name e ∈ all_plugin_names_lc names1).
  { rewrite Hlc. apply elem_of_app. now left. }
  destruct (add_plugin_duplicate _ e Hin') as [[msg Hmsg] _]. rewrite Hmsg. eauto.
Qed.

End CMakeFacts.

(** ** The helper, step by step *)

Section HelperEquations.
Context `{Externals}.

Lemma alter_last {A} (f : A -> A) (l : list A) (x : A) :
  alter f (length l) (l ++ [x]) = l ++ [f x].
Proof. rewrite <- (Nat.add_0_r (length l)). now rewrite alter_app_r. Qed.

Lemma cache_lookup_eq (c : gmap string nat) (key : string) (w : World) :
  cache_lookup c key w =
    match c !! key with
    | Some idx =>
      match materialTable w !! idx with
      | Some (Some _) => (Ok (Some idx), w)
      | Some None => (Ok None, w)
      | None => (Throw StdOutOfRange, w)
      end
    | None => (Ok None, w)
    end.
Proof.
  unfold cache_lookup. destruct (c !! key) as [idx|]; [|reflexivity].
  unfold bind, materialTable_at, get_world, bind.
  destruct (materialTable w !! idx) as [[m|]|]; reflexivity.
Qed.

(** A loop of member-function calls on one material changes that material
    only. *)
Lemma for_each_update {A} (l : list A) (g : A -> G4Material -> G4Material)
    (mat : nat) (w : World) :
  for_each l (fun x => update_material mat (g x)) w =
    (Ok tt, change_material mat (apply_all g l) w).
Proof.
  revert w. induction l as [|x l IH]; intros w.
  - unfold for_each, ret, change_material, set_materialTable. f_equal.
    rewrite list_alter_id; [now destruct w|]. now intros [m|].
  - cbn [for_each]. unfold bind at 1. unfold update_material at 1, modify. rewrite IH.
    f_equal. unfold change_material, set_materialTable; simpl. f_equal.
    rewrite list_alter_alter_eq. apply list_alter_ext; [|reflexivity].
    now intros [m|] _.
Qed.

Lemma apply_all_add_element {A} (el : A -> G4Element) (am : A -> ElementAmount)
    (l : list A) (m : G4Material) :
  apply_all (fun x => add_element (el x) (am x)) l m =
    {| mat_name := mat_name m; mat_density := mat_density m;
       mat_origin := mat_origin m; mat_state := mat_state m;
       mat_temp := mat_temp m; mat_pressure := mat_pressure m;
       mat_elements := mat_elements m ++ map (fun x => (el x, am x)) l;
       mat_chemicalFormula := mat_chemicalFormula m |}.
Proof.
  unfold apply_all. revert m. induction l as [|x l IH]; intros m; simpl.
  - rewrite app_nil_r. now destruct m.
  - rewrite IH. unfold add_element; simpl. now rewrite <- app_assoc.
Qed.

Lemma add_formula_elements_eq (mat : nat) (chemform : ChemicalFormula) (w : World) :
  add_formula_elements mat chemform w =
    (Ok tt, change_material mat
       (apply_all (fun e => add_element (formula_element e).1 (formula_element e).2)
                  chemform) w).
Proof. unfold add_formula_elements, AddElement. apply for_each_update. Qed.

Lemma add_fraction_elements_eq (mat : nat) (comp : list (string * float)) (w : World) :
  add_fraction_elements mat comp w =
    (Ok tt, change_material mat
       (apply_all (fun e : float * G4Element =>
          add_element e.2 (MassFraction (e.1 / total_mass (mass_contributions comp))))
          (mass_contributions comp)) w).
Proof. unfold add_fraction_elements, AddElement. apply for_each_update. Qed.

(** Lines 223-277 in one step: the new base material is in the table and
    in the cache. *)
Lemma build_base_material_eq (info : Info) (chemform : ChemicalFormula)
    (chemform_str : string) (w : World) :
  build_base_material info chemform chemform_str w
  = (Ok (length (materialTable w)), with_base_material info chemform chemform_str w).
Proof.
  unfold build_base_material, new_G4Material, get_world, log, modify.
  unfold bind at 1. unfold bind at 1. unfold bind at 1. unfold bind at 1.
  cbn [ret]. unfold bind at 1.
  destruct w as [t bc c sp cl].
  destruct chemform as [|e0 chemform].
  - cbn [is_nil negb]. rewrite add_fraction_elements_eq.
    unfold bind, ret, modify, with_base_material, change_material, push_material,
      log_call, set_materialTable, set_base_cache, set_calls; simpl.
    f_equal. f_equal. rewrite alter_last. do 2 f_equal. simpl.
    rewrite apply_all_add_element. reflexivity.
  - cbn [is_nil negb]. rewrite add_formula_elements_eq.
    unfold bind at 1. unfold SetChemicalFormula, update_material, modify.
    unfold bind, ret, with_base_material, change_material, push_material,
      log_call, set_materialTable, set_base_cache, set_calls; simpl.
    f_equal. f_equal. rewrite !alter_last. do 2 f_equal. simpl.
    rewrite apply_all_add_element. reflexivity.
Qed.

Lemma getBaseG4MaterialWithCache_eq (info : Info) (w : World) :
  getBaseG4MaterialWithCache info w =
    match base_chemform info with
    | Throw e => (Throw e, w)
    | Ok (chemform, chemform_str) =>
      match cache_lookup (base_cache w) chemform_str w with
      | (Ok (Some cachedmat), _) => (Ok cachedmat, w)
      | (Ok None, _) =>
        (Ok (length (materialTable w)), with_base_material info chemform chemform_str w)
      | (Throw e, _) => (Throw e, w)
      end
    end.
Proof.
  unfold getBaseG4MaterialWithCache. unfold bind at 1, lift.
  destruct (base_chemform info) as [[chemform chemform_str]|e]; [|reflexivity].
  unfold bind at 1, get_world. unfold bind at 1.
  rewrite cache_lookup_eq.
  destruct (base_cache w !! chemform_str) as [idx|].
  - destruct (materialTable w !! idx) as [[m|]|]; try reflexivity.
    apply build_base_material_eq.
  - apply build_base_material_eq.
Qed.


Lemma build_material_eq (cfg : MatCfg) (w : World) :
  build_material cfg w =
    match libClashDetect with
    | Some e => (Throw (NCrystalError e), w)
    | None =>
      let w1 := log_call (EvCreateScatter cfg) w in
      match createScatter cfg with
      | inl e => (Throw (NCrystalError e), w1)
      | inr scatter =>
        let w2 := log_call (EvCreateInfo cfg) w1 in
        match createInfo cfg with
        | inl e => (Throw (NCrystalError e), w2)
        | inr info =>
          if hasDensity info then
            match getBaseG4MaterialWithCache info w2 with
            | (Ok matBase, w3) =>
              (Ok (length (materialTable w3)),
               with_derived_material cfg info scatter matBase w3)
            | (Throw e, w3) => (Throw e, w3)
            end
          else
            (NCRYSTAL_THROW MissingInfo
               "Selected crystal info source lacks info about material density.", w2)
        end
      end
    end.
Proof.
  unfold build_material, call_libClashDetect, call_createScatter, call_createInfo.
  destruct libClashDetect as [e|]; [reflexivity|].
  unfold bind at 1. cbn [ret]. unfold bind at 1. unfold bind at 1.
  unfold log at 1, modify at 1. cbn zeta.
  destruct (createScatter cfg) as [e|scatter]; [reflexivity|].
  cbn [lift_nc ret]. unfold bind at 1. unfold bind at 1.
  unfold log at 1, modify at 1.
  destruct (createInfo cfg) as [e|info]; [reflexivity|].
  cbn [lift_nc ret]. unfold bind at 1.
  destruct (hasDensity info); cbn [negb]; [|reflexivity].
  cbn [ret]. unfold bind at 1.
  destruct (getBaseG4MaterialWithCache info _) as [[matBase|e] w3]; [|reflexivity].
  unfold bind, new_G4Material, get_world, modify, log, addScatterProperty, ret,
    with_derived_material, push_material, log_call, set_materialTable, set_cache,
    set_calls, set_scatterProperties, bind; simpl.
  reflexivity.
Qed.

Lemma getG4MaterialWithCache_eq (cfg : MatCfg) (w : World) :
  getG4MaterialWithCache cfg w =
    match cache_lookup (cache w) (toStrCfg cfg) w with
    | (Ok (Some cachedmat), _) => (Ok cachedmat, w)
    | (Ok None, _) => build_material cfg w
    | (Throw e, _) => (Throw e, w)
    end.
Proof.
  unfold getG4MaterialWithCache. cbn zeta. unfold bind at 1, get_world.
  unfold bind at 1. rewrite cache_lookup_eq.
  destruct (cache w !! toStrCfg cfg) as [idx|]; [|reflexivity].
  destruct (materialTable w !! idx) as [[m|]|]; reflexivity.
Qed.

End HelperEquations.

(** ** One request, case by case *)

Section OneRequest.
Context `{Externals}.

Lemma cache_lookup_set_calls (c : gmap string nat) (key : string) (w : World)
    (l : list Event) :
  cache_lookup c key (set_calls l w) =
    (fst (cache_lookup c key w), set_calls l w).
Proof.
  rewrite !cache_lookup_eq. simpl.
  destruct (c !! key) as [idx|]; [|reflexivity].
  destruct (materialTable w !! idx) as [[m|]|]; reflexivity.
Qed.

Lemma cache_lookup_world (c : gmap string nat) (key : string) (w : World) :
  snd (cache_lookup c key w) = w.
Proof.
  rewrite cache_lookup_eq. destruct (c !! key) as [idx|]; [|reflexivity].
  destruct (materialTable w !! idx) as [[m|]|]; reflexivity.
Qed.

(** The build: what the factories say, then the base cache. *)
Lemma build_material_attempt (cfg : MatCfg) (w : World) :
  build_material cfg w =
    match build_attempt cfg with
    | inl (e, evs) => (Throw e, set_calls (calls w ++ evs) w)
    | inr (scatter, info, chemform, chemform_str) =>
      let w2 := set_calls (calls w ++ [EvCreateScatter cfg; EvCreateInfo cfg]) w in
      match fst (cache_lookup (base_cache w) chemform_str w) with
      | Ok (Some matBase) =>
        (Ok (length (materialTable w)), with_derived_material cfg info scatter matBase w2)
      | Ok None =>
        (Ok (S (length (materialTable w))),
         with_derived_material cfg info scatter (length (materialTable w))
           (with_base_material info chemform chemform_str w2))
      | Throw e => (Throw e, w2)
      end
    end.
Proof.
  rewrite build_material_eq. unfold build_attempt.
  destruct libClashDetect as [e|].
  { f_equal. destruct w; unfold set_calls; simpl. now rewrite app_nil_r. }
  cbn zeta.
  assert (Hlog2 : log_call (EvCreateInfo cfg) (log_call (EvCreateScatter cfg) w)
                  = set_calls (calls w ++ [EvCreateScatter cfg; EvCreateInfo cfg]) w).
  { unfold log_call, set_calls; simpl. now rewrite <- app_assoc. }
  destruct (createScatter cfg) as [e|scatter]; [reflexivity|].
  rewrite Hlog2.
  destruct (createInfo cfg) as [e|info]; [reflexivity|].
  destruct (hasDensity info); [|reflexivity].
  rewrite getBaseG4MaterialWithCache_eq.
  destruct (base_chemform info) as [[chemform chemform_str]|e]; [|reflexivity].
  change (base_cache (set_calls (calls w ++ [EvCreateScatter cfg; EvCreateInfo cfg]) w))
    with (base_cache w).
  rewrite cache_lookup_set_calls.
  destruct (cache_lookup (base_cache w) chemform_str w) as [[[matBase|]|e] w0]; simpl;
    try reflexivity.
  f_equal. f_equal. now rewrite length_app, Nat.add_comm.
Qed.

End OneRequest.

(** ** Names and counts *)

Section Counts.
Context `{Externals}.

Lemma derived_name_inj (a b : string) :
  matnameprefix +:+ a = matnameprefix +:+ b -> a = b.
Proof. apply String.app_inj. Qed.

Lemma base_name_inj (a b : string) :
  base_matnameprefix +:+ a = base_matnameprefix +:+ b -> a = b.
Proof. apply String.app_inj. Qed.

Lemma base_name_not_derived (a b : string) :
  base_matnameprefix +:+ a <> matnameprefix +:+ b.
Proof. discriminate. Qed.

Lemma count_events_app (f : Event -> bool) (l1 l2 : list Event) :
  count_events f (l1 ++ l2) = (count_events f l1 + count_events f l2)%nat.
Proof. unfold count_events. now rewrite filter_app, length_app. Qed.

Lemma count_events_nil (f : Event -> bool) : count_events f [] = 0%nat.
Proof. reflexivity. Qed.

Lemma count_events_cons (f : Event -> bool) (e : Event) (l : list Event) :
  count_events f (e :: l) = ((if f e then 1 else 0) + count_events f l)%nat.
Proof.
  unfold count_events. destruct (f e) eqn:Hf.
  - now rewrite filter_cons_True.
  - rewrite filter_cons_False; [reflexivity|]. congruence.
Qed.

Lemma is_new_derived_derived (key key' : string) (i : nat) :
  is_new_material (matnameprefix +:+ key) (EvNewG4Material i (matnameprefix +:+ key'))
  = bool_decide (key' = key).
Proof.
  unfold is_new_material.
  destruct (String.eqb_spec (matnameprefix +:+ key') (matnameprefix +:+ key)) as [He|He].
  - apply derived_name_inj in He. now rewrite bool_decide_eq_true_2.
  - rewrite bool_decide_eq_false_2; [reflexivity|]. congruence.
Qed.

Lemma is_new_base_base (key key' : string) (i : nat) :
  is_new_material (base_matnameprefix +:+ key)
    (EvNewG4Material i (base_matnameprefix +:+ key'))
  = bool_decide (key' = key).
Proof.
  unfold is_new_material.
  destruct (String.eqb_spec (base_matnameprefix +:+ key') (base_matnameprefix +:+ key))
    as [He|He].
  - apply base_name_inj in He. now rewrite bool_decide_eq_true_2.
  - rewrite bool_decide_eq_false_2; [reflexivity|]. congruence.
Qed.

Lemma is_new_derived_base (key key' : string) (i : nat) :
  is_new_material (matnameprefix +:+ key)
    (EvNewG4Material i (base_matnameprefix +:+ key')) = false.
Proof. unfold is_new_material. apply String.eqb_neq. apply base_name_not_derived. Qed.

Lemma is_new_base_derived (key key' : string) (i : nat) :
  is_new_material (base_matnameprefix +:+ key)
    (EvNewG4Material i (matnameprefix +:+ key')) = false.
Proof.
  unfold is_new_material. apply String.eqb_neq. intros He. symmetry in He.
  now apply base_name_not_derived in He.
Qed.

End Counts.

(** ** What a request leaves behind *)

Section Extends.
Context `{Externals}.

Lemma caches_live_initial (table : list (option G4Material)) :
  caches_live (initial_world table).
Proof. split; intros key i Hk; simpl in Hk; now rewrite lookup_empty in Hk. Qed.

Lemma builds_once_none (c : gmap string nat) : builds_once c c (fun _ => 0%nat).
Proof. intros key. repeat split; [lia|discriminate]. Qed.

Lemma extends_refl (w : World) : extends w w [].
Proof.
  split; auto.
  - exists []. now rewrite app_nil_r.
  - now rewrite app_nil_r.
  - apply builds_once_none.
  - apply builds_once_none.
Qed.

Lemma builds_once_trans (c1 c2 c3 : gmap string nat) (b1 b2 : string -> nat) :
  (forall key i, c1 !! key = Some i -> c2 !! key = Some i) ->
  (forall key i, c2 !! key = Some i -> c3 !! key = Some i) ->
  builds_once c1 c2 b1 -> builds_once c2 c3 b2 ->
  builds_once c1 c3 (fun key => (b1 key + b2 key)%nat).
Proof.
  intros H12 H23 B1 B2 key.
  destruct (B1 key) as (Hle1 & Hin1 & Hout1), (B2 key) as (Hle2 & Hin2 & Hout2).
  assert (Hkeep : c2 !! key <> None -> c3 !! key <> None).
  { destruct (c2 !! key) as [i|] eqn:Hc; [|congruence]. intros _.
    now rewrite (H23 _ _ Hc). }
  assert (Hkeep1 : c1 !! key <> None -> c2 !! key <> None).
  { destruct (c1 !! key) as [i|] eqn:Hc; [|congruence]. intros _.
    now rewrite (H12 _ _ Hc). }
  repeat split.
  - destruct (Nat.eq_dec (b1 key) 1%nat) as [E1|E1]; [|lia].
    rewrite Hin2; [lia|]. auto.
  - intros Hc1. rewrite Hin1, Hin2; auto.
  - intros Hsum. destruct (Nat.eq_dec (b1 key) 1%nat) as [E1|E1]; [auto|].
    apply Hout2. lia.
Qed.

Lemma extends_trans (w1 w2 w3 : World) (evs1 evs2 : list Event) :
  extends w1 w2 evs1 -> extends w2 w3 evs2 -> extends w1 w3 (evs1 ++ evs2).
Proof.
  intros E1 E2.
  destruct (ext_table _ _ _ E1) as [new1 Ht1], (ext_table _ _ _ E2) as [new2 Ht2].
  split.
  - exists (new1 ++ new2). now rewrite Ht2, Ht1, app_assoc.
  - intros key i Hc. eapply ext_cache; [exact E2|]. eapply ext_cache; eassumption.
  - intros key i Hc. eapply ext_base; [exact E2|]. eapply ext_base; eassumption.
  - intros key i Hc. destruct (ext_fresh_cache _ _ _ E2 _ _ Hc) as [Hc2|Hlen].
    + apply (ext_fresh_cache _ _ _ E1 _ _ Hc2).
    + right. rewrite Ht1, length_app in Hlen. lia.
  - intros key i Hc. destruct (ext_fresh_base _ _ _ E2 _ _ Hc) as [Hc2|Hlen].
    + apply (ext_fresh_base _ _ _ E1 _ _ Hc2).
    + right. rewrite Ht1, length_app in Hlen. lia.
  - now rewrite (ext_calls _ _ _ E2), (ext_calls _ _ _ E1), app_assoc.
  - pose proof (builds_once_trans _ _ _ _ _ (ext_cache _ _ _ E1) (ext_cache _ _ _ E2)
                  (ext_derived _ _ _ E1) (ext_derived _ _ _ E2)) as Hb.
    intros key. unfold derived_builds. rewrite count_events_app. apply Hb.
  - pose proof (builds_once_trans _ _ _ _ _ (ext_base _ _ _ E1) (ext_base _ _ _ E2)
                  (ext_basebuilds _ _ _ E1) (ext_basebuilds _ _ _ E2)) as Hb.
    intros key. unfold base_builds. rewrite count_events_app. apply Hb.
  - intros key Hc. rewrite count_events_app.
    rewrite (ext_factory _ _ _ E1 key Hc).
    rewrite (ext_factory _ _ _ E2 key); [reflexivity|].
    destruct (cache w1 !! key) as [i|] eqn:Hk; [|congruence].
    now rewrite (ext_cache _ _ _ E1 _ _ Hk).
Qed.

Lemma extends_lookup (w w' : World) (evs : list Event) (i : nat) (x : option G4Material) :
  extends w w' evs -> materialTable w !! i = Some x -> materialTable w' !! i = Some x.
Proof.
  intros E Hi. destruct (ext_table _ _ _ E) as [new ->].
  now apply lookup_app_l_Some.
Qed.

Lemma extends_live (w w' : World) (evs : list Event) (i : nat) :
  extends w w' evs -> live w i -> live w' i.
Proof. intros E [m Hm]. exists m. eapply extends_lookup; eassumption. Qed.

Lemma cache_lookup_live (c : gmap string nat) (key : string) (w : World) :
  (forall idx, c !! key = Some idx -> live w idx) ->
  fst (cache_lookup c key w) = Ok (c !! key).
Proof.
  intros Hlive. rewrite cache_lookup_eq.
  destruct (c !! key) as [idx|]; [|reflexivity].
  destruct (Hlive idx eq_refl) as [m ->]. reflexivity.
Qed.

End Extends.

Section Serving.
Context `{Externals}.

(** A request in a process where nothing cached has been deleted. *)
Lemma getG4MaterialWithCache_live (cfg : MatCfg) (w : World) :
  caches_live w ->
  getG4MaterialWithCache cfg w =
    match cache w !! toStrCfg cfg with
    | Some cachedmat => (Ok cachedmat, w)
    | None =>
      match build_attempt cfg with
      | inl (e, evs) => (Throw e, set_calls (calls w ++ evs) w)
      | inr (scatter, info, chemform, chemform_str) =>
        let w2 := set_calls (calls w ++ [EvCreateScatter cfg; EvCreateInfo cfg]) w in
        match base_cache w !! chemform_str with
        | Some matBase =>
          (Ok (length (materialTable w)),
           with_derived_material cfg info scatter matBase w2)
        | None =>
          (Ok (S (length (materialTable w))),
           with_derived_material cfg info scatter (length (materialTable w))
             (with_base_material info chemform chemform_str w2))
        end
      end
    end.
Proof.
  intros [Hc Hb]. rewrite getG4MaterialWithCache_eq.
  pose proof (cache_lookup_live (cache w) (toStrCfg cfg) w (Hc _)) as Hl.
  destruct (cache_lookup (cache w) (toStrCfg cfg) w) as [r w0]. simpl in Hl. subst r.
  destruct (cache w !! toStrCfg cfg) as [idx|]; [reflexivity|].
  rewrite build_material_attempt.
  destruct (build_attempt cfg) as [[e evs]|[[[scatter info] chemform] chemform_str]];
    [reflexivity|].
  rewrite (cache_lookup_live (base_cache w) chemform_str w (Hb _)).
  now destruct (base_cache w !! chemform_str).
Qed.

Lemma build_attempt_events (cfg : MatCfg) (e : Exception) (evs : list Event) :
  build_attempt cfg = inl (e, evs) ->
  evs = [] \/ evs = [EvCreateScatter cfg] \/ evs = [EvCreateScatter cfg; EvCreateInfo cfg].
Proof.
  unfold build_attempt. destruct libClashDetect; [intros [= <- <-]; auto|].
  destruct (createScatter cfg); [intros [= <- <-]; auto|].
  destruct (createInfo cfg) as [?|info]; [intros [= <- <-]; auto|].
  destruct (hasDensity info); [|intros [= <- <-]; auto].
  destruct (base_chemform info) as [[? ?]|?]; [discriminate|intros [= <- <-]; auto].
Qed.

Lemma factory_calls_other_key (cfg : MatCfg) (key : string) (evs : list Event) :
  toStrCfg cfg <> key ->
  evs = [] \/ evs = [EvCreateScatter cfg] \/ evs = [EvCreateScatter cfg; EvCreateInfo cfg] ->
  count_events (is_factory_call key) evs = 0%nat.
Proof.
  intros Hne Hevs. apply String.eqb_neq in Hne.
  destruct Hevs as [-> | [-> | ->]]; rewrite ?count_events_cons, ?count_events_nil; simpl;
    rewrite ?Hne; reflexivity.
Qed.

Lemma no_material_events (name : string) (cfg : MatCfg) (evs : list Event) :
  evs = [] \/ evs = [EvCreateScatter cfg] \/ evs = [EvCreateScatter cfg; EvCreateInfo cfg] ->
  count_events (is_new_material name) evs = 0%nat.
Proof. intros [-> | [-> | ->]]; reflexivity. Qed.

Lemma live_push (w : World) (i : nat) (new : list (option G4Material)) (w' : World) :
  materialTable w' = materialTable w ++ new -> live w i -> live w' i.
Proof. intros Ht [m Hm]. exists m. rewrite Ht. now apply lookup_app_l_Some. Qed.

Lemma live_last (w' : World) (t : list (option G4Material)) (m : G4Material) :
  materialTable w' = t ++ [Some m] -> live w' (length t).
Proof. intros Ht. exists m. rewrite Ht. apply list_lookup_middle. reflexivity. Qed.

(** One request extends the process. *)
Lemma getG4MaterialWithCache_extends (cfg : MatCfg) (w w' : World) (r : Result nat) :
  caches_live w ->
  getG4MaterialWithCache cfg w = (r, w') ->
  exists evs, extends w w' evs /\ caches_live w'.
Proof.
  intros Hlive. rewrite (getG4MaterialWithCache_live cfg w Hlive).
  destruct Hlive as [Hc Hb].
  destruct (cache w !! toStrCfg cfg) as [idx|] eqn:Hkey.
  { intros [= <- <-]. exists []. split; [apply extends_refl|now split]. }
  destruct (build_attempt cfg) as [[e evs]|[[[scatter info] chemform] chemform_str]] eqn:Hatt.
  { intros [= <- <-]. exists evs.
    pose proof (build_attempt_events cfg e evs Hatt) as Hevs.
    split; [|split; assumption].
    split; simpl; auto.
    - exists []. now rewrite app_nil_r.
    - intros key. unfold derived_builds.
      rewrite (no_material_events _ cfg evs Hevs). repeat split; [lia|discriminate].
    - intros key. unfold base_builds.
      rewrite (no_material_events _ cfg evs Hevs). repeat split; [lia|discriminate].
    - intros key Hk. apply (factory_calls_other_key cfg); [|assumption]. congruence. }
  cbn zeta.
  destruct (base_cache w !! chemform_str) as [matBase|] eqn:Hbase.
  - intros [= <- <-].
    exists [EvCreateScatter cfg; EvCreateInfo cfg;
            EvNewG4Material (length (materialTable w)) (matnameprefix +:+ toStrCfg cfg)].
    split; [split; simpl|].
    + now eexists.
    + intros key i Hk. rewrite lookup_insert_ne; [assumption|congruence].
    + auto.
    + intros key i. rewrite lookup_insert. case_decide; [|auto].
      intros [= <-]. right. lia.
    + auto.
    + now rewrite <- app_assoc.
    + intros key. unfold derived_builds.
      rewrite !count_events_cons, count_events_nil, is_new_derived_derived. simpl.
      rewrite lookup_insert. case_bool_decide as Hk; case_decide; try congruence;
        repeat split; try lia; try congruence.
    + intros key. unfold base_builds.
      rewrite !count_events_cons, count_events_nil, is_new_base_derived. simpl.
      repeat split; [lia|discriminate].
    + intros key Hk. rewrite !count_events_cons, count_events_nil. simpl.
      assert (Hne : toStrCfg cfg <> key) by congruence.
      apply String.eqb_neq in Hne. now rewrite Hne.
    + split; simpl.
      * intros key i. rewrite lookup_insert. case_decide.
        -- intros [= <-]. eapply live_last. reflexivity.
        -- intros Hk. eapply live_push; [reflexivity|]. eapply Hc; eassumption.
      * intros key i Hk. eapply live_push; [reflexivity|]. eapply Hb; eassumption.
  - intros [= <- <-].
    exists [EvCreateScatter cfg; EvCreateInfo cfg;
            EvNewG4Material (length (materialTable w)) (base_matnameprefix +:+ chemform_str);
            EvNewG4Material (length (materialTable w ++
                 [Some (built_base_material info chemform chemform_str)]))
              (matnameprefix +:+ toStrCfg cfg)].
    split; [split; simpl|].
    + eexists. now rewrite <- app_assoc.
    + intros key i Hk. rewrite lookup_insert_ne; [assumption|congruence].
    + intros key i Hk. rewrite lookup_insert_ne; [assumption|congruence].
    + intros key i. rewrite lookup_insert. case_decide; [|auto].
      intros [= <-]. right. rewrite length_app. lia.
    + intros key i. rewrite lookup_insert. case_decide; [|auto].
      intros [= <-]. right. lia.
    + now rewrite <- !app_assoc.
    + intros key. unfold derived_builds.
      rewrite !count_events_cons, count_events_nil, is_new_derived_derived,
        is_new_derived_base. simpl.
      rewrite lookup_insert. case_bool_decide as Hk; case_decide; try congruence;
        repeat split; try lia; try congruence.
    + intros key. unfold base_builds.
      rewrite !count_events_cons, count_events_nil, is_new_base_derived,
        is_new_base_base. simpl.
      rewrite lookup_insert. case_bool_decide as Hk; case_decide; try congruence;
        repeat split; try lia; try congruence.
    + intros key Hk. rewrite !count_events_cons, count_events_nil. simpl.
      assert (Hne : toStrCfg cfg <> key) by congruence.
      apply String.eqb_neq in Hne. now rewrite Hne.
    + split; simpl.
      * intros key i. rewrite lookup_insert. case_decide.
        -- intros [= <-]. eapply live_last. reflexivity.
        -- intros Hk. eapply (live_push w); [simpl; now rewrite <- app_assoc|]. eapply Hc; eassumption.
      * intros key i. rewrite lookup_insert. case_decide.
        -- intros [= <-].
           exists (built_base_material info chemform chemform_str). simpl.
           apply lookup_app_l_Some, list_lookup_middle. reflexivity.
        -- intros Hk. eapply (live_push w); [simpl; now rewrite <- app_assoc|]. eapply Hb; eassumption.
Qed.

End Serving.

Section Requests.
Context `{Externals}.

Lemma serve_all_cons (cfg : MatCfg) (cfgs : list MatCfg) (w : World) :
  serve_all (cfg :: cfgs) w =
    ((getG4MaterialWithCache cfg w).1 :: (serve_all cfgs (getG4MaterialWithCache cfg w).2).1,
     (serve_all cfgs (getG4MaterialWithCache cfg w).2).2).
Proof.
  cbn [serve_all]. destruct (getG4MaterialWithCache cfg w) as [r w1]. simpl.
  now destruct (serve_all cfgs w1).
Qed.

Lemma serve_all_extends (cfgs : list MatCfg) (w w' : World) (rs : list (Result nat)) :
  caches_live w -> serve_all cfgs w = (rs, w') ->
  exists evs, extends w w' evs /\ caches_live w'.
Proof.
  revert w rs. induction cfgs as [|cfg cfgs IH]; intros w rs Hlive.
  - intros [= <- <-]. exists []. split; [apply extends_refl|assumption].
  - rewrite serve_all_cons.
    destruct (getG4MaterialWithCache cfg w) as [r w1] eqn:Hstep. simpl.
    destruct (serve_all cfgs w1) as [rs1 w2] eqn:Hrest. simpl. intros [= <- <-].
    destruct (getG4MaterialWithCache_extends cfg w w1 r Hlive Hstep) as (evs1 & E1 & Hl1).
    destruct (IH w1 rs1 Hl1 Hrest) as (evs2 & E2 & Hl2).
    exists (evs1 ++ evs2). split; [eapply extends_trans; eassumption|assumption].
Qed.

(** A request for a key whose entry is ready returns the cached material
    and does nothing else. *)
Lemma getG4MaterialWithCache_hit (cfg : MatCfg) (w : World) (mat : nat) :
  ready (cache w) w (toStrCfg cfg) mat ->
  getG4MaterialWithCache cfg w = (Ok mat, w).
Proof.
  intros [Hc [m Hm]]. rewrite getG4MaterialWithCache_eq, cache_lookup_eq, Hc, Hm.
  reflexivity.
Qed.

Lemma with_derived_material_ready (cfg : MatCfg) (info : Info) (scatter : Scatter)
    (matBase : nat) (w : World) :
  ready (cache (with_derived_material cfg info scatter matBase w))
        (with_derived_material cfg info scatter matBase w)
        (toStrCfg cfg) (length (materialTable w)).
Proof.
  split; simpl; [apply lookup_insert_eq|].
  eexists. apply list_lookup_middle. reflexivity.
Qed.

Lemma build_material_ready (cfg : MatCfg) (w w' : World) (mat : nat) :
  build_material cfg w = (Ok mat, w') ->
  ready (cache w') w' (toStrCfg cfg) mat.
Proof.
  rewrite build_material_attempt.
  destruct (build_attempt cfg) as [[e evs]|[[[scatter info] cf] k]]; [discriminate|].
  cbn zeta. destruct (cache_lookup (base_cache w) k w).1 as [[b|]|e]; [| |discriminate].
  - intros [= <- <-].
    exact (with_derived_material_ready cfg info scatter b
             (set_calls (calls w ++ [EvCreateScatter cfg; EvCreateInfo cfg]) w)).
  - intros [= <- <-].
    replace (S (length (materialTable w))) with
      (length (materialTable (with_base_material info cf k
         (set_calls (calls w ++ [EvCreateScatter cfg; EvCreateInfo cfg]) w))))
      by (simpl; rewrite length_app; simpl; lia).
    apply with_derived_material_ready.
Qed.

(** After a request that returned a material, the entry of its key is
    ready and is that material. *)
Lemma getG4MaterialWithCache_ready (cfg : MatCfg) (w w' : World) (mat : nat) :
  getG4MaterialWithCache cfg w = (Ok mat, w') ->
  ready (cache w') w' (toStrCfg cfg) mat.
Proof.
  rewrite getG4MaterialWithCache_eq, cache_lookup_eq.
  destruct (cache w !! toStrCfg cfg) as [idx|] eqn:Hc.
  - destruct (materialTable w !! idx) as [[m|]|] eqn:Hm.
    + intros [= <- <-]. split; [assumption|now exists m].
    + apply build_material_ready.
    + discriminate.
  - apply build_material_ready.
Qed.

Lemma ready_extends (w w' : World) (evs : list Event) (key : string) (mat : nat) :
  extends w w' evs -> ready (cache w) w key mat -> ready (cache w') w' key mat.
Proof.
  intros E [Hc Hl]. split; [eapply ext_cache; eassumption|eapply extends_live; eassumption].
Qed.

Lemma serve_all_ready (cfgs : list MatCfg) (w w' : World) (rs : list (Result nat))
    (key : string) (mat : nat) :
  caches_live w -> ready (cache w) w key mat -> serve_all cfgs w = (rs, w') ->
  forall i cfg, cfgs !! i = Some cfg -> toStrCfg cfg = key -> rs !! i = Some (Ok mat).
Proof.
  revert w rs. induction cfgs as [|cfg0 cfgs IH]; intros w rs Hlive Hready Hrun i cfg Hi Hkey.
  - discriminate.
  - rewrite serve_all_cons in Hrun.
    destruct (getG4MaterialWithCache cfg0 w) as [r w1] eqn:Hstep. simpl in Hrun.
    destruct (serve_all cfgs w1) as [rs1 w2] eqn:Hrest. simpl in Hrun.
    injection Hrun as <- <-.
    destruct (getG4MaterialWithCache_extends cfg0 w w1 r Hlive Hstep) as (evs1 & E1 & Hl1).
    destruct i as [|i]; simpl in Hi |- *.
    + injection Hi as ->. subst key.
      rewrite (getG4MaterialWithCache_hit cfg w mat Hready) in Hstep. congruence.
    + eapply IH; eauto. eapply ready_extends; eassumption.
Qed.

(** C2, as amended. An entry that is ready stays as it is while nothing is
    deleted: whatever requests follow, the entry still points to the same
    material, every request for its key returns that material, and no
    factory is called and no material is built for the key again. In a
    process that started with empty caches no derived material is built
    twice for a key. A build that failed has left no entry; the factories
    are called again by the next request for the key. *)
Theorem ready_entry_never_rebuilt :
  (forall (w w' : World) (cfgs : list MatCfg) (rs : list (Result nat))
          (key : string) (mat : nat),
     caches_live w -> ready (cache w) w key mat -> serve_all cfgs w = (rs, w') ->
     ready (cache w') w' key mat /\
     materialTable w' !! mat = materialTable w !! mat /\
     (forall i cfg, cfgs !! i = Some cfg -> toStrCfg cfg = key -> rs !! i = Some (Ok mat)) /\
     exists evs, calls w' = calls w ++ evs /\
                 derived_builds key evs = 0%nat /\
                 count_events (is_factory_call key) evs = 0%nat) /\
  (forall (table : list (option G4Material)) (w' : World) (cfgs : list MatCfg)
          (rs : list (Result nat)) (key : string),
     serve_all cfgs (initial_world table) = (rs, w') ->
     (derived_builds key (calls w') <= 1)%nat).
Proof.
  split.
  - intros w w' cfgs rs key mat Hlive Hready Hrun.
    destruct (serve_all_extends cfgs w w' rs Hlive Hrun) as (evs & E & Hl').
    split; [eapply ready_extends; eassumption|].
    split.
    { destruct Hready as [_ [m Hm]]. rewrite Hm. eapply extends_lookup; eassumption. }
    split; [exact (serve_all_ready cfgs w w' rs key mat Hlive Hready Hrun)|].
    exists evs. split; [apply (ext_calls _ _ _ E)|].
    destruct Hready as [Hc _].
    split.
    + apply (ext_derived _ _ _ E key). congruence.
    + apply (ext_factory _ _ _ E key). congruence.
  - intros table w' cfgs rs key Hrun.
    pose proof (caches_live_initial table) as Hlive.
    destruct (serve_all_extends cfgs _ w' rs Hlive Hrun) as (evs & E & _).
    rewrite (ext_calls _ _ _ E). simpl. apply (ext_derived _ _ _ E key).
Qed.

Lemma createMaterial_MatCfg_eq (cfg : MatCfg) (w : World) :
  createMaterial_MatCfg cfg w =
    match getG4MaterialWithCache cfg w with
    | (Ok mat, w') => (Ok (Some mat), w')
    | (Throw (NCrystalError e), w') =>
      (Ok None, log_call (EvHandleError "G4NCrystal::createMaterial" 101 e) w')
    | (Throw StdOutOfRange, w') => (Throw StdOutOfRange, w')
    end.
Proof.
  unfold createMaterial_MatCfg, try_catch, bind.
  destruct (getG4MaterialWithCache cfg w) as [[mat|[e|]] w']; reflexivity.
Qed.

Lemma createMaterial_eq (cfgstr : string) (w : World) :
  createMaterial cfgstr w =
    match MatCfg_parse cfgstr with
    | inl e => (Ok None, log_call (EvHandleError "G4NCrystal::createMaterial" 101 e) w)
    | inr cfg => createMaterial_MatCfg cfg w
    end.
Proof.
  unfold createMaterial. destruct (MatCfg_parse cfgstr) as [e|cfg]; [reflexivity|].
  rewrite createMaterial_MatCfg_eq. unfold try_catch, bind, lift_nc, ret.
  destruct (getG4MaterialWithCache cfg w) as [[mat|[e|]] w']; reflexivity.
Qed.

(** C4. When a request for a configuration has returned a material, a
    request for a configuration with the same canonical key returns the
    same material, and it changes nothing: no factory is called and no
    material is built. *)
Theorem same_key_same_material (w w1 : World) (cfg1 cfg2 : MatCfg) (mat : nat) :
  toStrCfg cfg1 = toStrCfg cfg2 ->
  createMaterial_MatCfg cfg1 w = (Ok (Some mat), w1) ->
  createMaterial_MatCfg cfg2 w1 = (Ok (Some mat), w1) /\
  getG4MaterialWithCache cfg2 w1 = (Ok mat, w1) /\
  live w1 mat /\
  (forall s1 s2 w0, MatCfg_parse s1 = inr cfg1 -> MatCfg_parse s2 = inr cfg2 ->
     createMaterial s1 w0 = createMaterial_MatCfg cfg1 w0 /\
     createMaterial s2 w1 = (Ok (Some mat), w1)).
Proof.
  intros Hkey. rewrite createMaterial_MatCfg_eq.
  destruct (getG4MaterialWithCache cfg1 w) as [[mat'|[e|]] w'] eqn:Hstep; try discriminate.
  intros [= -> ->].
  apply getG4MaterialWithCache_ready in Hstep. rewrite Hkey in Hstep.
  pose proof (getG4MaterialWithCache_hit cfg2 w1 mat Hstep) as Hhit.
  assert (Hc : createMaterial_MatCfg cfg2 w1 = (Ok (Some mat), w1))
    by now rewrite createMaterial_MatCfg_eq, Hhit.
  split; [assumption|]. split; [assumption|]. split; [apply Hstep|].
  intros s1 s2 w0 Hp1 Hp2. rewrite !createMaterial_eq, Hp1, Hp2. auto.
Qed.

End Requests.

Section Failures.
Context `{Externals}.

Lemma set_calls_set_calls (l l' : list Event) (w : World) :
  set_calls l (set_calls l' w) = set_calls l w.
Proof. reflexivity. Qed.

Lemma build_attempt_inr (cfg : MatCfg) (scatter : Scatter) (info : Info)
    (chemform : ChemicalFormula) (chemform_str : string) :
  build_attempt cfg = inr (scatter, info, chemform, chemform_str) ->
  libClashDetect = None /\ createScatter cfg = inr scatter /\ createInfo cfg = inr info /\
  hasDensity info = true /\ base_chemform info = Ok (chemform, chemform_str).
Proof.
  unfold build_attempt. destruct libClashDetect; [discriminate|].
  destruct (createScatter cfg); [discriminate|].
  destruct (createInfo cfg) as [?|info']; [discriminate|].
  destruct (hasDensity info') eqn:Hd; [|discriminate].
  destruct (base_chemform info') as [[? ?]|?] eqn:Hb; [|discriminate].
  intros [= -> -> -> ->]. repeat split; assumption.
Qed.

Lemma base_chemform_Throw (info : Info) (e : Exception) :
  base_chemform info = Throw e -> exists ne, e = NCrystalError ne.
Proof.
  unfold base_chemform. destruct (getChemicalFormula info) as [[|e0 cf]|e'] eqn:Hcf.
  - destruct (hasComposition info); simpl; [discriminate|]. intros [= <-]. eauto.
  - discriminate.
  - intros [= <-]. apply getChemicalFormula_Throw in Hcf.
    destruct e' as [ne|]; [eauto|contradiction].
Qed.

Lemma build_attempt_NCrystalError (cfg : MatCfg) (e : Exception) (evs : list Event) :
  build_attempt cfg = inl (e, evs) -> exists ne, e = NCrystalError ne.
Proof.
  unfold build_attempt. destruct libClashDetect; [intros [= <- <-]; eauto|].
  destruct (createScatter cfg); [intros [= <- <-]; eauto|].
  destruct (createInfo cfg) as [?|info]; [intros [= <- <-]; eauto|].
  destruct (hasDensity info); [|intros [= <- <-]; eauto].
  destruct (base_chemform info) as [[? ?]|e'] eqn:Hb; [discriminate|].
  intros [= <- <-]. now apply base_chemform_Throw in Hb.
Qed.

Lemma build_attempt_first_call (cfg : MatCfg) (e : Exception) (evs : list Event) :
  libClashDetect = None -> build_attempt cfg = inl (e, evs) ->
  exists rest, evs = EvCreateScatter cfg :: rest /\
               (rest = [] \/ rest = [EvCreateInfo cfg]).
Proof.
  unfold build_attempt. intros ->.
  destruct (createScatter cfg); [intros [= <- <-]; eauto|].
  destruct (createInfo cfg) as [?|info]; [intros [= <- <-]; eauto|].
  destruct (hasDensity info); [|intros [= <- <-]; eauto].
  destruct (base_chemform info) as [[? ?]|e'] eqn:Hb; [discriminate|].
  intros [= <- <-]. eauto.
Qed.

(** A request that ends in an NCrystal exception found no ready entry,
    and the factories or the formula failed. *)
Lemma getG4MaterialWithCache_failed (cfg : MatCfg) (w w' : World) (e : NCError) :
  getG4MaterialWithCache cfg w = (Throw (NCrystalError e), w') ->
  exists evs, build_attempt cfg = inl (NCrystalError e, evs) /\
              w' = set_calls (calls w ++ evs) w /\
              (cache_lookup (cache w) (toStrCfg cfg) w).1 = Ok None.
Proof.
  rewrite getG4MaterialWithCache_eq.
  pose proof (cache_lookup_eq (cache w) (toStrCfg cfg) w) as Hl.
  destruct (cache_lookup (cache w) (toStrCfg cfg) w) as [[[idx|]|e0] w0].
  - discriminate.
  - rewrite build_material_attempt.
    destruct (build_attempt cfg) as [[e1 evs]|[[[scatter info] cf] k]].
    + intros [= -> <-]. eauto.
    + cbn zeta. pose proof (cache_lookup_eq (base_cache w) k w) as Hb.
      destruct (cache_lookup (base_cache w) k w) as [[[b|]|e1] w1]; simpl; try discriminate.
      intros [= -> _]. exfalso.
      destruct (base_cache w !! k) as [i|]; [|discriminate].
      destruct (materialTable w !! i) as [[?|]|]; discriminate.
  - intros [= -> _]. exfalso.
    destruct (cache w !! toStrCfg cfg) as [i|]; [|discriminate].
    destruct (materialTable w !! i) as [[?|]|]; discriminate.
Qed.

Lemma getG4MaterialWithCache_fails (cfg : MatCfg) (w : World) (e : Exception)
    (evs : list Event) :
  (cache_lookup (cache w) (toStrCfg cfg) w).1 = Ok None ->
  build_attempt cfg = inl (e, evs) ->
  getG4MaterialWithCache cfg w = (Throw e, set_calls (calls w ++ evs) w).
Proof.
  intros Hl Ha. rewrite getG4MaterialWithCache_eq.
  destruct (cache_lookup (cache w) (toStrCfg cfg) w) as [r w0]. simpl in Hl. subst r.
  now rewrite build_material_attempt, Ha.
Qed.

Lemma count_events_concat_repeat (f : Event -> bool) (l : list Event) (n : nat) :
  count_events f (concat (repeat l n)) = (n * count_events f l)%nat.
Proof.
  induction n as [|n IH]; simpl; [reflexivity|].
  now rewrite count_events_app, IH.
Qed.

Lemma request_again_failing (cfg : MatCfg) (e : NCError) (evs : list Event) (n : nat)
    (w : World) :
  (cache_lookup (cache w) (toStrCfg cfg) w).1 = Ok None ->
  build_attempt cfg = inl (NCrystalError e, evs) ->
  request_again cfg n w =
    (repeat (Ok None) n,
     set_calls (calls w ++ concat (repeat (evs ++ [handled e]) n)) w).
Proof.
  intros Hl Ha. revert w Hl. induction n as [|n IH]; intros w Hl.
  - simpl. f_equal. destruct w; unfold set_calls; simpl. now rewrite app_nil_r.
  - cbn [request_again]. rewrite createMaterial_MatCfg_eq.
    rewrite (getG4MaterialWithCache_fails cfg w _ evs Hl Ha).
    rewrite IH.
    + simpl. f_equal. unfold log_call, set_calls; simpl. f_equal.
      now rewrite <- !app_assoc.
    + unfold log_call. rewrite !set_calls_set_calls. simpl.
      now rewrite cache_lookup_set_calls, Hl.
Qed.

(** C3, as amended. A failed build is not recorded. A request that
    [createMaterial] answers with a null pointer has changed neither the
    caches nor the material table, and every later request for the same
    configuration does the same work again: the factories are called
    again, the same error is handed to the error handler once more, and a
    null pointer is returned. *)
Theorem failed_build_is_retried (w w1 wn : World) (cfg : MatCfg) (n : nat)
    (rs : list (Result (option nat))) :
  createMaterial_MatCfg cfg w = (Ok None, w1) ->
  request_again cfg n w1 = (rs, wn) ->
  rs = repeat (Ok None) n /\
  materialTable wn = materialTable w /\ cache wn = cache w /\
  base_cache wn = base_cache w /\
  exists e evs,
    build_attempt cfg = inl (NCrystalError e, evs) /\
    calls w1 = calls w ++ evs ++ [handled e] /\
    calls wn = calls w1 ++ concat (repeat (evs ++ [handled e]) n) /\
    (libClashDetect = None ->
     count_events (is_createScatter_call (toStrCfg cfg)) (calls wn)
     = (count_events (is_createScatter_call (toStrCfg cfg)) (calls w) + S n)%nat).
Proof.
  rewrite createMaterial_MatCfg_eq.
  destruct (getG4MaterialWithCache cfg w) as [[mat|[e|]] w'] eqn:Hstep; try discriminate.
  intros [= <-].
  destruct (getG4MaterialWithCache_failed cfg w w' e Hstep) as (evs & Ha & -> & Hl).
  rewrite (request_again_failing cfg e evs n); [| |exact Ha].
  2:{ unfold log_call. rewrite !set_calls_set_calls. simpl.
      now rewrite cache_lookup_set_calls, Hl. }
  intros [= <- <-]. repeat split.
  exists e, evs. split; [assumption|]. split; [simpl; now rewrite <- app_assoc|].
  split; [reflexivity|].
  intros Hlib. simpl.
  destruct (build_attempt_first_call cfg _ evs Hlib Ha) as (rest & -> & Hrest).
  rewrite !count_events_app, count_events_concat_repeat.
  assert (Hone : count_events (is_createScatter_call (toStrCfg cfg))
                   ((EvCreateScatter cfg :: rest) ++ [handled e]) = 1%nat).
  { rewrite count_events_app, count_events_cons. simpl. rewrite String.eqb_refl.
    destruct Hrest as [-> | ->]; reflexivity. }
  rewrite Hone. rewrite count_events_app in Hone. unfold handled in *. lia.
Qed.

End Failures.

Section NoEscape.
Context `{Externals}.

Lemma cache_lookup_in_range (c : gmap string nat) (key : string) (w : World) :
  (forall idx, c !! key = Some idx -> (idx < length (materialTable w))%nat) ->
  exists found, (cache_lookup c key w).1 = Ok found /\
                (forall mat, found = Some mat -> c !! key = Some mat /\ live w mat).
Proof.
  intros Hr. rewrite cache_lookup_eq.
  destruct (c !! key) as [idx|]; [|exists None; split; [reflexivity|discriminate]].
  destruct (lookup_lt_is_Some_2 _ _ (Hr idx eq_refl)) as [[m|] Hm]; rewrite Hm.
  - exists (Some idx). split; [reflexivity|]. intros mat [= <-]. split; [reflexivity|now exists m].
  - exists None. split; [reflexivity|discriminate].
Qed.

Lemma caches_in_range_initial (table : list (option G4Material)) :
  caches_in_range (initial_world table).
Proof. split; intros key idx Hk; simpl in Hk; now rewrite lookup_empty in Hk. Qed.

Lemma caches_in_range_delete (mat : nat) (w : World) :
  caches_in_range w -> caches_in_range (delete_G4Material mat w).
Proof.
  intros [Hc Hb]. split; intros key idx Hk; simpl in *; rewrite length_alter; eauto.
Qed.

Lemma caches_in_range_set_calls (l : list Event) (w : World) :
  caches_in_range w -> caches_in_range (set_calls l w).
Proof. intros [Hc Hb]. split; intros key idx Hk; simpl in *; eauto. Qed.

Lemma caches_in_range_with_base (info : Info) (cf : ChemicalFormula) (k : string) (w : World) :
  caches_in_range w -> caches_in_range (with_base_material info cf k w).
Proof.
  intros [Hc Hb]. split; intros key idx; simpl; rewrite length_app; simpl.
  - intros Hk. apply Hc in Hk. lia.
  - rewrite lookup_insert. case_decide; [intros [= <-]; lia|].
    intros Hk. apply Hb in Hk. lia.
Qed.

Lemma caches_in_range_with_derived (cfg : MatCfg) (info : Info) (scatter : Scatter)
    (b : nat) (w : World) :
  caches_in_range w -> caches_in_range (with_derived_material cfg info scatter b w).
Proof.
  intros [Hc Hb]. split; intros key idx; simpl; rewrite length_app; simpl.
  - rewrite lookup_insert. case_decide; [intros [= <-]; lia|].
    intros Hk. apply Hc in Hk. lia.
  - intros Hk. apply Hb in Hk. lia.
Qed.

(** With the cached indices in range a request returns a live material or
    throws an NCrystal exception, and the indices stay in range. *)
Lemma getG4MaterialWithCache_in_range (cfg : MatCfg) (w w' : World) (r : Result nat) :
  caches_in_range w ->
  getG4MaterialWithCache cfg w = (r, w') ->
  caches_in_range w' /\
  match r with
  | Ok mat => live w' mat
  | Throw e => exists ne, e = NCrystalError ne
  end.
Proof.
  intros Hr. pose proof Hr as [Hc Hb]. rewrite getG4MaterialWithCache_eq.
  destruct (cache_lookup_in_range (cache w) (toStrCfg cfg) w (Hc _)) as (found & Hl & Hf).
  destruct (cache_lookup (cache w) (toStrCfg cfg) w) as [r0 w0]. simpl in Hl. subst r0.
  destruct found as [mat|].
  { intros [= <- <-]. split; [assumption|]. now apply Hf. }
  rewrite build_material_attempt.
  destruct (build_attempt cfg) as [[e evs]|[[[scatter info] cf] k]] eqn:Ha.
  { intros [= <- <-]. split; [now apply caches_in_range_set_calls|].
    eapply build_attempt_NCrystalError; eassumption. }
  cbn zeta.
  destruct (cache_lookup_in_range (base_cache w) k w (Hb _)) as (bfound & Hbl & _).
  rewrite Hbl. destruct bfound as [b|]; intros [= <- <-].
  - split; [now apply caches_in_range_with_derived, caches_in_range_set_calls|].
    eexists. simpl. apply list_lookup_middle. reflexivity.
  - split; [now apply caches_in_range_with_derived, caches_in_range_with_base,
                      caches_in_range_set_calls|].
    eexists. simpl. apply list_lookup_middle. rewrite length_app. simpl. lia.
Qed.

(** C6. Whatever the configuration string, and whatever has been built or
    deleted before, [createMaterial] returns: either a pointer to a
    material of the table, or, after handing an NCrystal error to the
    error handler, the null pointer. No exception leaves it. The same
    holds for the overload that takes a [MatCfg]. *)
Theorem createMaterial_never_throws (w : World) (cfgstr : string) :
  caches_in_range w ->
  exists w',
    caches_in_range w' /\
    ((exists mat, createMaterial cfgstr w = (Ok (Some mat), w') /\ live w' mat) \/
     (exists e w0, createMaterial cfgstr w = (Ok None, w') /\
                   w' = log_call (handled e) w0)) /\
    createMaterial_G4String cfgstr w = createMaterial cfgstr w /\
    forall cfg, exists w'',
      caches_in_range w'' /\
      ((exists mat, createMaterial_MatCfg cfg w = (Ok (Some mat), w'') /\ live w'' mat) \/
       (exists e w0, createMaterial_MatCfg cfg w = (Ok None, w'') /\
                     w'' = log_call (handled e) w0)).
Proof.
  intros Hr.
  assert (Hcfg : forall cfg, exists w'',
    caches_in_range w'' /\
    ((exists mat, createMaterial_MatCfg cfg w = (Ok (Some mat), w'') /\ live w'' mat) \/
     (exists e w0, createMaterial_MatCfg cfg w = (Ok None, w'') /\
                   w'' = log_call (handled e) w0))).
  { intros cfg. rewrite createMaterial_MatCfg_eq.
    destruct (getG4MaterialWithCache cfg w) as [r w1] eqn:Hstep.
    destruct (getG4MaterialWithCache_in_range cfg w w1 r Hr Hstep) as [Hr1 Hres].
    destruct r as [mat|e].
    - exists w1. split; [assumption|]. left. eauto.
    - destruct Hres as [ne ->].
      exists (log_call (handled ne) w1).
      split; [now apply caches_in_range_set_calls|]. right. eauto. }
  change (createMaterial_G4String cfgstr w) with (createMaterial cfgstr w).
  rewrite createMaterial_eq. destruct (MatCfg_parse cfgstr) as [e|cfg] eqn:Hp.
  - exists (log_call (handled e) w).
    split; [now apply caches_in_range_set_calls|].
    split; [right; eauto|]. split; [reflexivity|assumption].
  - destruct (Hcfg cfg) as (w' & Hr' & Hres). exists w'.
    split; [assumption|]. split; [assumption|]. split; [reflexivity|assumption].
Qed.

End NoEscape.

Section Temperature.
Context `{Externals}.

(** A request that returned a material that was not in the table before
    has built it from what the factories returned. *)
Lemma getG4MaterialWithCache_built (cfg : MatCfg) (w w' : World) (mat : nat) :
  getG4MaterialWithCache cfg w = (Ok mat, w') ->
  (length (materialTable w) <= mat)%nat ->
  exists scatter info chemform chemform_str matBase,
    build_attempt cfg = inr (scatter, info, chemform, chemform_str) /\
    materialTable w' !! mat = Some (Some (new_derived_material cfg info matBase)) /\
    length (materialTable w') = S mat.
Proof.
  rewrite getG4MaterialWithCache_eq, cache_lookup_eq.
  assert (Hbuild : build_material cfg w = (Ok mat, w') ->
    exists scatter info chemform chemform_str matBase,
      build_attempt cfg = inr (scatter, info, chemform, chemform_str) /\
      materialTable w' !! mat = Some (Some (new_derived_material cfg info matBase)) /\
      length (materialTable w') = S mat).
  { rewrite build_material_attempt.
    destruct (build_attempt cfg) as [[e evs]|[[[scatter info] cf] k]]; [discriminate|].
    cbn zeta. destruct (cache_lookup (base_cache w) k w).1 as [[b|]|e]; [| |discriminate].
    - intros [= <- <-]. exists scatter, info, cf, k, b. split; [reflexivity|]. simpl.
      split; [now apply list_lookup_middle|]. rewrite length_app. simpl. lia.
    - intros [= <- <-]. exists scatter, info, cf, k, (length (materialTable w)).
      split; [reflexivity|]. simpl.
      split; [apply list_lookup_middle; rewrite length_app; simpl; lia|].
      rewrite !length_app. simpl. lia. }
  destruct (cache w !! toStrCfg cfg) as [idx|]; [|intros Hb _; now apply Hbuild].
  destruct (materialTable w !! idx) as [[m|]|] eqn:Hm.
  - intros [= <- <-] Hlen. apply lookup_lt_Some in Hm. lia.
  - intros Hb _. now apply Hbuild.
  - discriminate.
Qed.

Lemma getBaseG4MaterialWithCache_built (info : Info) (w w' : World) (mat : nat) :
  getBaseG4MaterialWithCache info w = (Ok mat, w') ->
  (length (materialTable w) <= mat)%nat ->
  exists chemform chemform_str,
    base_chemform info = Ok (chemform, chemform_str) /\
    materialTable w' !! mat = Some (Some (built_base_material info chemform chemform_str)).
Proof.
  rewrite getBaseG4MaterialWithCache_eq.
  destruct (base_chemform info) as [[cf k]|e]; [|discriminate].
  rewrite cache_lookup_eq.
  assert (Hbuild : forall r : Result nat * World,
    r = (Ok (length (materialTable w)), with_base_material info cf k w) ->
    r = (Ok mat, w') ->
    exists chemform chemform_str,
      Ok (cf, k) = Ok (chemform, chemform_str) /\
      materialTable w' !! mat = Some (Some (built_base_material info chemform chemform_str))).
  { intros r -> [= <- <-]. exists cf, k. split; [reflexivity|]. simpl.
    now apply list_lookup_middle. }
  destruct (base_cache w !! k) as [idx|]; [|intros Hr _; now eapply Hbuild].
  destruct (materialTable w !! idx) as [[m|]|] eqn:Hm.
  - intros [= <- <-] Hlen. apply lookup_lt_Some in Hm. lia.
  - intros Hr _. now eapply Hbuild.
  - discriminate.
Qed.

(** C7. The default temperature is 293.15 K. A derived material built for
    a configuration whose info has no temperature is created at 293.15
    kelvin; a base material is always created at 293.15 kelvin; so a
    configuration whose info says 293.15 and one whose info says nothing
    get materials of the same temperature. *)
Theorem default_temperature :
  (forall (w w' : World) (cfg : MatCfg) (info : Info) (mat : nat),
     getG4MaterialWithCache cfg w = (Ok mat, w') ->
     (length (materialTable w) <= mat)%nat ->
     createInfo cfg = inr info -> temperature info = None ->
     exists m, materialTable w' !! mat = Some (Some m) /\
               mat_temp m = (293.15 * CLHEP_kelvin)%float) /\
  (forall (w w' : World) (info : Info) (mat : nat),
     getBaseG4MaterialWithCache info w = (Ok mat, w') ->
     (length (materialTable w) <= mat)%nat ->
     exists m, materialTable w' !! mat = Some (Some m) /\
               mat_temp m = (293.15 * CLHEP_kelvin)%float) /\
  (forall (w1 w1' w2 w2' : World) (cfg1 cfg2 : MatCfg) (info1 info2 : Info)
          (mat1 mat2 : nat),
     getG4MaterialWithCache cfg1 w1 = (Ok mat1, w1') ->
     (length (materialTable w1) <= mat1)%nat ->
     getG4MaterialWithCache cfg2 w2 = (Ok mat2, w2') ->
     (length (materialTable w2) <= mat2)%nat ->
     createInfo cfg1 = inr info1 -> temperature info1 = Some 293.15%float ->
     createInfo cfg2 = inr info2 -> temperature info2 = None ->
     exists m1 m2,
       materialTable w1' !! mat1 = Some (Some m1) /\
       materialTable w2' !! mat2 = Some (Some m2) /\
       mat_temp m1 = mat_temp m2).
Proof.
  assert (Hderived : forall (w w' : World) (cfg : MatCfg) (info : Info) (mat : nat),
     getG4MaterialWithCache cfg w = (Ok mat, w') ->
     (length (materialTable w) <= mat)%nat ->
     createInfo cfg = inr info ->
     exists m, materialTable w' !! mat = Some (Some m) /\
               mat_temp m = derived_temperature info).
  { intros w w' cfg info mat Hstep Hnew Hinfo.
    destruct (getG4MaterialWithCache_built cfg w w' mat Hstep Hnew)
      as (scatter & info' & cf & k & b & Ha & Hm & _).
    apply build_attempt_inr in Ha as (_ & _ & Hi & _).
    assert (info' = info) as -> by congruence.
    eexists. split; [exact Hm|reflexivity]. }
  split; [|split].
  - intros w w' cfg info mat Hstep Hnew Hinfo Htemp.
    destruct (Hderived w w' cfg info mat Hstep Hnew Hinfo) as (m & Hm & Ht).
    exists m. split; [assumption|]. rewrite Ht.
    unfold derived_temperature, hasTemperature. rewrite Htemp. reflexivity.
  - intros w w' info mat Hstep Hnew.
    destruct (getBaseG4MaterialWithCache_built info w w' mat Hstep Hnew)
      as (cf & k & _ & Hm).
    eexists. split; [exact Hm|reflexivity].
  - intros w1 w1' w2 w2' cfg1 cfg2 info1 info2 mat1 mat2 H1 N1 H2 N2 I1 T1 I2 T2.
    destruct (Hderived _ _ _ _ _ H1 N1 I1) as (m1 & Hm1 & Ht1).
    destruct (Hderived _ _ _ _ _ H2 N2 I2) as (m2 & Hm2 & Ht2).
    exists m1, m2. split; [assumption|]. split; [assumption|].
    rewrite Ht1, Ht2. unfold derived_temperature, hasTemperature.
    rewrite T1, T2. reflexivity.
Qed.

End Temperature.

Section Layers.
Context `{Externals}.

Lemma live_lt (w : World) (i : nat) : live w i -> (i < length (materialTable w))%nat.
Proof. intros [m Hm]. now apply lookup_lt_Some in Hm. Qed.




End Layers.

(** ** Threads *)

Section Concurrency.
Context `{Externals}.

Lemma serve_all_snoc (cfgs : list MatCfg) (cfg : MatCfg) (w : World) :
  serve_all (cfgs ++ [cfg]) w =
    (let '(rs, w1) := serve_all cfgs w in
     let '(r, w2) := getG4MaterialWithCache cfg w1 in
     (rs ++ [r], w2)).
Proof.
  revert w. induction cfgs as [|c cfgs IH]; intros w.
  - cbn [app serve_all]. now destruct (getG4MaterialWithCache cfg w).
  - cbn [app serve_all]. destruct (getG4MaterialWithCache c w) as [r1 w1].
    rewrite IH. destruct (serve_all cfgs w1) as [rs w2].
    now destruct (getG4MaterialWithCache cfg w2).
Qed.

Lemma start_process_invariant (w : World) (cfgs : list MatCfg) :
  process_invariant w (start_process w cfgs).
Proof.
  split; simpl.
  - exists [], []. reflexivity.
  - split; simpl; [discriminate|].
    intros t cfg Ht. rewrite list_lookup_fmap in Ht.
    destruct (cfgs !! t); discriminate.
  - intros t cfg mat Ht. rewrite list_lookup_fmap in Ht.
    destruct (cfgs !! t); discriminate.
Qed.

Lemma thread_step_invariant (w : World) (p p' : Process) (t : nat) :
  caches_live w -> process_invariant w p -> thread_step t p = Some p' ->
  process_invariant w p'.
Proof.
  intros Hlive [(served & rs & Hser) [Hm1 Hm2] Hret]. unfold thread_step.
  destruct (threads p !! t) as [[cfg|cfg|cfg r]|] eqn:Ht; try discriminate.
  - destruct (cache_mutex p) as [u|] eqn:Hmu; [discriminate|].
    intros [= <-]. split; simpl.
    + eauto.
    + split; simpl.
      * intros u [= <-]. exists cfg. apply list_lookup_insert_eq.
        now apply lookup_lt_Some in Ht.
      * intros u cfg' Hu. destruct (decide (u = t)) as [->|Hne]; [reflexivity|].
        rewrite list_lookup_insert_ne in Hu by congruence.
        apply Hm2 in Hu. congruence.
    + intros u cfg' mat Hu. destruct (decide (u = t)) as [->|Hne].
      * rewrite list_lookup_insert_eq in Hu by now apply lookup_lt_Some in Ht.
        discriminate.
      * rewrite list_lookup_insert_ne in Hu by congruence. eauto.
  - destruct (getG4MaterialWithCache cfg (world p)) as [r w'] eqn:Hstep.
    intros [= <-].
    destruct (serve_all_extends served w (world p) rs Hlive Hser) as (evs0 & _ & Hlp).
    destruct (getG4MaterialWithCache_extends cfg (world p) w' r Hlp Hstep)
      as (evs & E & _).
    split; simpl.
    + exists (served ++ [cfg]), (rs ++ [r]). rewrite serve_all_snoc, Hser, Hstep.
      reflexivity.
    + split; simpl; [discriminate|].
      intros u cfg' Hu. exfalso. destruct (decide (u = t)) as [->|Hne].
      * rewrite list_lookup_insert_eq in Hu by now apply lookup_lt_Some in Ht.
        discriminate.
      * rewrite list_lookup_insert_ne in Hu by congruence.
        pose proof (Hm2 _ _ Hu) as Hmu. pose proof (Hm2 _ _ Ht) as Hmt. congruence.
    + intros u cfg' mat Hu. destruct (decide (u = t)) as [->|Hne].
      * rewrite list_lookup_insert_eq in Hu by now apply lookup_lt_Some in Ht.
        injection Hu as -> ->. eapply getG4MaterialWithCache_ready; eassumption.
      * rewrite list_lookup_insert_ne in Hu by congruence.
        eapply ready_extends; [exact E|]. eauto.
Qed.

Lemma run_schedule_invariant (w : World) (schedule : list nat) (p : Process) :
  caches_live w -> process_invariant w p ->
  process_invariant w (run_schedule schedule p).
Proof.
  intros Hlive. revert p. induction schedule as [|t schedule IH]; intros p Hinv.
  - assumption.
  - cbn [run_schedule]. apply IH.
    destruct (thread_step t p) as [p'|] eqn:Hstep; simpl; [|assumption].
    eapply thread_step_invariant; eassumption.
Qed.

(** C1, as amended. Requests are served one at a time: a thread holds the
    one mutex from before it looks at the cache until it returns or
    throws, so while a thread is building, every thread that has not yet
    got the lock is blocked, whatever key it asks for; a waiting thread is
    never stuck for good, since some thread can always move. The state of the
    process is the state after the finished requests, served one after
    the other; therefore, while nothing is deleted, no derived material is
    built twice for a key and all threads that got a material for the
    same key got the same material. A failed build is not recorded, so
    a failing request is built again by the next thread that asks. *)
Theorem requests_are_serialized (w : World) (cfgs : list MatCfg) (p : Process) :
  caches_live w ->
  reachable_from (start_process w cfgs) p ->
  mutex_consistent p /\
  (forall t u cfg, building t cfg p ->
     (exists cfg', threads p !! u = Some (AtLockGuard cfg')) -> blocked u p) /\
  (forall t u cfg cfg', building t cfg p -> building u cfg' p -> t = u) /\
  (forall t cfg, threads p !! t = Some (AtLockGuard cfg) ->
     exists u p', thread_step u p = Some p') /\
  (exists served rs, serve_all served w = (rs, world p)) /\
  (exists evs, calls (world p) = calls w ++ evs /\
     forall key, (derived_builds key evs <= 1)%nat /\
                 (cache w !! key <> None -> derived_builds key evs = 0%nat)) /\
  (forall t u cfg cfg' mat mat',
     threads p !! t = Some (Returned cfg (Ok mat)) ->
     threads p !! u = Some (Returned cfg' (Ok mat')) ->
     toStrCfg cfg = toStrCfg cfg' -> mat = mat').
Proof.
  intros Hlive [schedule <-].
  pose proof (run_schedule_invariant w schedule _ Hlive (start_process_invariant w cfgs))
    as [Hser Hmutex Hret].
  set (p := run_schedule schedule (start_process w cfgs)) in *.
  split; [assumption|]. destruct Hmutex as [Hm1 Hm2].
  split.
  { intros t u cfg Hb [cfg' Hu]. split; [eauto|].
    unfold thread_step. rewrite Hu. unfold building in Hb. now rewrite (Hm2 _ _ Hb). }
  split.
  { intros t u cfg cfg' Ht Hu. unfold building in *.
    apply Hm2 in Ht, Hu. congruence. }
  split.
  { intros t cfg Ht. destruct (cache_mutex p) as [u|] eqn:Hmu.
    - destruct (Hm1 u eq_refl) as [cfg' Hu]. exists u. unfold thread_step. rewrite Hu.
      destruct (getG4MaterialWithCache cfg' (world p)). eauto.
    - exists t. unfold thread_step. rewrite Ht, Hmu. eauto. }
  split; [assumption|].
  destruct Hser as (served & rs & Hser).
  destruct (serve_all_extends served w (world p) rs Hlive Hser) as (evs & E & _).
  split.
  { exists evs. split; [apply (ext_calls _ _ _ E)|].
    intros key. destruct (ext_derived _ _ _ E key) as (Hle & Hin & _). auto. }
  intros t u cfg cfg' mat mat' Ht Hu Hkey.
  apply Hret in Ht as [Ht _]. apply Hret in Hu as [Hu _]. congruence.
Qed.

End Concurrency.

(** ** The installation of [Scenario] *)

Section Installation.
Import Scenario.
#[local] Existing Instance installation.

(** *** Chemical formulas *)

Example corundum_formula : getChemicalFormula corundum_info = Ok [(8, 3); (13, 2)].
Proof. vm_compute. reflexivity. Qed.

Example corundum_hill_string :
  getChemicalFormulaInHillSystemString [(8, 3); (13, 2)] = "Al2O3".
Proof. vm_compute. reflexivity. Qed.

Example example_formula_hill_string :
  getChemicalFormulaInHillSystemString example_formula = "CH4D2BO2".
Proof. vm_compute. reflexivity. Qed.

(** The formula of corundum is reduced and sorted. *)
Lemma corundum_formula_reduced_sorted :
  reduced [(8, 3); (13, 2)] /\ strictly_increasing [(8, 3); (13, 2)].
Proof.
  destruct (getChemicalFormula_reduced_sorted corundum_info corundum_atoms eq_refl)
    as (_ & _ & _ & Hok & _).
  destruct (Hok [(8, 3); (13, 2)] corundum_formula) as (_ & Hred & Hsorted & _).
  split; assumption.
Defined.

(** C9 as it stands fails: aluminium given by two sites has atomic number
    13 twice in its atom info, and gets the formula Al, not an error. *)
Lemma two_sites_not_rejected :
  atomInfo al_two_sites_info = Some al_two_sites /\
  List.Forall valid_atom al_two_sites /\
  ~ List.NoDup (map atomic_number al_two_sites) /\
  getChemicalFormula al_two_sites_info = Ok [(13, 1)].
Proof.
  split; [reflexivity|]. split; [repeat constructor|].
  split; [|vm_compute; reflexivity].
  intros Hnd. inversion Hnd as [|? ? Hnotin _]. apply Hnotin. now left.
Qed.


(** *** Requests *)

Example al_request : getG4MaterialWithCache Al empty_world = (Ok 1%nat, al_world).
Proof. vm_compute. reflexivity. Qed.

Lemma al_world_live : caches_live al_world.
Proof.
  destruct (getG4MaterialWithCache_extends Al empty_world al_world (Ok 1%nat)
              (caches_live_initial []) al_request) as (_ & _ & Hlive).
  exact Hlive.
Qed.

Lemma al_world_ready : ready (cache al_world) al_world Al 1%nat.
Proof. exact (getG4MaterialWithCache_ready Al empty_world al_world 1%nat al_request). Qed.

(** C2 as it stands fails: the build for a file that does not exist runs
    again on every request. *)
Lemma failed_build_runs_again :
  let '(rs, w) := serve_all [nofile; nofile] empty_world in
  rs = [Throw (NCrystalError (error FileNotFound "Could not find input file"));
        Throw (NCrystalError (error FileNotFound "Could not find input file"))] /\
  calls w = [EvCreateScatter nofile; EvCreateScatter nofile] /\
  count_events (is_factory_call "nofile.ncmat") (calls w) = 2%nat.
Proof. vm_compute. repeat split; reflexivity. Qed.

(** The guard of lines 294-296: a material that was deleted is built
    again by the next request for its key. *)
Example deleted_material_is_rebuilt :
  let '(r, w) := getG4MaterialWithCache Al (delete_G4Material 1 al_world) in
  r = Ok 2%nat /\ derived_builds (toStrCfg Al) (calls w) = 2%nat /\
  base_builds "Al" (calls w) = 1%nat.
Proof. vm_compute. repeat split; reflexivity. Qed.

(** Aluminium stays as built while corundum and aluminium at 77 K are
    requested, and a further request for it returns it. *)
Lemma al_entry_never_rebuilt :
  let cfgs := [corundum; Al; Al_77K] in
  ready (cache (serve_all cfgs al_world).2) (serve_all cfgs al_world).2
        Al 1%nat /\
  (serve_all cfgs al_world).1 !! 1%nat = Some (Ok 1%nat).
Proof.
  intros cfgs.
  destruct (proj1 ready_entry_never_rebuilt al_world (serve_all cfgs al_world).2 cfgs
              (serve_all cfgs al_world).1 Al 1%nat
              al_world_live al_world_ready (surjective_pairing _))
    as (Hready & _ & Hres & _).
  split; [exact Hready|]. exact (Hres 1%nat Al eq_refl eq_refl).
Defined.

(** C3 as it stands fails: the second request for a configuration whose
    build failed calls the factory again. *)
Lemma failed_request_calls_factory_again :
  let cfg := "Al_sg225.ncmat;dcutoff=999" in
  let e := error BadInput "dcutoff must be at most 1e5 and larger than dcutoffup" in
  let '(r1, w1) := createMaterial cfg empty_world in
  let '(r2, w2) := createMaterial cfg w1 in
  r1 = Ok None /\ r2 = Ok None /\
  calls w1 = [EvCreateScatter Al_bad_dcutoff; handled e] /\
  calls w2 = [EvCreateScatter Al_bad_dcutoff; handled e;
              EvCreateScatter Al_bad_dcutoff; handled e].
Proof. vm_compute. repeat split; reflexivity. Qed.

(** A hundred more requests for the failing configuration: a hundred more
    calls of the factory. *)
Lemma failing_request_retried_100_times :
  let cfg := Al_bad_dcutoff in
  let w1 := (createMaterial_MatCfg cfg empty_world).2 in
  (request_again cfg 100 w1).1 = repeat (Ok None) 100 /\
  count_events (is_createScatter_call (toStrCfg cfg)) (calls (request_again cfg 100 w1).2) = 101%nat.
Proof.
  intros cfg w1.
  destruct (failed_build_is_retried empty_world w1 (request_again cfg 100 w1).2 cfg 100
              (request_again cfg 100 w1).1)
    as (Hrs & _ & _ & _ & e & evs & _ & _ & _ & Hcount).
  - vm_compute. reflexivity.
  - apply surjective_pairing.
  - split; [exact Hrs|]. exact (Hcount eq_refl).
Defined.

(** The configuration of the specification, requested twice. *)
Lemma dcutoff_request_twice :
  let cfg := Al_dcutoff in
  let w1 := (createMaterial_MatCfg cfg empty_world).2 in
  createMaterial_MatCfg cfg w1 = (Ok (Some 1%nat), w1) /\ live w1 1%nat.
Proof.
  intros cfg w1.
  destruct (same_key_same_material empty_world w1 cfg cfg 1%nat eq_refl)
    as (Hagain & _ & Hlive & _).
  - vm_compute. reflexivity.
  - split; assumption.
Defined.


(** A failing configuration handed to [createMaterial]: the null pointer,
    after the error handler. *)
Lemma createMaterial_bad_dcutoff :
  exists w',
    caches_in_range w' /\
    ((exists mat, createMaterial "Al_sg225.ncmat;dcutoff=999" empty_world
                  = (Ok (Some mat), w') /\ live w' mat) \/
     (exists e w0, createMaterial "Al_sg225.ncmat;dcutoff=999" empty_world = (Ok None, w') /\
                   w' = log_call (handled e) w0)).
Proof.
  destruct (createMaterial_never_throws empty_world "Al_sg225.ncmat;dcutoff=999"
              (caches_in_range_initial []))
    as (w' & Hrange & Hres & _).
  exists w'. split; assumption.
Defined.

(** Aluminium from a file that gives no temperature is as warm as
    aluminium from a file that says 293.15 K. *)
Lemma al_default_temperature :
  exists m1 m2,
    materialTable al_world !! 1%nat = Some (Some m1) /\
    materialTable (getG4MaterialWithCache Al_nxs empty_world).2 !! 1%nat
      = Some (Some m2) /\
    mat_temp m1 = mat_temp m2.
Proof.
  apply (proj2 (proj2 default_temperature) empty_world al_world empty_world
           (getG4MaterialWithCache Al_nxs empty_world).2
           Al Al_nxs (al_info 293.15) al_info_no_temperature
           1%nat 1%nat).
  - exact al_request.
  - simpl. lia.
  - vm_compute. reflexivity.
  - simpl. lia.
  - reflexivity.
  - reflexivity.
  - reflexivity.
  - reflexivity.
Defined.

(** *** Threads *)

(** C1 as it stands fails: while thread 0 is building aluminium, thread 1,
    which asks for corundum, cannot get the lock. *)
Lemma unrelated_request_blocked :
  let p := run_schedule [0%nat] two_threads in
  building 0 Al p /\
  threads p !! 1%nat = Some (AtLockGuard corundum) /\
  toStrCfg Al <> toStrCfg corundum /\
  thread_step 1 p = None /\
  blocked 1 p.
Proof.
  intros p. split; [reflexivity|]. split; [reflexivity|].
  split; [discriminate|]. split; [reflexivity|].
  split; [eexists; reflexivity|reflexivity].
Qed.

(** Whatever the scheduler does with the two threads, the lock is held by
    the thread that is building, if any. *)
Lemma two_threads_serialized :
  mutex_consistent (run_schedule [1%nat; 0%nat; 1%nat; 0%nat; 0%nat] two_threads).
Proof.
  apply (requests_are_serialized empty_world
           [Al; corundum]).
  - apply caches_live_initial.
  - eexists. reflexivity.
Defined.

(** *** Plugins *)

Example my_plugin_configured :
  CMake.configure_plugins false [my_plugin]
  = CMake.Configured
      {| CMake.all_plugin_names_lc := ["stdscat"; "stdabs"; "stdncmat"; "myplugin"];
         CMake.NCrystal_builtin_plugin_names := ["MyPlugin"] |}.
Proof. vm_compute. reflexivity. Qed.

Example my_plugin_twice_rejected :
  CMake.configure_plugins false [my_plugin; my_plugin]
  = CMake.FATAL_ERROR
      "Multiple plugins have the same name (must be unique and not clash with standard plugins): MyPlugin.".
Proof. vm_compute. reflexivity. Qed.

Example clashing_plugin_rejected :
  CMake.configure_plugins false [my_plugin; clashing_plugin]
  = CMake.FATAL_ERROR
      "Multiple plugins have the same name (must be unique and not clash with standard plugins): StdScat.".
Proof. vm_compute. reflexivity. Qed.

End Installation.
(** * Further properties of the code *)

(** ** [greatestCommonDivisor] and [getChemicalFormula] *)

(** X1. The loop of [greatestCommonDivisor] ends for all arguments with
    their greatest common divisor: the result divides both arguments,
    every common divisor divides the result, and the result is not larger
    than the larger argument, so it is an [unsigned] again. The order of
    the arguments does not matter. *)
Theorem greatestCommonDivisor_greatest (a b : N) :
  (greatestCommonDivisor a b | a) /\
  (greatestCommonDivisor a b | b) /\
  (forall d, (d | a) -> (d | b) -> (d | greatestCommonDivisor a b)) /\
  greatestCommonDivisor a b <= N.max a b /\
  greatestCommonDivisor a b = greatestCommonDivisor b a.
Proof.
  rewrite !greatestCommonDivisor_gcd.
  split; [apply N.gcd_divide_l|]. split; [apply N.gcd_divide_r|].
  split; [intros d; apply N.gcd_greatest|].
  split; [|apply N.gcd_comm].
  destruct (N.eq_dec a 0) as [->|Ha].
  - rewrite N.gcd_0_l. lia.
  - pose proof (N.divide_pos_le (N.gcd a b) a ltac:(lia) (N.gcd_divide_l a b)). lia.
Qed.

Lemma list_gcd_scale (k : N) (l : list N) :
  list_gcd (map (N.mul k) l) = k * list_gcd l.
Proof.
  induction l as [|x l IH]; simpl.
  - lia.
  - rewrite IH. apply N.gcd_mul_mono_l.
Qed.

Lemma reduce_and_sort_scale (k : N) (cf : ChemicalFormula) :
  k <> 0 -> reduce_and_sort (map (scale_entry k) cf) = reduce_and_sort cf.
Proof.
  intros Hk. unfold reduce_and_sort. cbv zeta.
  rewrite !formula_gcd_list_gcd, !map_map.
  change (map (fun x => (scale_entry k x).2) cf) with (map (fun x : N * N => k * x.2) cf).
  rewrite <- (map_map snd (N.mul k)), list_gcd_scale.
  f_equal. apply map_ext. intros [z n]. unfold scale_entry. simpl. f_equal.
  now apply N.Div0.div_mul_cancel_l.
Qed.

Lemma reduce_and_sort_Permutation (cf cf' : ChemicalFormula) :
  Permutation cf cf' -> reduce_and_sort cf = reduce_and_sort cf'.
Proof.
  intros Hp. unfold reduce_and_sort. cbv zeta.
  rewrite !formula_gcd_list_gcd.
  rewrite (list_gcd_Permutation _ _ (Permutation_map snd Hp)).
  apply std_sort_upair_unique.
  - etransitivity; [apply std_sort_Permutation|now apply Permutation_map].
  - apply std_sort_sorted; [apply upair_le_total|apply upair_le_trans].
Qed.

Lemma atom_entry_scale (k : N) (atoms : list AtomInfo) :
  map atom_entry (map (scale_atom k) atoms) = map (scale_entry k) (map atom_entry atoms).
Proof. rewrite !map_map. reflexivity. Qed.

Section Proportions.
Context `{Externals}.

(** X2. The formula depends on the proportions of the elements only: two
    unit cells whose atoms are the same up to their order and up to a
    common factor of the counts (Al6O9 and Al2O3) get the same formula, or
    the same error. *)
Theorem getChemicalFormula_same_proportions (info1 info2 : Info)
    (atoms1 atoms2 : list AtomInfo) (k1 k2 : N) :
  composition info1 = composition info2 ->
  atomInfo info1 = Some atoms1 -> atomInfo info2 = Some atoms2 ->
  List.Forall valid_atom atoms1 -> List.Forall valid_atom atoms2 ->
  k1 <> 0 -> k2 <> 0 ->
  Permutation (map (scale_atom k1) (counted_atoms atoms1))
              (map (scale_atom k2) (counted_atoms atoms2)) ->
  getChemicalFormula info1 = getChemicalFormula info2.
Proof.
  intros Hcomp Ha1 Ha2 Hv1 Hv2 Hk1 Hk2 Hperm.
  assert (Hmono : monoatomic_Z info1 = monoatomic_Z info2).
  { unfold monoatomic_Z. now rewrite Hcomp. }
  destruct (monoatomic_Z info2) as [z|] eqn:Hm2.
  - unfold getChemicalFormula. now rewrite Hmono, Hm2.
  - rewrite (getChemicalFormula_valid_atoms info1 atoms1 Hmono Ha1 Hv1).
    rewrite (getChemicalFormula_valid_atoms info2 atoms2 Hm2 Ha2 Hv2).
    assert (Hred : reduce_and_sort (map atom_entry (counted_atoms atoms1))
                   = reduce_and_sort (map atom_entry (counted_atoms atoms2))).
    { transitivity (reduce_and_sort (map atom_entry (map (scale_atom k1) (counted_atoms atoms1)))).
      - now rewrite atom_entry_scale, reduce_and_sort_scale.
      - rewrite (reduce_and_sort_Permutation _ _ (Permutation_map atom_entry Hperm)).
        now rewrite atom_entry_scale, reduce_and_sort_scale. }
    pose proof (Permutation_length Hperm) as Hlen.
    rewrite !length_map in Hlen.
    rewrite <- (length_map atom_entry (counted_atoms atoms1)) in Hlen.
    rewrite <- (length_map atom_entry (counted_atoms atoms2)) in Hlen.
    destruct (map atom_entry (counted_atoms atoms1)) as [|e1 l1],
             (map atom_entry (counted_atoms atoms2)) as [|e2 l2];
      try discriminate Hlen; [reflexivity|].
    cbv beta iota zeta. now rewrite Hred.
Qed.

End Proportions.
(** ** The key of the base cache *)

Lemma string_app_cons (c : ascii) (s t : string) : String c s +:+ t = String c (s +:+ t).
Proof. reflexivity. Qed.

Lemma string_app_nil (t : string) : "" +:+ t = t.
Proof. reflexivity. Qed.

Lemma string_app_assoc (a b c : string) : (a +:+ b) +:+ c = a +:+ (b +:+ c).
Proof.
  induction a as [|x a IH]; [reflexivity|].
  rewrite !string_app_cons. now rewrite IH.
Qed.

Lemma all_chars_app (P : ascii -> bool) (s t : string) :
  all_chars P (s +:+ t) = all_chars P s && all_chars P t.
Proof.
  induction s as [|c s IH]; [reflexivity|].
  rewrite string_app_cons. simpl. rewrite IH. apply andb_assoc.
Qed.

Lemma all_chars_impl (P Q : ascii -> bool) (s : string) :
  (forall c, P c = true -> Q c = true) -> all_chars P s = true -> all_chars Q s = true.
Proof.
  intros HPQ. induction s as [|c s IH]; [reflexivity|]. simpl.
  intros [Hc Hs]%andb_true_iff. rewrite (HPQ c Hc). now apply IH.
Qed.

(** A string is cut in one way only into a run of [P] characters and a
    rest that does not go on with one. *)
Lemma span_unique (P : ascii -> bool) (u1 u2 r1 r2 : string) :
  all_chars P u1 = true -> all_chars P u2 = true ->
  stops P r1 = true -> stops P r2 = true ->
  u1 +:+ r1 = u2 +:+ r2 -> u1 = u2 /\ r1 = r2.
Proof.
  revert u2. induction u1 as [|c u1 IH]; intros [|c2 u2];
    rewrite ?string_app_cons, ?string_app_nil; simpl.
  - auto.
  - intros _ [Hc _]%andb_true_iff Hr1 _ ->. simpl in Hr1. now rewrite Hc in Hr1.
  - intros [Hc _]%andb_true_iff _ _ Hr2 <-. simpl in Hr2. now rewrite Hc in Hr2.
  - intros [_ H1]%andb_true_iff [_ H2]%andb_true_iff Hr1 Hr2 [= -> E].
    destruct (IH u2 H1 H2 Hr1 Hr2 E) as [-> ->]. auto.
Qed.

Lemma digit_not_upper (c : ascii) : is_digit c = true -> negb (is_upper c) = true.
Proof.
  unfold is_digit, is_upper. cbv zeta.
  intros [H1 H2]%andb_true_iff. apply N.leb_le in H1, H2.
  apply negb_true_iff, andb_false_iff. left. apply N.leb_gt. lia.
Qed.

Lemma digit_not_letter (c : ascii) : is_digit c = true -> is_letter c = false.
Proof.
  unfold is_digit, is_letter, is_upper, is_lower. cbv zeta.
  intros [H1 H2]%andb_true_iff. apply N.leb_le in H1, H2.
  apply orb_false_iff. split; apply andb_false_iff; left; apply N.leb_gt; lia.
Qed.

Lemma lower_not_upper (c : ascii) : is_lower c = true -> negb (is_upper c) = true.
Proof.
  unfold is_lower, is_upper. cbv zeta.
  intros [H1 H2]%andb_true_iff. apply N.leb_le in H1, H2.
  apply negb_true_iff, andb_false_iff. right. apply N.leb_gt. lia.
Qed.

(** *** Decimal numbers *)

Lemma pretty_N_char_digit (x : N) : is_digit (pretty_N_char x) = true.
Proof. unfold pretty_N_char. repeat case_match; reflexivity. Qed.

Lemma pretty_N_go_digits (x : N) (s : string) :
  all_chars is_digit s = true -> all_chars is_digit (pretty_N_go x s) = true.
Proof.
  revert s. induction (N.lt_wf_0 x) as [x _ IH]. intros s Hs.
  destruct (N.eq_dec x 0) as [->|Hx]; [now rewrite pretty_N_go_0|].
  rewrite pretty_N_go_step by lia. apply IH.
  - apply N.div_lt; lia.
  - simpl. now rewrite pretty_N_char_digit.
Qed.

Lemma pretty_N_go_nonempty (x : N) (s : string) : s <> "" -> pretty_N_go x s <> "".
Proof.
  revert s. induction (N.lt_wf_0 x) as [x _ IH]. intros s Hs.
  destruct (N.eq_dec x 0) as [->|Hx]; [now rewrite pretty_N_go_0|].
  rewrite pretty_N_go_step by lia. apply IH.
  - apply N.div_lt; lia.
  - discriminate.
Qed.

Lemma pretty_digits (n : N) : all_chars is_digit (pretty n) = true.
Proof.
  unfold pretty, pretty_N. case_decide; [reflexivity|].
  now apply pretty_N_go_digits.
Qed.

Lemma pretty_nonempty (n : N) : pretty n <> "".
Proof.
  unfold pretty, pretty_N. case_decide; [discriminate|].
  rewrite pretty_N_go_step by lia. apply pretty_N_go_nonempty. discriminate.
Qed.

Lemma count_text_digits (n : N) : all_chars is_digit (count_text n) = true.
Proof. unfold count_text. destruct (n =? 1); [reflexivity|apply pretty_digits]. Qed.

Lemma count_text_inj (n n' : N) : count_text n = count_text n' -> n = n'.
Proof.
  unfold count_text.
  destruct (N.eqb_spec n 1) as [->|Hn], (N.eqb_spec n' 1) as [->|Hn']; intros E.
  - reflexivity.
  - symmetry in E. now apply pretty_nonempty in E.
  - now apply pretty_nonempty in E.
  - now apply (inj pretty).
Qed.

Lemma digits_stop_letters (s : string) : all_chars is_digit s = true -> stops is_letter s = true.
Proof.
  destruct s as [|c s]; [reflexivity|]. simpl.
  intros [Hc _]%andb_true_iff. now rewrite (digit_not_letter c Hc).
Qed.

(** *** What is written for an element *)

Section BaseKey.
Context `{Externals}.

Lemma hill_entry_text (carbon : bool) (e : N * N) :
  (hill_entry carbon e).2 = entry_text e.
Proof.
  unfold hill_entry, entry_text, entry_symbol, count_text. cbv zeta.
  destruct (zIsDeuterium e.1); [|destruct (e.1 <? N.of_nat (length symbol_db))];
    cbv beta iota; simpl; destruct (e.2 =? 1); now rewrite ?string_append_empty_r.
Qed.

(** The string is the texts of the entries, in some order. *)
Lemma hill_string_texts (chemform : ChemicalFormula) :
  exists texts,
    Permutation texts (map entry_text chemform) /\
    getChemicalFormulaInHillSystemString chemform = string_concat texts.
Proof.
  eexists. split; [|reflexivity].
  etransitivity.
  - apply Permutation_map, std_sort_Permutation.
  - rewrite map_map. erewrite map_ext; [reflexivity|].
    intros e. apply hill_entry_text.
Qed.

Lemma entry_symbol_kind (z : N) : z <> 0 -> SymbolKind z.
Proof.
  intros Hz.
  destruct (zIsDeuterium z) eqn:Hd.
  - apply WrittenD; [now apply N.eqb_eq in Hd|].
    unfold entry_symbol. now rewrite Hd.
  - destruct (z <? N.of_nat (length symbol_db)) eqn:Hlt.
    + apply N.ltb_lt in Hlt.
      destruct (symbol_db !! N.to_nat z) as [s|] eqn:Hs.
      * apply (WrittenSymbol z s); [now apply N.eqb_neq in Hd| |].
        -- rewrite lookup_tail. rewrite <- Hs. f_equal. lia.
        -- unfold entry_symbol. rewrite Hd, (proj2 (N.ltb_lt _ _) Hlt), Hs. reflexivity.
      * apply lookup_ge_None in Hs. lia.
    + apply WrittenElem. unfold entry_symbol. now rewrite Hd, Hlt.
Qed.

Lemma symbol_is_letters (s : string) : is_symbol_name s = true -> all_chars is_letter s = true.
Proof.
  destruct s as [|c s]; [discriminate|]. simpl.
  intros [Hc Hs]%andb_true_iff. unfold is_letter at 1. rewrite Hc. simpl.
  apply (all_chars_impl is_lower); [|assumption].
  intros c' Hc'. unfold is_letter. rewrite Hc'. apply orb_true_r.
Qed.

Lemma symbol_is_token (s t : string) :
  is_symbol_name s = true -> all_chars is_digit t = true -> is_token (s +:+ t) = true.
Proof.
  destruct s as [|c s]; [discriminate|]. rewrite string_app_cons. simpl.
  intros [Hc Hs]%andb_true_iff Ht. rewrite Hc, all_chars_app. simpl.
  apply andb_true_iff. split.
  - apply (all_chars_impl is_lower); [apply lower_not_upper|assumption].
  - apply (all_chars_impl is_digit); [apply digit_not_upper|assumption].
Qed.

Lemma table_symbol (z : N) (s : string) :
  symbols_wellformed -> tail symbol_db !! N.to_nat (z - 1) = Some s ->
  is_symbol_name s = true /\ s <> "D".
Proof.
  intros [_ Hall] Hs. rewrite List.Forall_forall in Hall. apply Hall.
  apply list_elem_of_In. eapply list_elem_of_lookup_2, Hs.
Qed.

(** Every entry is written as a token. *)
Lemma entry_text_token (e : N * N) :
  symbols_wellformed -> e.1 <> 0 -> is_token (entry_text e) = true.
Proof.
  intros Hwf Hz. unfold entry_text.
  pose proof (count_text_digits e.2) as Hdig.
  destruct (entry_symbol_kind e.1 Hz) as [_ ->|s _ Hs ->| ->].
  - now apply symbol_is_token.
  - apply symbol_is_token; [|assumption]. now apply (table_symbol e.1).
  - rewrite !string_app_assoc. simpl.
    change ("Elem<" +:+ pretty e.1 +:+ ">" +:+ count_text e.2)
      with (String "E" (String "l" (String "e" (String "m" (String "<"
              (pretty e.1 +:+ ">" +:+ count_text e.2)))))).
    simpl. rewrite !all_chars_app. simpl.
    rewrite (all_chars_impl is_digit _ (pretty e.1) digit_not_upper (pretty_digits e.1)).
    now rewrite (all_chars_impl is_digit _ _ digit_not_upper Hdig).
Qed.

(** Two entries that are written alike are the same entry. *)
Lemma entry_text_inj (e e' : N * N) :
  symbols_wellformed -> e.1 <> 0 -> e'.1 <> 0 ->
  entry_text e = entry_text e' -> e = e'.
Proof.
  intros Hwf Hz Hz'. unfold entry_text. intros E.
  pose proof (digits_stop_letters _ (count_text_digits e.2)) as Hd.
  pose proof (digits_stop_letters _ (count_text_digits e'.2)) as Hd'.
  assert (Hletters : forall z, z <> 0 ->
            (exists s, is_symbol_name s = true /\ entry_symbol z = s) \/
            entry_symbol z = "Elem<" +:+ pretty z +:+ ">").
  { intros z Hzz. destruct (entry_symbol_kind z Hzz) as [_ Hs|s _ Hs Hs'|Hs].
    - left. exists "D". now split.
    - left. exists s. split; [|assumption]. now apply (table_symbol z).
    - now right. }
  assert (Hmixed : forall (s : string) (z n n' : N), is_symbol_name s = true ->
            s +:+ count_text n <> ("Elem<" +:+ pretty z +:+ ">") +:+ count_text n').
  { intros s z n n' Hs Emix.
    change (("Elem<" +:+ pretty z +:+ ">") +:+ count_text n')
      with ("Elem" +:+ (String "<" ((pretty z +:+ ">") +:+ count_text n'))) in Emix.
    apply (span_unique is_letter) in Emix as [_ Emix];
      [|now apply symbol_is_letters|reflexivity
       |apply digits_stop_letters, count_text_digits|reflexivity].
    pose proof (count_text_digits n) as Hn. rewrite Emix in Hn. discriminate Hn. }
  assert (Hsym : entry_symbol e.1 = entry_symbol e'.1 /\ count_text e.2 = count_text e'.2).
  { destruct (Hletters e.1 Hz) as [(s & Hs & Es)|Es], (Hletters e'.1 Hz') as [(s' & Hs' & Es')|Es'];
      rewrite Es, Es' in E |- *.
    - apply (span_unique is_letter); auto using symbol_is_letters.
    - now apply Hmixed in E.
    - symmetry in E. now apply Hmixed in E.
    - rewrite !string_app_assoc in E. apply (inj (String.app "Elem<")) in E.
      apply (span_unique is_digit) in E as [Ez E];
        [|apply pretty_digits|apply pretty_digits|reflexivity|reflexivity].
      apply (inj (String.app ">")) in E. apply (inj pretty) in Ez.
      now rewrite Ez, E. }
  destruct Hsym as [Es En]. apply count_text_inj in En.
  destruct e as [z n], e' as [z' n']. simpl in *. subst n'. f_equal.
  destruct (entry_symbol_kind z Hz) as [Hzd Hs|s Hnd Hl Hs|Hs],
           (entry_symbol_kind z' Hz') as [Hzd' Hs'|s' Hnd' Hl' Hs'|Hs'].
  - congruence.
  - destruct (table_symbol z' s' Hwf Hl') as [_ HD]. congruence.
  - rewrite Hs, Hs' in Es. discriminate Es.
  - destruct (table_symbol z s Hwf Hl) as [_ HD]. congruence.
  - destruct Hwf as [Hnd0 _]. apply (proj2 (NoDup_ListNoDup _)) in Hnd0.
    assert (N.to_nat (z - 1) = N.to_nat (z' - 1)) by
      (eapply NoDup_lookup; [exact Hnd0|exact Hl|congruence]).
    lia.
  - destruct (table_symbol z s Hwf Hl) as [Hname _].
    apply symbol_is_letters in Hname. rewrite <- Hs, Es, Hs' in Hname. discriminate Hname.
  - rewrite Hs, Hs' in Es. discriminate Es.
  - destruct (table_symbol z' s' Hwf Hl') as [Hname _].
    apply symbol_is_letters in Hname. rewrite <- Hs', <- Es, Hs in Hname. discriminate Hname.
  - rewrite Hs, Hs' in Es. apply (inj (String.app "Elem<")) in Es.
    apply (span_unique is_digit) in Es as [Ez _];
      [|apply pretty_digits|apply pretty_digits|reflexivity|reflexivity].
    now apply (inj pretty) in Ez.
Qed.

(** A string is cut into tokens in one way only. *)
Lemma token_nonempty (t : string) : is_token t = true -> exists c u, t = String c u.
Proof. destruct t as [|c u]; [discriminate|]. eauto. Qed.

Lemma tokens_stop (l : list string) :
  List.Forall (fun t => is_token t = true) l ->
  stops (fun c => negb (is_upper c)) (string_concat l) = true.
Proof.
  destruct 1 as [|t l Ht _]; [reflexivity|].
  destruct t as [|c u]; [discriminate|]. simpl in Ht.
  apply andb_true_iff in Ht as [Hc _].
  unfold string_concat. cbn [fold_right]. rewrite string_app_cons. simpl. now rewrite Hc.
Qed.

Lemma string_concat_tokens_inj (l1 l2 : list string) :
  List.Forall (fun t => is_token t = true) l1 ->
  List.Forall (fun t => is_token t = true) l2 ->
  string_concat l1 = string_concat l2 -> l1 = l2.
Proof.
  intros H1. revert l2. induction H1 as [|t1 l1 Ht1 Hl1 IH]; intros l2 H2 E.
  - destruct H2 as [|t2 l2 Ht2 _]; [reflexivity|].
    destruct (token_nonempty t2 Ht2) as (c & u & ->). discriminate E.
  - destruct H2 as [|t2 l2 Ht2 Hl2].
    + destruct (token_nonempty t1 Ht1) as (c & u & ->). discriminate E.
    + destruct t1 as [|c1 u1]; [discriminate|]. destruct t2 as [|c2 u2]; [discriminate|].
      simpl in Ht1, Ht2. unfold string_concat in E. cbn [fold_right] in E.
      fold (string_concat l1) in E. fold (string_concat l2) in E.
      rewrite !string_app_cons in E.
      apply andb_true_iff in Ht1 as [_ Hu1], Ht2 as [_ Hu2].
      injection E as -> E.
      apply (span_unique (fun c => negb (is_upper c))) in E as [-> E];
        auto using tokens_stop.
      f_equal. now apply IH.
Qed.

Lemma map_inj_on {A B} (f : A -> B) (P : A -> Prop) (l l' : list A) :
  (forall x y, P x -> P y -> f x = f y -> x = y) ->
  List.Forall P l -> List.Forall P l' -> map f l = map f l' -> l = l'.
Proof.
  intros Hinj Hl. revert l'. induction Hl as [|x l Hx Hl IH]; intros [|y l'] Hl' E;
    try discriminate; [reflexivity|].
  inversion Hl' as [|? ? Hy Hl'']; subst. injection E as Exy E.
  f_equal; [now apply Hinj|now apply IH].
Qed.

Lemma strictly_increasing_sorted (cf : ChemicalFormula) :
  strictly_increasing cf -> StronglySorted (fun a b => upair_le a b = true) cf.
Proof.
  apply StronglySorted_weaken. intros x y _ _ Hlt. unfold upair_le.
  now rewrite (proj2 (N.compare_lt_iff _ _) Hlt).
Qed.

Lemma hill_string_inj (cf1 cf2 : ChemicalFormula) :
  symbols_wellformed ->
  strictly_increasing cf1 -> strictly_increasing cf2 ->
  List.Forall (fun e : N * N => e.1 <> 0) cf1 ->
  List.Forall (fun e : N * N => e.1 <> 0) cf2 ->
  getChemicalFormulaInHillSystemString cf1 = getChemicalFormulaInHillSystemString cf2 ->
  cf1 = cf2.
Proof.
  intros Hwf Hs1 Hs2 Hz1 Hz2 E.
  destruct (hill_string_texts cf1) as (t1 & P1 & E1).
  destruct (hill_string_texts cf2) as (t2 & P2 & E2).
  rewrite E1, E2 in E.
  assert (Htok : forall cf texts, List.Forall (fun e : N * N => e.1 <> 0) cf ->
            Permutation texts (map entry_text cf) ->
            List.Forall (fun t => is_token t = true) texts).
  { intros cf texts Hz Hp. rewrite List.Forall_forall in Hz |- *. intros t Ht.
    apply (Permutation_in _ Hp) in Ht. apply in_map_iff in Ht as (e & <- & He).
    apply entry_text_token; auto. }
  apply string_concat_tokens_inj in E; [|now apply (Htok cf1)|now apply (Htok cf2)].
  subst t2.
  assert (Hp : Permutation (map entry_text cf1) (map entry_text cf2)).
  { etransitivity; [symmetry; exact P1|exact P2]. }
  apply Permutation_map_inv in Hp as (cf3 & E3 & P3).
  assert (Hz3 : List.Forall (fun e : N * N => e.1 <> 0) cf3).
  { rewrite List.Forall_forall in Hz2 |- *. intros e He. apply Hz2.
    eapply Permutation_in; [symmetry; exact P3|exact He]. }
  apply (map_inj_on entry_text (fun e => e.1 <> 0)) in E3; auto;
    [|intros x y Hx Hy; now apply entry_text_inj].
  subst cf3.
  apply (sort_unique upair_le upair_le_antisym);
    auto using strictly_increasing_sorted.
  now symmetry.
Qed.

End BaseKey.

Section BaseKeyFormula.
Context `{Externals}.

(** X3. With Geant4's table of symbols as it is (different symbols, each
    a capital letter followed by small letters, none of them "D"), the
    Hill-system string tells the formula: two formulas sorted by atomic
    number that are written the same are the same formula. *)
Theorem hill_string_identifies_formula (cf1 cf2 : ChemicalFormula) :
  symbols_wellformed ->
  strictly_increasing cf1 -> strictly_increasing cf2 ->
  List.Forall (fun e : N * N => validNCrystalZValue e.1 = true) cf1 ->
  List.Forall (fun e : N * N => validNCrystalZValue e.1 = true) cf2 ->
  getChemicalFormulaInHillSystemString cf1 = getChemicalFormulaInHillSystemString cf2 ->
  cf1 = cf2.
Proof.
  intros Hwf Hs1 Hs2 Hv1 Hv2.
  apply hill_string_inj; auto.
  all: eapply List.Forall_impl; [|eassumption]; intros e He Hz; cbv beta in He;
    rewrite Hz in He; discriminate He.
Qed.

Lemma getChemicalFormula_wellformed (info : Info) (cf : ChemicalFormula) :
  getChemicalFormula info = Ok cf ->
  strictly_increasing cf /\ List.Forall (fun e : N * N => e.1 <> 0) cf.
Proof.
  intros Hcf.
  assert (Hvalid : forall l : ChemicalFormula,
            List.Forall (fun e : N * N => validNCrystalZValue e.1 = true) l ->
            List.Forall (fun e : N * N => e.1 <> 0) l).
  { intros l. apply List.Forall_impl. intros e He Hz. cbv beta in He.
    rewrite Hz in He. discriminate He. }
  destruct (atomInfo info) as [atoms|] eqn:Ha.
  - destruct (getChemicalFormula_Ok info atoms cf Ha Hcf) as (_ & _ & Hs & Hv). auto.
  - unfold getChemicalFormula in Hcf. rewrite Ha in Hcf.
    destruct (monoatomic_Z info) as [z|] eqn:Hm; injection Hcf as <-.
    + split; [repeat constructor|]. apply Hvalid. repeat constructor.
      now apply (monoatomic_Z_valid info).
    + split; constructor.
Qed.

Lemma hill_string_starts_upper (cf : ChemicalFormula) :
  symbols_wellformed -> cf <> [] -> List.Forall (fun e : N * N => e.1 <> 0) cf ->
  exists c rest, getChemicalFormulaInHillSystemString cf = String c rest /\ is_upper c = true.
Proof.
  intros Hwf Hne Hz.
  destruct (hill_string_texts cf) as (texts & Hp & ->).
  destruct texts as [|t texts].
  { apply Permutation_nil in Hp. destruct cf; [congruence|discriminate]. }
  assert (Ht : is_token t = true).
  { assert (Hin : In t (map entry_text cf)) by (apply (Permutation_in _ Hp); now left).
    apply in_map_iff in Hin as (e & <- & He).
    rewrite List.Forall_forall in Hz. apply entry_text_token; auto. }
  destruct t as [|c u]; [discriminate|]. simpl in Ht.
  apply andb_true_iff in Ht as [Hc _].
  exists c, (u +:+ string_concat texts). split; [reflexivity|assumption].
Qed.

Lemma composition_key_start (comp : list (string * float)) :
  composition_key comp = "" \/ exists rest, composition_key comp = String "_" rest.
Proof.
  destruct comp as [|ef comp]; [now left|]. right. eexists. reflexivity.
Qed.

Lemma base_chemform_key (info : Info) (cf : ChemicalFormula) (key : string) :
  base_chemform info = Ok (cf, key) ->
  getChemicalFormula info = Ok cf /\
  (cf = [] -> key = composition_key (getComposition info)) /\
  (cf <> [] -> key = getChemicalFormulaInHillSystemString cf).
Proof.
  unfold base_chemform.
  destruct (getChemicalFormula info) as [[|e l]|e]; [| |discriminate].
  - destruct (negb (hasComposition info)); [discriminate|].
    intros [= <- <-]. split; [reflexivity|]. split; [reflexivity|congruence].
  - intros [= <- <-]. split; [reflexivity|]. split; [discriminate|reflexivity].
Qed.

(** X4. The key of the base cache tells the formula: two materials whose
    base material is looked up under the same key have the same reduced
    formula, or both have none (their key is made of the fractions of
    the composition then, and no formula has such a key). *)
Theorem base_key_identifies_formula (info1 info2 : Info) (cf1 cf2 : ChemicalFormula)
    (key : string) :
  symbols_wellformed ->
  base_chemform info1 = Ok (cf1, key) -> base_chemform info2 = Ok (cf2, key) ->
  cf1 = cf2.
Proof.
  intros Hwf H1 H2.
  destruct (base_chemform_key info1 cf1 key H1) as (Hcf1 & Hnil1 & Hform1).
  destruct (base_chemform_key info2 cf2 key H2) as (Hcf2 & Hnil2 & Hform2).
  destruct (getChemicalFormula_wellformed info1 cf1 Hcf1) as [Hs1 Hz1].
  destruct (getChemicalFormula_wellformed info2 cf2 Hcf2) as [Hs2 Hz2].
  assert (Hmixed : forall (cf : ChemicalFormula) (comp : list (string * float)),
            cf <> [] -> List.Forall (fun e : N * N => e.1 <> 0) cf ->
            getChemicalFormulaInHillSystemString cf <> composition_key comp).
  { intros cf comp Hne Hz E.
    destruct (hill_string_starts_upper cf Hwf Hne Hz) as (c & rest & Ec & Hc).
    rewrite Ec in E.
    destruct (composition_key_start comp) as [E'|[rest' E']]; rewrite E' in E;
      [discriminate|].
    injection E as -> _. discriminate Hc. }
  destruct cf1 as [|e1 l1], cf2 as [|e2 l2].
  - reflexivity.
  - exfalso. apply (Hmixed (e2 :: l2) (getComposition info1)); [discriminate|assumption|].
    rewrite <- Hnil1, <- Hform2 by (reflexivity || discriminate). reflexivity.
  - exfalso. apply (Hmixed (e1 :: l1) (getComposition info2)); [discriminate|assumption|].
    rewrite <- Hnil2, <- Hform1 by (reflexivity || discriminate). reflexivity.
  - apply hill_string_inj; auto.
    rewrite <- Hform1, <- Hform2 by discriminate. reflexivity.
Qed.

End BaseKeyFormula.
(** ** The base material *)

Lemma G4int_of_unsigned_small (n : N) : n < 2 ^ 31 -> G4int_of_unsigned n = Z.of_N n.
Proof.
  intros Hn. unfold G4int_of_unsigned. cbv zeta.
  assert (Hz : (0 <= Z.of_N n < 2 ^ 31)%Z) by lia.
  rewrite Z.mod_small by lia.
  destruct (Z.ltb_spec (Z.of_N n) (2 ^ 31)); lia.
Qed.

Section BaseMaterial.
Context `{Externals}.

Lemma getChemicalFormula_valid (info : Info) (cf : ChemicalFormula) :
  getChemicalFormula info = Ok cf ->
  List.Forall (fun e : N * N => validNCrystalZValue e.1 = true) cf.
Proof.
  intros Hcf. destruct (atomInfo info) as [atoms|] eqn:Ha.
  - now destruct (getChemicalFormula_Ok info atoms cf Ha Hcf) as (_ & _ & _ & Hv).
  - unfold getChemicalFormula in Hcf. rewrite Ha in Hcf.
    destruct (monoatomic_Z info) as [z|] eqn:Hm; injection Hcf as <-.
    + repeat constructor. now apply (monoatomic_Z_valid info).
    + constructor.
Qed.

Lemma valid_Z_small (z : N) : validNCrystalZValue z = true -> z < 2 ^ 31.
Proof.
  unfold validNCrystalZValue, zIsDeuterium, specialZValueDeuterium.
  intros [[_ Hz]%andb_true_iff|Hz%N.eqb_eq]%orb_true_iff.
  - apply N.ltb_lt in Hz. lia.
  - subst z. reflexivity.
Qed.

(** X5. A base material that is built is complete: it has as many
    elements as its constructor was told, it is a solid of 1 g/cm3 at
    1 atm, and it is named after its key. For a material with a formula
    these are the elements of the formula, each with its count as the number
    of atoms, and the Hill-system string is set as the chemical formula.
    For a material without one they are the elements of the composition,
    each with a fraction of the mass, and no chemical formula is set. *)
Theorem base_material_complete (info : Info) (w w' : World) (mat : nat) :
  getBaseG4MaterialWithCache info w = (Ok mat, w') ->
  (length (materialTable w) <= mat)%nat ->
  exists m chemform chemform_str,
    materialTable w' !! mat = Some (Some m) /\
    getChemicalFormula info = Ok chemform /\
    base_cache w' !! chemform_str = Some mat /\
    mat_name m = "NCrystalBaseMat::" +:+ chemform_str /\
    mat_origin m = FromComponents (N.of_nat (length (mat_elements m))) /\
    mat_state m = kStateSolid /\
    mat_density m = (1.0 * CLHEP_gram / CLHEP_cm3)%float /\
    mat_pressure m = (1.0 * CLHEP_atmosphere)%float /\
    (chemform <> [] ->
       chemform_str = getChemicalFormulaInHillSystemString chemform /\
       mat_chemicalFormula m = chemform_str /\
       map fst (mat_elements m) = map (fun e : N * N => element_of_Z e.1) chemform /\
       Forall2 (fun (e : N * N) (el : G4Element * ElementAmount) =>
                  e.2 < 2 ^ 31 -> el.2 = AtomCount (Z.of_N e.2))
               chemform (mat_elements m)) /\
    (chemform = [] ->
       mat_chemicalFormula m = "" /\
       map fst (mat_elements m)
       = map (fun ef : string * float => element_of_name ef.1) (getComposition info) /\
       List.Forall (fun el : G4Element * ElementAmount => exists f, el.2 = MassFraction f)
                   (mat_elements m)).
Proof.
  intros Hrun Hnew.
  assert (Hkey : exists chemform chemform_str,
             base_chemform info = Ok (chemform, chemform_str) /\
             materialTable w' !! mat
             = Some (Some (built_base_material info chemform chemform_str)) /\
             base_cache w' !! chemform_str = Some mat).
  { rewrite getBaseG4MaterialWithCache_eq in Hrun.
    destruct (base_chemform info) as [[cf k]|e]; [|discriminate].
    rewrite cache_lookup_eq in Hrun. exists cf, k. split; [reflexivity|].
    assert (Hbuilt : forall r w0, (Ok (length (materialTable w)), with_base_material info cf k w)
                                  = (r, w0) -> (Ok mat, w') = (r, w0) ->
              materialTable w' !! mat = Some (Some (built_base_material info cf k)) /\
              base_cache w' !! k = Some mat).
    { intros r w0 <- [= -> ->]. simpl. split.
      - apply list_lookup_middle. reflexivity.
      - apply lookup_insert_eq. }
    destruct (base_cache w !! k) as [idx|]; [|now eapply Hbuilt].
    destruct (materialTable w !! idx) as [[m|]|] eqn:Hm.
    - injection Hrun as <- <-. apply lookup_lt_Some in Hm. lia.
    - now eapply Hbuilt.
    - discriminate. }
  destruct Hkey as (cf & k & Hbase & Hm & Hc).
  destruct (base_chemform_key info cf k Hbase) as (Hcf & Hnil & Hform).
  exists (built_base_material info cf k), cf, k.
  split; [assumption|]. split; [assumption|]. split; [assumption|].
  split; [reflexivity|].
  split.
  { unfold built_base_material. simpl. destruct cf as [|e cf]; simpl.
    - unfold fraction_elements, mass_contributions. now rewrite !length_map.
    - now rewrite length_map. }
  split; [reflexivity|]. split; [reflexivity|]. split; [reflexivity|].
  pose proof (getChemicalFormula_valid info cf Hcf) as Hvalid.
  split.
  - intros Hne. split; [now apply Hform|].
    destruct cf as [|e cf]; [congruence|]. split; [reflexivity|].
    unfold built_base_material. cbn [mat_elements is_nil].
    split.
    + rewrite map_map. apply map_ext_in. intros [z n] Hin.
      rewrite List.Forall_forall in Hvalid. specialize (Hvalid _ Hin). simpl in Hvalid.
      unfold formula_element, element_of_Z. simpl.
      destruct (zIsDeuterium z); [reflexivity|].
      now rewrite G4int_of_unsigned_small by now apply valid_Z_small.
    + apply Forall2_fmap_r, Forall_Forall2_diag, Forall_forall.
      intros [z n] _ Hn. simpl in *. now rewrite G4int_of_unsigned_small.
  - intros ->. unfold built_base_material. cbn [mat_elements mat_chemicalFormula is_nil].
    split; [reflexivity|]. split.
    + unfold fraction_elements, mass_contributions. rewrite !map_map. reflexivity.
    + unfold fraction_elements. apply List.Forall_forall. intros el Hin.
      apply in_map_iff in Hin as (x & <- & _). eexists. reflexivity.
Qed.

End BaseMaterial.
(** ** Requests, constructions and deletions in any order *)

Section Histories.
Context `{Externals}.

Lemma prefix_empty (s : string) : String.prefix "" s = true.
Proof. now destruct s. Qed.

Lemma derived_pointer_derived (i : nat) (key : string) :
  derived_pointer (EvNewG4Material i (matnameprefix +:+ key)) = Some i.
Proof.
  unfold derived_pointer, matnameprefix.
  change ("NCrystal::" +:+ key)
    with (String "N" (String "C" (String "r" (String "y" (String "s" (String "t"
            (String "a" (String "l" (String ":" (String ":" key)))))))))).
  simpl. now rewrite prefix_empty.
Qed.

Lemma derived_pointer_base (i : nat) (key : string) :
  derived_pointer (EvNewG4Material i (base_matnameprefix +:+ key)) = None.
Proof. reflexivity. Qed.

Lemma derived_pointers_app (l1 l2 : list Event) :
  derived_pointers (l1 ++ l2) = derived_pointers l1 ++ derived_pointers l2.
Proof. apply omap_app. Qed.

Lemma derived_pointers_snoc_derived (l : list Event) (i : nat) (key : string) :
  derived_pointers (l ++ [EvNewG4Material i (matnameprefix +:+ key)])
  = derived_pointers l ++ [i].
Proof.
  rewrite derived_pointers_app. f_equal.
  unfold derived_pointers. cbn [omap list_omap].
  now rewrite derived_pointer_derived.
Qed.

Lemma derived_pointers_snoc_base (l : list Event) (i : nat) (key : string) :
  derived_pointers (l ++ [EvNewG4Material i (base_matnameprefix +:+ key)])
  = derived_pointers l.
Proof. rewrite derived_pointers_app. apply app_nil_r. Qed.

Lemma derived_pointers_failed (cfg : MatCfg) (e : Exception) (evs : list Event) :
  build_attempt cfg = inl (e, evs) -> derived_pointers evs = [].
Proof.
  intros Hb. destruct (build_attempt_events cfg e evs Hb) as [-> | [-> | ->]]; reflexivity.
Qed.

(** *** The outcomes of a request *)

Lemma missing_lookup (c : gmap string nat) (w : World) (key : string) :
  (forall idx, c !! key = Some idx -> (idx < length (materialTable w))%nat) ->
  (exists mat, ready c w key mat /\ (cache_lookup c key w).1 = Ok (Some mat)) \/
  (missing c w key /\ (cache_lookup c key w).1 = Ok None).
Proof.
  intros Hrange. rewrite cache_lookup_eq. unfold ready, missing, live.
  destruct (c !! key) as [idx|] eqn:Hc.
  - destruct (materialTable w !! idx) as [[m|]|] eqn:Hm.
    + left. exists idx. split; [|reflexivity]. split; [reflexivity|]. now exists m.
    + right. split; [|reflexivity]. now intros ? [= <-].
    + apply lookup_ge_None in Hm. specialize (Hrange idx eq_refl). lia.
  - right. split; [|reflexivity]. discriminate.
Qed.

Lemma request_outcome (cfg : MatCfg) (w : World) :
  caches_in_range w ->
  RequestOutcome cfg w (createMaterial_MatCfg cfg w).1 (createMaterial_MatCfg cfg w).2.
Proof.
  intros [Hc Hb].
  rewrite createMaterial_MatCfg_eq, getG4MaterialWithCache_eq.
  destruct (missing_lookup (cache w) w (toStrCfg cfg) (Hc (toStrCfg cfg)))
    as [(mat & Hready & Hl)|[Hmiss Hl]];
    rewrite (surjective_pairing (cache_lookup (cache w) (toStrCfg cfg) w)), Hl.
  { simpl. now apply CacheHit. }
  rewrite build_material_attempt.
  destruct (build_attempt cfg) as [[e evs]|[[[scatter info] chemform] chemform_str]] eqn:Hbuild.
  - destruct (build_attempt_NCrystalError cfg e evs Hbuild) as [ne ->].
    simpl. now apply BuildFailed.
  - cbv zeta.
    destruct (missing_lookup (base_cache w) w chemform_str (Hb chemform_str))
      as [(matBase & Hready & Hlb)|[Hmissb Hlb]]; rewrite Hlb; simpl.
    + now apply (BuiltOnBase cfg w scatter info chemform chemform_str).
    + now apply (BuiltWithBase cfg w scatter info chemform chemform_str).
Qed.

(** *** What every step keeps *)

Lemma helper_invariant_initial (table : list (option G4Material)) :
  helper_invariant (initial_world table).
Proof.
  split; simpl.
  - apply caches_in_range_initial.
  - intros key idx m Hk. now rewrite lookup_empty in Hk.
  - intros key idx m Hk. now rewrite lookup_empty in Hk.
  - reflexivity.
  - intros mat s [].
  - intros ptr [].
  - constructor.
  - intros key idx Hk. now rewrite lookup_empty in Hk.
Qed.

Lemma helper_invariant_set_calls (w : World) (evs : list Event) :
  helper_invariant w -> derived_pointers evs = [] ->
  helper_invariant (set_calls (calls w ++ evs) w).
Proof.
  intros [] Hevs. split; simpl; rewrite ?derived_pointers_app, ?Hevs, ?app_nil_r; auto.
Qed.

Lemma lookup_old {A} (l : list A) (x : A) (i : nat) :
  (i < length l)%nat -> (l ++ [x]) !! i = l !! i.
Proof. intros Hi. now apply lookup_app_l. Qed.

Lemma helper_invariant_push (w : World) (m : G4Material) :
  helper_invariant w -> helper_invariant (push_material m w).
Proof.
  intros [[Hc Hb] Hd Hba Hs Hso Hp Hn Hca]. split; simpl; try assumption.
  - split; simpl; intros key idx Hk; rewrite length_app; simpl.
    + specialize (Hc key idx Hk). lia.
    + specialize (Hb key idx Hk). lia.
  - intros key idx m' Hk. rewrite lookup_old by now apply (Hc key). now apply Hd.
  - intros key idx m' Hk. rewrite lookup_old by now apply (Hb key). now apply Hba.
  - intros mat s Hin. destruct (Hso mat s Hin) as (cfg & Hcfg & Hname).
    exists cfg. split; [assumption|]. intros m'. rewrite lookup_old; [apply Hname|].
    apply Hp. rewrite <- Hs. apply in_map_iff. now exists (mat, s).
  - intros ptr Hin. rewrite length_app. specialize (Hp ptr Hin). lia.
Qed.

Lemma helper_invariant_delete (w : World) (mat : nat) :
  helper_invariant w -> helper_invariant (delete_G4Material mat w).
Proof.
  intros Hinv. pose proof (hi_range w Hinv) as Hr.
  destruct Hinv as [_ Hd Hba Hs Hso Hp Hn Hca].
  assert (Hold : forall idx m, alter (fun _ => None) mat (materialTable w) !! idx = Some (Some m) ->
                               materialTable w !! idx = Some (Some m)).
  { intros idx m. destruct (decide (mat = idx)) as [->|Hne].
    - rewrite list_lookup_alter_eq. destruct (materialTable w !! idx); discriminate.
    - now rewrite list_lookup_alter_ne. }
  split; simpl; try assumption.
  - now apply caches_in_range_delete.
  - intros key idx m Hk Hm. apply (Hd key idx m Hk), Hold, Hm.
  - intros key idx m Hk Hm. apply (Hba key idx m Hk), Hold, Hm.
  - intros mat' s Hin. destruct (Hso mat' s Hin) as (cfg & Hcfg & Hname).
    exists cfg. split; [assumption|]. intros m Hm. apply Hname, Hold, Hm.
  - intros ptr Hin. rewrite length_alter. now apply Hp.
Qed.

Lemma helper_invariant_with_base (w : World) (info : Info) (chemform : ChemicalFormula)
    (chemform_str : string) :
  helper_invariant w ->
  helper_invariant (with_base_material info chemform chemform_str w).
Proof.
  intros Hinv. pose proof (hi_range w Hinv) as Hr.
  destruct Hinv as [[Hc Hb] Hd Hba Hs Hso Hp Hn Hca].
  split; unfold with_base_material;
    cbn [materialTable cache base_cache scatterProperties calls];
    rewrite ?derived_pointers_snoc_base; try assumption.
  - now apply caches_in_range_with_base.
  - intros key idx m Hk. rewrite lookup_old by now apply (Hc key). now apply Hd.
  - intros key idx m.
    destruct (decide (chemform_str = key)) as [->|Hne].
    + rewrite lookup_insert_eq. intros [= <-].
      rewrite list_lookup_middle by reflexivity. intros [= <-].
      split; [reflexivity|]. eexists. reflexivity.
    + rewrite lookup_insert_ne by assumption. intros Hk.
      rewrite lookup_old by now apply (Hb key). now apply Hba.
  - intros mat s Hin. destruct (Hso mat s Hin) as (cfg & Hcfg & Hname).
    exists cfg. split; [assumption|]. intros m'. rewrite lookup_old; [apply Hname|].
    apply Hp. rewrite <- Hs. apply in_map_iff. now exists (mat, s).
  - intros ptr Hin. rewrite length_app. specialize (Hp ptr Hin). lia.
Qed.

Lemma helper_invariant_with_derived (w : World) (cfg : MatCfg) (info : Info)
    (scatter : Scatter) (matBase : nat) :
  helper_invariant w -> (matBase < length (materialTable w))%nat ->
  createScatter cfg = inr scatter ->
  helper_invariant (with_derived_material cfg info scatter matBase w).
Proof.
  intros Hinv Hbase Hscatter. pose proof (hi_range w Hinv) as Hr.
  destruct Hinv as [[Hc Hb] Hd Hba Hs Hso Hp Hn Hca].
  split; unfold with_derived_material;
    cbn [materialTable cache base_cache scatterProperties calls];
    rewrite ?derived_pointers_snoc_derived.
  - now apply caches_in_range_with_derived.
  - intros key idx m.
    destruct (decide (toStrCfg cfg = key)) as [<-|Hne].
    + rewrite lookup_insert_eq. intros [= <-].
      rewrite list_lookup_middle by reflexivity. intros [= <-].
      split; [reflexivity|]. exists matBase. split; [reflexivity|assumption].
    + rewrite lookup_insert_ne by assumption. intros Hk.
      rewrite lookup_old by now apply (Hc key). now apply Hd.
  - intros key idx m Hk. rewrite lookup_old by now apply (Hb key). now apply Hba.
  - rewrite map_app, Hs. reflexivity.
  - intros mat s [Hin|[[= <- <-]|[]]]%in_app_or.
    + destruct (Hso mat s Hin) as (cfg0 & Hcfg & Hname).
      exists cfg0. split; [assumption|]. intros m'. rewrite lookup_old; [apply Hname|].
      apply Hp. rewrite <- Hs. apply in_map_iff. now exists (mat, s).
    + exists cfg. split; [assumption|]. intros m.
      rewrite list_lookup_middle by reflexivity. now intros [= <-].
  - intros ptr [Hin|[<-|[]]]%in_app_or; rewrite length_app; simpl; [|lia].
    specialize (Hp ptr Hin). lia.
  - apply NoDup_ListNoDup, NoDup_app. split; [now apply NoDup_ListNoDup|].
    split; [|apply NoDup_singleton].
    intros ptr Hin ->%list_elem_of_singleton. apply list_elem_of_In, Hp in Hin. lia.
  - intros key idx.
    destruct (decide (toStrCfg cfg = key)) as [<-|Hne].
    + rewrite lookup_insert_eq. intros [= <-]. apply in_or_app. right. now left.
    + rewrite lookup_insert_ne by assumption. intros Hk. apply in_or_app. left.
      now apply (Hca key).
Qed.

Lemma helper_invariant_outcome (cfg : MatCfg) (w w' : World) (r : Result (option nat)) :
  helper_invariant w -> RequestOutcome cfg w r w' -> helper_invariant w'.
Proof.
  intros Hinv [mat Hready|e evs Hmiss Hbuild|scatter info cf k matBase Hmiss Hbuild Hready
              |scatter info cf k Hmiss Hbuild Hmissb].
  - assumption.
  - unfold log_call.
    apply (helper_invariant_set_calls _ [handled e]); [|reflexivity].
    apply helper_invariant_set_calls; [assumption|].
    now apply (derived_pointers_failed cfg (NCrystalError e)).
  - destruct (build_attempt_inr _ _ _ _ _ Hbuild) as (_ & Hs & _).
    apply helper_invariant_with_derived; [| |assumption].
    + now apply helper_invariant_set_calls.
    + destruct Hready as [_ Hlive]. now apply live_lt in Hlive.
  - destruct (build_attempt_inr _ _ _ _ _ Hbuild) as (_ & Hs & _).
    apply helper_invariant_with_derived; [| |assumption].
    + apply helper_invariant_with_base. now apply helper_invariant_set_calls.
    + simpl. rewrite length_app. simpl. lia.
Qed.

Lemma helper_invariant_action (a : Action) (w : World) :
  helper_invariant w -> helper_invariant (run_action a w).
Proof.
  intros Hinv. destruct a as [cfg|m|mat]; simpl.
  - eapply helper_invariant_outcome; [exact Hinv|].
    apply request_outcome, (hi_range w Hinv).
  - now apply helper_invariant_push.
  - now apply helper_invariant_delete.
Qed.

Lemma helper_invariant_reachable (w : World) :
  reachable_world w -> helper_invariant w.
Proof.
  intros (table & actions & ->).
  unfold run_actions. generalize (helper_invariant_initial table).
  generalize (initial_world table). induction actions as [|a actions IH]; intros w0 H0.
  - exact H0.
  - simpl. apply IH. now apply helper_invariant_action.
Qed.

End Histories.
(** ** What a request gives, whatever happened before *)

Section AnyHistory.
Context `{Externals}.

Lemma reachable_in_range (w : World) : reachable_world w -> caches_in_range w.
Proof. intros Hw. apply hi_range. now apply helper_invariant_reachable. Qed.

(** X6. Whatever the application has requested, built and deleted before,
    [createMaterial] returns without an exception, and it returns a null
    pointer, with the material table and the caches as they were, or a
    pointer to a material that is not deleted: the one named "NCrystal::"
    and the key of the configuration, made from a base material built
    before it, cached under the key, and with a scatter property
    attached. *)
Theorem request_returns_its_material (w w' : World) (cfg : MatCfg)
    (r : Result (option nat)) :
  reachable_world w ->
  createMaterial_MatCfg cfg w = (r, w') ->
  (r = Ok None /\ materialTable w' = materialTable w /\
   cache w' = cache w /\ base_cache w' = base_cache w) \/
  (exists mat m b s,
     r = Ok (Some mat) /\
     materialTable w' !! mat = Some (Some m) /\
     mat_name m = "NCrystal::" +:+ toStrCfg cfg /\
     mat_origin m = FromBaseMaterial b /\ (b < mat)%nat /\
     cache w' !! toStrCfg cfg = Some mat /\
     In (mat, s) (scatterProperties w')).
Proof.
  intros Hreach Hrun.
  pose proof (helper_invariant_reachable w Hreach) as Hinv.
  pose proof (request_outcome cfg w (hi_range w Hinv)) as Hout.
  rewrite Hrun in Hout. simpl in Hout.
  pose proof (helper_invariant_outcome cfg w w' r Hinv Hout) as Hinv'.
  assert (Hready : forall mat, r = Ok (Some mat) -> ready (cache w') w' (toStrCfg cfg) mat).
  { intros mat ->. rewrite createMaterial_MatCfg_eq in Hrun.
    destruct (getG4MaterialWithCache cfg w) as [[mat'|[e|]] w1] eqn:Hg; [|discriminate..].
    injection Hrun as <- <-. now apply (getG4MaterialWithCache_ready cfg w). }
  destruct r as [[mat|]|e].
  - right. destruct (Hready mat eq_refl) as [Hc [m Hm]].
    destruct (hi_derived w' Hinv' _ _ _ Hc Hm) as (Hname & b & Hb & Hlt).
    assert (Hin : In mat (map fst (scatterProperties w'))).
    { rewrite (hi_scatter w' Hinv'). now apply (hi_cached w' Hinv' (toStrCfg cfg)). }
    apply in_map_iff in Hin as ([mat' s] & Hfst & Hin). simpl in Hfst. subst mat'.
    exists mat, m, b, s. repeat (split; [assumption || reflexivity|]). assumption.
  - left. inversion Hout; subst. auto.
  - inversion Hout.
Qed.

(** X7. The scatter properties are those of the derived materials: in
    every state of the process there is one for each derived material
    that was built, in the order in which they were built, and no other;
    every cached material has one; and each is the scatter object
    [createScatter] made for a configuration with the key the material is
    named after. *)
Theorem one_scatter_property_per_material (w : World) :
  reachable_world w ->
  map fst (scatterProperties w) = derived_pointers (calls w) /\
  List.NoDup (map fst (scatterProperties w)) /\
  (forall key mat, cache w !! key = Some mat ->
     exists s, In (mat, s) (scatterProperties w)) /\
  (forall mat s, In (mat, s) (scatterProperties w) ->
     (mat < length (materialTable w))%nat /\
     exists cfg, createScatter cfg = inr s /\
       forall m, materialTable w !! mat = Some (Some m) ->
                 mat_name m = "NCrystal::" +:+ toStrCfg cfg).
Proof.
  intros Hreach. pose proof (helper_invariant_reachable w Hreach) as Hinv.
  split; [apply (hi_scatter w Hinv)|].
  split; [rewrite (hi_scatter w Hinv); apply (hi_nodup w Hinv)|].
  split.
  - intros key mat Hc.
    assert (Hin : In mat (map fst (scatterProperties w))).
    { rewrite (hi_scatter w Hinv). now apply (hi_cached w Hinv key). }
    apply in_map_iff in Hin as ([mat' s] & Hfst & Hin). simpl in Hfst. subst mat'.
    now exists s.
  - intros mat s Hin. split; [|now apply (hi_scatter_origin w Hinv)].
    apply (hi_pointers w Hinv). rewrite <- (hi_scatter w Hinv).
    apply in_map_iff. now exists (mat, s).
Qed.

(** X8. A cached material that has been deleted is not returned again:
    the next request for its key runs the build as if there were no
    entry. When the build succeeds, the material returned is a new one at
    the end of the table, the entry of the key points to it, exactly one
    derived material has been built, and the deleted entry of the table
    stays null. When it fails, the exception is an NCrystal exception and
    table and caches are as before. *)
Theorem deleted_material_is_built_again (w w' : World) (cfg : MatCfg) (mat : nat)
    (r : Result nat) :
  caches_in_range w ->
  cache w !! toStrCfg cfg = Some mat -> materialTable w !! mat = Some None ->
  getG4MaterialWithCache cfg w = (r, w') ->
  build_material cfg w = (r, w') /\
  materialTable w' !! mat = Some None /\
  match r with
  | Ok mat' =>
    mat' <> mat /\ (length (materialTable w) <= mat')%nat /\ live w' mat' /\
    cache w' !! toStrCfg cfg = Some mat' /\
    exists evs, calls w' = calls w ++ evs /\
                derived_builds (toStrCfg cfg) evs = 1%nat
  | Throw e =>
    (exists ne, e = NCrystalError ne) /\
    materialTable w' = materialTable w /\ cache w' = cache w /\
    base_cache w' = base_cache w
  end.
Proof.
  intros Hrange Hc Hm Hrun.
  assert (Hbuild : build_material cfg w = (r, w')).
  { rewrite getG4MaterialWithCache_eq, cache_lookup_eq, Hc, Hm in Hrun. exact Hrun. }
  split; [exact Hbuild|].
  pose proof (lookup_lt_Some _ _ _ Hm) as Hlt.
  rewrite build_material_attempt in Hbuild.
  destruct (build_attempt cfg) as [[e evs]|[[[scatter info] chemform] chemform_str]] eqn:Hatt.
  - injection Hbuild as <- <-. simpl. split; [assumption|].
    split; [now apply (build_attempt_NCrystalError cfg e evs)|]. auto.
  - cbv zeta in Hbuild. destruct Hrange as [_ Hb].
    destruct (missing_lookup (base_cache w) w chemform_str (Hb chemform_str))
      as [(matBase & Hready & Hlb)|[Hmissb Hlb]]; rewrite Hlb in Hbuild;
      injection Hbuild as <- <-;
      unfold with_derived_material, with_base_material, set_calls;
      cbn [materialTable cache base_cache calls scatterProperties].
    + split; [now rewrite lookup_app_l|].
      split; [lia|]. split; [lia|].
      split; [eexists; now apply list_lookup_middle|].
      split; [apply lookup_insert_eq|].
      eexists. split; [rewrite <- app_assoc; reflexivity|].
      unfold derived_builds. cbn [app]. rewrite !count_events_cons, count_events_nil.
      rewrite is_new_derived_derived, bool_decide_eq_true_2 by reflexivity. reflexivity.
    + rewrite !length_app. cbn [length]. rewrite !Nat.add_1_r.
      split; [rewrite <- app_assoc; now rewrite lookup_app_l|].
      split; [lia|]. split; [lia|].
      split; [eexists; apply list_lookup_middle; rewrite length_app; simpl; lia|].
      split; [apply lookup_insert_eq|].
      eexists. split; [rewrite <- !app_assoc; reflexivity|].
      unfold derived_builds. cbn [app]. rewrite !count_events_cons, count_events_nil.
      rewrite is_new_derived_base, is_new_derived_derived, bool_decide_eq_true_2 by reflexivity.
      reflexivity.
Qed.

(** X9. A material without density, and a material with neither atoms
    nor composition, is refused with a MissingInfo error after both
    factories have been called: [createMaterial] hands the error to the
    error handler and returns the null pointer, and nothing is built or
    cached. *)
Theorem missing_info_is_reported (w : World) (cfg : MatCfg) (scatter : Scatter)
    (info : Info) :
  missing (cache w) w (toStrCfg cfg) ->
  (forall idx, cache w !! toStrCfg cfg = Some idx -> (idx < length (materialTable w))%nat) ->
  libClashDetect = None -> createScatter cfg = inr scatter -> createInfo cfg = inr info ->
  density info = None \/ (atomInfo info = None /\ composition info = None) ->
  exists e,
    err_kind e = MissingInfo /\
    createMaterial_MatCfg cfg w
    = (Ok None,
       set_calls (calls w ++ [EvCreateScatter cfg; EvCreateInfo cfg; handled e]) w).
Proof.
  intros Hmiss Hrange Hclash Hs Hi Hinfo.
  assert (Hl : (cache_lookup (cache w) (toStrCfg cfg) w).1 = Ok None).
  { destruct (missing_lookup (cache w) w (toStrCfg cfg) Hrange)
      as [(mat & [Hc [m Hm]] & _)|[_ Hl]]; [|exact Hl].
    specialize (Hmiss mat Hc). congruence. }
  assert (Hatt : exists e, err_kind e = MissingInfo /\
            build_attempt cfg = inl (NCrystalError e, [EvCreateScatter cfg; EvCreateInfo cfg])).
  { unfold build_attempt. rewrite Hclash, Hs, Hi.
    destruct (hasDensity info) eqn:Hd.
    - destruct Hinfo as [Hnone|[Ha Hcomp]].
      { unfold hasDensity in Hd. rewrite Hnone in Hd.
        apply bool_decide_eq_true in Hd. now destruct Hd. }
      unfold base_chemform, getChemicalFormula, monoatomic_Z, hasComposition.
      rewrite Hcomp, Ha. simpl. eexists. split; [|reflexivity]. reflexivity.
    - eexists. split; [|reflexivity]. reflexivity. }
  destruct Hatt as (e & Hkind & Hatt). exists e. split; [assumption|].
  rewrite createMaterial_MatCfg_eq.
  rewrite (getG4MaterialWithCache_fails cfg w _ _ Hl Hatt).
  unfold log_call, handled. rewrite set_calls_set_calls. simpl.
  now rewrite <- app_assoc.
Qed.

(** X10. The check for a broken installation comes after the look into
    the cache and before everything else: when [libClashDetect] throws,
    a request for a material that is cached is served all the same, and
    every other request ends with its error, without a call of a factory
    and without a change of table and caches. *)
Theorem clash_stops_every_build (w : World) (cfg : MatCfg) (e : NCError) :
  caches_in_range w ->
  libClashDetect = Some e ->
  (forall mat, ready (cache w) w (toStrCfg cfg) mat ->
     createMaterial_MatCfg cfg w = (Ok (Some mat), w)) /\
  (missing (cache w) w (toStrCfg cfg) ->
     getG4MaterialWithCache cfg w = (Throw (NCrystalError e), w) /\
     createMaterial_MatCfg cfg w = (Ok None, log_call (handled e) w)).
Proof.
  intros [Hrange _] Hclash. split.
  - intros mat Hready. rewrite createMaterial_MatCfg_eq.
    now rewrite (getG4MaterialWithCache_hit cfg w mat Hready).
  - intros Hmiss.
    assert (Hl : (cache_lookup (cache w) (toStrCfg cfg) w).1 = Ok None).
    { destruct (missing_lookup (cache w) w (toStrCfg cfg) (Hrange (toStrCfg cfg)))
        as [(mat & [Hc [m Hm]] & _)|[_ Hl]]; [|exact Hl].
      specialize (Hmiss mat Hc). congruence. }
    assert (Hatt : build_attempt cfg = inl (NCrystalError e, [])).
    { unfold build_attempt. now rewrite Hclash. }
    assert (Hg : getG4MaterialWithCache cfg w = (Throw (NCrystalError e), w)).
    { rewrite (getG4MaterialWithCache_fails cfg w _ _ Hl Hatt).
      rewrite app_nil_r. now destruct w. }
    split; [exact Hg|]. rewrite createMaterial_MatCfg_eq, Hg. reflexivity.
Qed.

(** X16. A request leaves the rest alone. It appends at most two
    materials to the material table (none when it returns the null
    pointer) and changes no entry the table had; it keeps every entry of
    both caches whose material is not deleted, and every entry of the
    derived cache under another key; it attaches at most one scatter
    property; and it calls the error handler once when it returns the
    null pointer and not at all when it returns a material. *)
Theorem request_leaves_the_rest_alone (w w' : World) (cfg : MatCfg)
    (r : Result (option nat)) :
  caches_in_range w ->
  createMaterial_MatCfg cfg w = (r, w') ->
  exists new evs attached,
    materialTable w' = materialTable w ++ map Some new /\
    (length new <= 2)%nat /\ (r = Ok None -> new = []) /\
    calls w' = calls w ++ evs /\
    count_events is_handleError evs = (if r is Ok None then 1 else 0)%nat /\
    scatterProperties w' = scatterProperties w ++ attached /\
    (length attached <= 1)%nat /\
    (forall key idx, cache w !! key = Some idx -> live w idx ->
       cache w' !! key = Some idx) /\
    (forall key idx, base_cache w !! key = Some idx -> live w idx ->
       base_cache w' !! key = Some idx) /\
    (forall key, key <> toStrCfg cfg -> cache w' !! key = cache w !! key).
Proof.
  intros Hrange Hrun.
  pose proof (request_outcome cfg w Hrange) as Hout.
  rewrite Hrun in Hout. simpl in Hout.
  assert (Hkeep : forall (c : gmap string nat) (k : string) (i : nat),
            missing c w k ->
            forall key idx, c !! key = Some idx -> live w idx ->
                            <[k := i]> c !! key = Some idx).
  { intros c k i Hmiss key idx Hc [m Hm].
    destruct (decide (k = key)) as [->|Hne].
    - specialize (Hmiss idx Hc). congruence.
    - now rewrite lookup_insert_ne. }
  inversion Hout as [mat Hready|e evs Hmiss Hbuild|scatter info cf k matBase Hmiss Hbuild Hready
                    |scatter info cf k Hmiss Hbuild Hmissb]; subst.
  - exists [], [], []. rewrite !app_nil_r. repeat split; auto.
  - exists [], (evs ++ [handled e]), []. simpl. rewrite !app_nil_r.
    split; [reflexivity|]. split; [lia|]. split; [reflexivity|].
    split; [now rewrite app_assoc|].
    split.
    { rewrite count_events_app.
      destruct (build_attempt_events cfg _ evs Hbuild) as [-> | [-> | ->]]; reflexivity. }
    repeat split; auto.
  - exists [new_derived_material cfg info matBase],
           [EvCreateScatter cfg; EvCreateInfo cfg;
            EvNewG4Material (length (materialTable w)) (matnameprefix +:+ toStrCfg cfg)],
           [(length (materialTable w), scatter)].
    unfold with_derived_material, set_calls;
      cbn [materialTable cache base_cache calls scatterProperties map length].
    split; [reflexivity|]. split; [lia|]. split; [discriminate|].
    split; [now rewrite <- app_assoc|].
    split; [reflexivity|]. split; [reflexivity|]. split; [lia|].
    split; [now apply Hkeep|]. split; [auto|].
    intros key Hne. now rewrite lookup_insert_ne.
  - exists [built_base_material info cf k;
            new_derived_material cfg info (length (materialTable w))],
           [EvCreateScatter cfg; EvCreateInfo cfg;
            EvNewG4Material (length (materialTable w)) (base_matnameprefix +:+ k);
            EvNewG4Material (S (length (materialTable w))) (matnameprefix +:+ toStrCfg cfg)],
           [(S (length (materialTable w)), scatter)].
    unfold with_derived_material, with_base_material, set_calls;
      cbn [materialTable cache base_cache calls scatterProperties map length].
    rewrite !length_app. cbn [length]. rewrite !Nat.add_1_r.
    split; [now rewrite <- app_assoc|]. split; [lia|]. split; [discriminate|].
    split; [now rewrite <- !app_assoc|].
    split; [reflexivity|]. split; [reflexivity|]. split; [lia|].
    split; [now apply Hkeep|]. split; [now apply Hkeep|].
    intros key Hne. now rewrite lookup_insert_ne.
Qed.

End AnyHistory.
(** ** The order of concurrent requests *)

Section Linearizable.
Context `{Externals}.

Lemma run_schedule_app (s1 s2 : list nat) (p : Process) :
  run_schedule (s1 ++ s2) p = run_schedule s2 (run_schedule s1 p).
Proof. revert p. induction s1 as [|t s1 IH]; intros p; [reflexivity|]. simpl. apply IH. Qed.





Lemma thread_step_length (p p' : Process) (t : nat) :
  thread_step t p = Some p' -> length (threads p') = length (threads p).
Proof.
  unfold thread_step.
  destruct (threads p !! t) as [[cfg|cfg|cfg r]|]; [| |discriminate..].
  - destruct (cache_mutex p); [discriminate|]. intros [= <-]. simpl. apply length_insert.
  - destruct (getG4MaterialWithCache cfg (world p)). intros [= <-]. simpl.
    apply length_insert.
Qed.


End Linearizable.
(** ** No request waits for ever *)

Section Completion.
Context `{Externals}.

Lemma mutex_consistent_start (w : World) (cfgs : list MatCfg) :
  mutex_consistent (start_process w cfgs).
Proof.
  split; simpl; [discriminate|].
  intros t cfg. rewrite list_lookup_fmap. destruct (cfgs !! t); discriminate.
Qed.

Lemma mutex_consistent_step (p p' : Process) (t : nat) :
  mutex_consistent p -> thread_step t p = Some p' -> mutex_consistent p'.
Proof.
  intros [Hheld Hin] Hstep. unfold thread_step in Hstep.
  destruct (threads p !! t) as [[cfg|cfg|cfg r]|] eqn:Ht; [| |discriminate..].
  - destruct (cache_mutex p) eqn:Hm; [discriminate|]. injection Hstep as <-.
    pose proof (lookup_lt_Some _ _ _ Ht) as Hlt.
    split; simpl.
    + intros u [= <-]. exists cfg. now apply list_lookup_insert_eq.
    + intros u c. destruct (decide (u = t)) as [->|Hne]; [reflexivity|].
      rewrite list_lookup_insert_ne by congruence. intros Hu.
      specialize (Hin u c Hu). congruence.
  - destruct (getG4MaterialWithCache cfg (world p)) as [r w']. injection Hstep as <-.
    pose proof (lookup_lt_Some _ _ _ Ht) as Hlt.
    split; simpl; [discriminate|].
    intros u c. destruct (decide (u = t)) as [->|Hne].
    + rewrite list_lookup_insert_eq by assumption. discriminate.
    + rewrite list_lookup_insert_ne by congruence. intros Hu.
      pose proof (Hin u c Hu) as H1. pose proof (Hin t cfg Ht) as H2. congruence.
Qed.

Lemma steps_left_insert (l : list ThreadState) (t : nat) (st st' : ThreadState) :
  l !! t = Some st ->
  (foldr (fun st n => steps_left st + n) 0 (<[t := st']> l) + steps_left st
   = foldr (fun st n => steps_left st + n) 0 l + steps_left st')%nat.
Proof.
  revert t. induction l as [|x l IH]; intros [|t]; simpl; try discriminate.
  - intros [= ->]. lia.
  - intros Hl. specialize (IH t Hl). lia.
Qed.

Lemma remaining_zero (p : Process) (t : nat) (st : ThreadState) :
  remaining p = 0%nat -> threads p !! t = Some st -> has_returned p t.
Proof.
  unfold remaining, has_returned. generalize (threads p). intros l. revert t.
  induction l as [|x l IH]; intros [|t]; simpl; try discriminate.
  - intros Hsum [= ->]. destruct st; simpl in Hsum; try lia. eauto.
  - intros Hsum Hl. apply (IH t); [lia|assumption].
Qed.

Lemma remaining_positive (p : Process) :
  (0 < remaining p)%nat ->
  exists t st, threads p !! t = Some st /\ (0 < steps_left st)%nat.
Proof.
  unfold remaining. generalize (threads p). intros l.
  induction l as [|x l IH]; simpl; [lia|]. intros Hsum.
  destruct (steps_left x) eqn:Hx.
  - destruct (IH Hsum) as (t & st & Ht & Hst). now exists (S t), st.
  - exists 0%nat, x. split; [reflexivity|lia].
Qed.

(** Some thread can take a step as long as one is not done, and the step
    brings the process closer to the end. *)
Lemma thread_can_step (p : Process) :
  mutex_consistent p -> (0 < remaining p)%nat ->
  exists t p', thread_step t p = Some p' /\ (remaining p' < remaining p)%nat.
Proof.
  intros [Hheld Hin] Hpos.
  assert (Hcs : forall t cfg, threads p !! t = Some (InCriticalSection cfg) ->
            exists p', thread_step t p = Some p' /\ (remaining p' < remaining p)%nat).
  { intros t cfg Ht. unfold thread_step. rewrite Ht.
    destruct (getG4MaterialWithCache cfg (world p)) as [r w'].
    eexists. split; [reflexivity|]. unfold remaining. simpl.
    pose proof (steps_left_insert (threads p) t _ (Returned cfg r) Ht) as Hs.
    simpl in Hs. lia. }
  destruct (cache_mutex p) as [holder|] eqn:Hm.
  - destruct (Hheld holder eq_refl) as [cfg Hholder].
    exists holder. now apply (Hcs holder cfg).
  - destruct (remaining_positive p Hpos) as (t & st & Ht & Hst).
    exists t. destruct st as [cfg|cfg|cfg r]; simpl in Hst; [| |lia].
    + unfold thread_step. rewrite Ht, Hm.
      eexists. split; [reflexivity|]. unfold remaining. simpl.
      pose proof (steps_left_insert (threads p) t _ (InCriticalSection cfg) Ht) as Hs.
      simpl in Hs. lia.
    + now apply (Hcs t cfg).
Qed.

Lemma run_schedule_mutex_consistent (schedule : list nat) (p : Process) :
  mutex_consistent p -> mutex_consistent (run_schedule schedule p).
Proof.
  revert p. induction schedule as [|t schedule IH]; intros p Hp; [exact Hp|].
  simpl. apply IH. destruct (thread_step t p) as [p'|] eqn:Hstep; simpl; [|exact Hp].
  now apply (mutex_consistent_step p p' t).
Qed.

Lemma run_schedule_length (schedule : list nat) (p : Process) :
  length (threads (run_schedule schedule p)) = length (threads p).
Proof.
  revert p. induction schedule as [|t schedule IH]; intros p; [reflexivity|].
  simpl. rewrite IH. destruct (thread_step t p) as [p'|] eqn:Hstep; simpl; [|reflexivity].
  now apply (thread_step_length p p' t).
Qed.

(** X12. No request waits for ever: the lock is released by every
    request, also by one that throws, so from every state of the process
    there is a way to go on (at most two steps for each thread) after
    which every thread has returned from its request. *)
Theorem every_request_completes (w : World) (cfgs : list MatCfg) (p : Process) :
  reachable_from (start_process w cfgs) p ->
  exists schedule,
    (length schedule <= 2 * length cfgs)%nat /\
    cache_mutex (run_schedule schedule p) = None /\
    forall t, (t < length cfgs)%nat -> has_returned (run_schedule schedule p) t.
Proof.
  intros [schedule0 <-].
  set (p := run_schedule schedule0 (start_process w cfgs)).
  assert (Hmutex : mutex_consistent p)
    by apply run_schedule_mutex_consistent, mutex_consistent_start.
  assert (Hlen : length (threads p) = length cfgs).
  { unfold p. rewrite run_schedule_length. simpl. apply length_map. }
  assert (Hbound : (remaining p <= 2 * length (threads p))%nat).
  { unfold remaining. generalize (threads p). intros l.
    induction l as [|x l IH]; simpl; [lia|]. destruct x; simpl; lia. }
  assert (Hrun : forall n q, mutex_consistent q -> remaining q = n ->
            exists schedule, (length schedule <= n)%nat /\
              mutex_consistent (run_schedule schedule q) /\
              remaining (run_schedule schedule q) = 0%nat).
  { induction n as [n IH] using lt_wf_ind. intros q Hq Hn.
    destruct (Nat.eq_dec n 0%nat) as [->|Hpos].
    - exists []. simpl. auto.
    - destruct (thread_can_step q Hq) as (t & q' & Hstep & Hless); [lia|].
      destruct (IH (remaining q') ltac:(lia) q'
                  (mutex_consistent_step q q' t Hq Hstep) eq_refl)
        as (schedule & Hl & Hm & Hz).
      exists (t :: schedule). simpl. rewrite Hstep. simpl.
      split; [lia|]. auto. }
  destruct (Hrun (remaining p) p Hmutex eq_refl) as (schedule & Hl & Hm & Hz).
  exists schedule. split; [lia|]. split.
  - destruct (cache_mutex (run_schedule schedule p)) as [holder|] eqn:Hheld; [|reflexivity].
    destruct Hm as [Hm _]. destruct (Hm holder Hheld) as [cfg Hcs].
    destruct (remaining_zero _ holder _ Hz Hcs) as (c & r & Hr). congruence.
  - intros t Ht.
    destruct (threads (run_schedule schedule p) !! t) as [st|] eqn:Hst.
    + now apply (remaining_zero _ t st).
    + apply lookup_ge_None in Hst. rewrite run_schedule_length in Hst. lia.
Qed.

End Completion.
(** ** The deuterium element *)

Lemma getDeuteriumG4Element_first (st : ElementStore) :
  s_deuterium st = None ->
  getDeuteriumG4Element st =
    (length (elementTable st),
     {| elementTable := elementTable st ++ [deuterium_element];
        s_deuterium := Some (length (elementTable st)) |}).
Proof.
  intros Hnone. unfold getDeuteriumG4Element. rewrite Hnone. simpl.
  f_equal. f_equal. now rewrite alter_last.
Qed.

Lemma run_element_actions_built (actions : list ElementAction) (st : ElementStore)
    (el : nat) :
  s_deuterium st = Some el -> elementTable st !! el = Some deuterium_element ->
  let '(els, st') := run_element_actions actions st in
  els = repeat el (length (List.filter is_GetDeuterium actions)) /\
  s_deuterium st' = Some el /\ elementTable st' !! el = Some deuterium_element /\
  length (elementTable st')
  = (length (elementTable st)
     + length (List.filter (fun a => negb (is_GetDeuterium a)) actions))%nat.
Proof.
  revert st. induction actions as [|[|name symbol n] actions IH]; intros st Hs Hel; simpl.
  - repeat split; auto.
  - unfold getDeuteriumG4Element. rewrite Hs.
    specialize (IH st Hs Hel). destruct (run_element_actions actions st) as [els st'].
    destruct IH as (-> & ? & ? & ?). auto.
  - specialize (IH (new_G4Element name symbol n st).2 Hs). simpl in IH.
    rewrite lookup_app_l in IH by now apply lookup_lt_Some in Hel.
    specialize (IH Hel).
    destruct (run_element_actions actions _) as [els st'].
    destruct IH as (-> & ? & ? & Hlen). repeat split; auto.
    rewrite Hlen, length_app. simpl. lia.
Qed.

(** X13. The deuterium element is built once. However the calls of
    [getDeuteriumG4Element] are mixed with the construction of other
    elements, they all return the same pointer, to the element
    "Deuterium" with the single isotope "Deuteron" (Z = 1, N = 2) of
    abundance 1, and all calls together have added one element to the
    table: the first call builds it, the later calls build nothing. *)
Theorem deuterium_is_built_once (actions : list ElementAction)
    (table : list G4ElementObject) :
  let '(els, st) :=
    run_element_actions actions {| elementTable := table; s_deuterium := None |} in
  (forall el, In el els ->
     s_deuterium st = Some el /\ elementTable st !! el = Some deuterium_element) /\
  (forall el el', In el els -> In el' els -> el = el') /\
  length els = length (List.filter is_GetDeuterium actions) /\
  length (elementTable st)
  = (length table + length (List.filter (fun a => negb (is_GetDeuterium a)) actions)
     + (if els is [] then 0 else 1))%nat.
Proof.
  generalize table. clear table.
  induction actions as [|[|name symbol n] actions IH]; intros table;
    cbn [run_element_actions].
  - simpl. repeat split; try (intros ? []); lia.
  - rewrite getDeuteriumG4Element_first by reflexivity. simpl.
    pose proof (run_element_actions_built actions
                  {| elementTable := table ++ [deuterium_element];
                     s_deuterium := Some (length table) |} (length table) eq_refl) as Hrest.
    simpl in Hrest. rewrite list_lookup_middle in Hrest by reflexivity.
    specialize (Hrest eq_refl).
    destruct (run_element_actions actions _) as [els st'].
    destruct Hrest as (-> & Hs & Hel & Hlen).
    assert (Hall : forall el, In el (length table :: repeat (length table)
                     (length (List.filter is_GetDeuterium actions))) -> el = length table).
    { intros el [<-|Hin]; [reflexivity|]. now apply repeat_spec in Hin. }
    split; [intros el Hin; now rewrite (Hall el Hin)|].
    split; [intros el el' Hin Hin'; now rewrite (Hall el Hin), (Hall el' Hin')|].
    split; [simpl; now rewrite repeat_length|].
    rewrite Hlen, length_app. simpl. lia.
  - specialize (IH (table ++ [{| elem_name := name; elem_symbol := symbol;
                                  elem_nIsotopes := n; elem_isotopes := [] |}])).
    unfold new_G4Element. simpl.
    destruct (run_element_actions actions _) as [els st'].
    destruct IH as (H1 & H2 & H3 & H4). repeat split; auto.
    + now apply H1.
    + now apply H1.
    + rewrite H4, length_app. simpl. lia.
Qed.
(** ** The entries of [BUILTIN_PLUGIN_LIST] *)

Module CMakeConfigFacts.
Import CMake CMakeConfig.

Lemma has_colon_app (a b : string) : has_colon (a +:+ b) = has_colon a || has_colon b.
Proof.
  induction a as [|c a IH]; [reflexivity|].
  rewrite string_app_cons. simpl. rewrite IH. apply orb_assoc.
Qed.

Lemma has_slash_app (a b : string) : has_slash (a +:+ b) = has_slash a || has_slash b.
Proof.
  induction a as [|c a IH]; [reflexivity|].
  rewrite string_app_cons. simpl. rewrite IH. apply orb_assoc.
Qed.

Lemma name_char (c : ascii) :
  is_name_char c = true -> Ascii.eqb c ":" = false /\ is_list_char c = false.
Proof.
  unfold is_name_char. intros [H1 H2]%andb_true_iff.
  now apply negb_true_iff in H1, H2.
Qed.

Lemma plain_no_colon (s : string) : plain s = true -> has_colon s = false.
Proof.
  unfold plain. induction s as [|c s IH]; [reflexivity|]. simpl.
  intros [Hc Hs]%andb_true_iff. rewrite (IH Hs), orb_false_r.
  destruct (name_char c Hc) as [Hcolon _].
  apply N.eqb_neq. intros Heq. apply Ascii.eqb_neq in Hcolon. apply Hcolon.
  apply (f_equal ascii_of_N) in Heq. now rewrite ascii_N_embedding in Heq.
Qed.

Lemma plain_no_list_chars (s : string) :
  plain s = true -> all_chars (fun c => negb (is_list_char c)) s = true.
Proof.
  apply all_chars_impl. intros c Hc. destruct (name_char c Hc) as [_ ->]. reflexivity.
Qed.

(** *** [string(REPLACE ...)] *)

Lemma REPLACE_double_colon_step (c1 c2 : ascii) (s : string) :
  REPLACE_double_colon (String c1 (String c2 s))
  = if Ascii.eqb c1 ":" && Ascii.eqb c2 ":" then String ";" (REPLACE_double_colon s)
    else String c1 (REPLACE_double_colon (String c2 s)).
Proof. reflexivity. Qed.

Lemma REPLACE_double_colon_other (c : ascii) (rest : string) :
  Ascii.eqb c ":" = false ->
  REPLACE_double_colon (String c rest) = String c (REPLACE_double_colon rest).
Proof. intros Hc. destruct rest; simpl; rewrite ?Hc; reflexivity. Qed.

Lemma REPLACE_double_colon_plain (a t : string) :
  plain a = true -> REPLACE_double_colon (a +:+ t) = a +:+ REPLACE_double_colon t.
Proof.
  unfold plain. induction a as [|c a IH]; [reflexivity|]. cbn [all_chars].
  intros [Hc Ha]%andb_true_iff. rewrite !string_app_cons.
  rewrite REPLACE_double_colon_other by now apply name_char. now rewrite IH.
Qed.

Lemma REPLACE_double_colon_id (a : string) : plain a = true -> REPLACE_double_colon a = a.
Proof.
  intros Ha. rewrite <- (string_append_empty_r a) at 1.
  rewrite REPLACE_double_colon_plain by assumption. apply string_append_empty_r.
Qed.

(** A single colon before a name stays. *)
Lemma REPLACE_double_colon_single (a t : string) :
  plain a = true -> a <> "" ->
  REPLACE_double_colon (":" +:+ a +:+ t) = ":" +:+ a +:+ REPLACE_double_colon t.
Proof.
  intros Ha Hne. destruct a as [|c a]; [congruence|].
  pose proof Ha as Ha'. unfold plain in Ha'. simpl in Ha'.
  apply andb_true_iff in Ha' as [Hc _]. destruct (name_char c Hc) as [Hcolon _].
  change (":" +:+ String c a +:+ t) with (String ":" (String c (a +:+ t))).
  rewrite REPLACE_double_colon_step, Hcolon, andb_false_r.
  change (String c (a +:+ t)) with (String c a +:+ t).
  now rewrite REPLACE_double_colon_plain.
Qed.

Lemma REPLACE_double_colon_last (a : string) :
  plain a = true -> REPLACE_double_colon (":" +:+ a) = ":" +:+ a.
Proof.
  intros Ha. destruct a as [|c a]; [reflexivity|].
  rewrite <- (string_append_empty_r (String c a)) at 1.
  rewrite REPLACE_double_colon_single by (assumption || discriminate).
  now rewrite string_append_empty_r.
Qed.

Lemma REPLACE_colon_plain (a t : string) :
  plain a = true -> REPLACE_colon (a +:+ t) = a +:+ REPLACE_colon t.
Proof.
  unfold plain. induction a as [|c a IH]; [reflexivity|]. cbn [all_chars].
  intros [Hc Ha]%andb_true_iff. rewrite !string_app_cons. cbn [REPLACE_colon].
  destruct (name_char c Hc) as [-> _]. now rewrite IH.
Qed.

Lemma REPLACE_colon_id (a : string) : plain a = true -> REPLACE_colon a = a.
Proof.
  intros Ha. rewrite <- (string_append_empty_r a) at 1.
  rewrite REPLACE_colon_plain by assumption. apply string_append_empty_r.
Qed.

(** *** Lists *)

Lemma expand_list_from_char (c : ascii) (s : string) (n : Z) (acc : string) :
  is_list_char c = false ->
  expand_list_from (String c s) n acc = expand_list_from s n (acc +:+ String c "").
Proof.
  unfold is_list_char. intros Hc.
  apply orb_false_iff in Hc as [Hc Hbs]. apply orb_false_iff in Hc as [Hc Hclose].
  apply orb_false_iff in Hc as [Hsemi Hopen].
  cbn [expand_list_from]. now rewrite Hbs, Hopen, Hclose, Hsemi.
Qed.

Lemma expand_list_from_semicolon (s : string) (acc : string) :
  expand_list_from (String ";" s) 0 acc = acc :: expand_list_from s 0 "".
Proof. reflexivity. Qed.

Lemma expand_list_from_chars (a t : string) (n : Z) (acc : string) :
  all_chars (fun c => negb (is_list_char c)) a = true ->
  expand_list_from (a +:+ t) n acc = expand_list_from t n (acc +:+ a).
Proof.
  revert acc. induction a as [|c a IH]; intros acc; cbn [all_chars].
  - intros _. now rewrite string_app_nil, string_append_empty_r.
  - intros [Hc Ha]%andb_true_iff. rewrite string_app_cons.
    apply negb_true_iff in Hc.
    rewrite expand_list_from_char, IH by assumption.
    f_equal. now rewrite string_app_assoc.
Qed.

Lemma list_elements_one (a : string) :
  all_chars (fun c => negb (is_list_char c)) a = true -> a <> "" ->
  list_elements a = [a].
Proof.
  intros Ha Hne. unfold list_elements.
  destruct (String.eqb_spec a "") as [->|_]; [congruence|].
  rewrite <- (string_append_empty_r a) at 1.
  now rewrite expand_list_from_chars.
Qed.

Lemma list_elements_two (a b : string) :
  all_chars (fun c => negb (is_list_char c)) a = true ->
  all_chars (fun c => negb (is_list_char c)) b = true ->
  list_elements (a +:+ ";" +:+ b) = [a; b].
Proof.
  intros Ha Hb. unfold list_elements.
  destruct (String.eqb_spec (a +:+ ";" +:+ b) "") as [E|_].
  { destruct a; discriminate E. }
  rewrite expand_list_from_chars by assumption.
  change (";" +:+ b) with (String ";" b). rewrite expand_list_from_semicolon.
  rewrite <- (string_append_empty_r b) at 1.
  now rewrite expand_list_from_chars.
Qed.

Lemma list_elements_three (a b c : string) :
  all_chars (fun c => negb (is_list_char c)) a = true ->
  all_chars (fun c => negb (is_list_char c)) b = true ->
  all_chars (fun c => negb (is_list_char c)) c = true ->
  list_elements (a +:+ ";" +:+ b +:+ ";" +:+ c) = [a; b; c].
Proof.
  intros Ha Hb Hc. unfold list_elements.
  destruct (String.eqb_spec (a +:+ ";" +:+ b +:+ ";" +:+ c) "") as [E|_].
  { destruct a; discriminate E. }
  rewrite expand_list_from_chars by assumption.
  change (";" +:+ b +:+ ";" +:+ c) with (String ";" (b +:+ ";" +:+ c)).
  rewrite expand_list_from_semicolon.
  rewrite expand_list_from_chars by assumption.
  change (";" +:+ c) with (String ";" c). rewrite expand_list_from_semicolon.
  rewrite <- (string_append_empty_r c) at 1.
  now rewrite expand_list_from_chars.
Qed.

Lemma set_unquoted_id (a : string) :
  all_chars (fun c => negb (is_list_char c)) a = true -> set_unquoted a = a.
Proof.
  intros Ha. unfold set_unquoted, unquoted_arguments.
  destruct (String.eqb_spec a "") as [->|Hne]; [reflexivity|].
  rewrite list_elements_one by assumption. simpl.
  now destruct (String.eqb_spec a "") as [->|_].
Qed.

Lemma github_url_chars (account repo : string) :
  plain account = true -> plain repo = true ->
  all_chars (fun c => negb (is_list_char c)) (github_url account repo) = true.
Proof.
  intros Ha Hr. unfold github_url. rewrite !all_chars_app.
  rewrite (plain_no_list_chars account Ha), (plain_no_list_chars repo Hr). reflexivity.
Qed.

(** *** The forms of an entry *)

(** The condensed form [account:reponameending], with what follows it. *)
Lemma parse_condensed (account repo suffix ref : string) :
  plain account = true -> has_slash account = false ->
  plain repo = true -> has_slash repo = false ->
  plain ref = true ->
  (suffix = "" /\ ref = "main") \/ (repo <> "" /\ suffix = "::" +:+ ref) ->
  parse_pluginentry (account +:+ ":" +:+ repo +:+ suffix)
  = Configured (RemoteEntry (github_url account repo) ref).
Proof.
  intros Ha Hsa Hr Hsr Href Hsuffix.
  assert (Hurl_chars : all_chars (fun c => negb (is_list_char c)) (account +:+ ":" +:+ repo) = true).
  { rewrite !all_chars_app, (plain_no_list_chars account Ha), (plain_no_list_chars repo Hr).
    reflexivity. }
  assert (Hurl_ne : account +:+ ":" +:+ repo <> "") by (destruct account; discriminate).
  assert (Hparts : REPLACE_double_colon (account +:+ ":" +:+ repo +:+ suffix)
                   = if String.eqb suffix "" then account +:+ ":" +:+ repo
                     else (account +:+ ":" +:+ repo) +:+ ";" +:+ ref).
  { rewrite REPLACE_double_colon_plain by assumption.
    destruct Hsuffix as [[-> ->]|[Hne ->]].
    - rewrite string_append_empty_r, REPLACE_double_colon_last by assumption. reflexivity.
    - rewrite REPLACE_double_colon_single by assumption.
      change (REPLACE_double_colon ("::" +:+ ref)) with (String ";" (REPLACE_double_colon ref)).
      rewrite REPLACE_double_colon_id by assumption.
      destruct ref; simpl; now rewrite !string_app_assoc. }
  assert (Hcolon : has_colon (account +:+ ":" +:+ repo +:+ suffix) = true).
  { rewrite has_colon_app. apply orb_true_iff. right. reflexivity. }
  assert (Hresolve :
    (if negb (has_slash (account +:+ ":" +:+ repo))
     then match list_elements (REPLACE_colon (account +:+ ":" +:+ repo)) with
          | [remoteaccount; remotereponameending] =>
            "https://github.com/" +:+ remoteaccount +:+ "/ncplugin-"
              +:+ remotereponameending +:+ ".git"
          | _ => account +:+ ":" +:+ repo
          end
     else account +:+ ":" +:+ repo) = github_url account repo).
  { rewrite !has_slash_app, Hsa, Hsr. simpl.
    rewrite REPLACE_colon_plain by assumption.
    change (REPLACE_colon (":" +:+ repo)) with (String ";" (REPLACE_colon repo)).
    rewrite REPLACE_colon_id by assumption.
    change (account +:+ String ";" repo) with (account +:+ ";" +:+ repo).
    rewrite list_elements_two by now apply plain_no_list_chars. reflexivity. }
  unfold parse_pluginentry. rewrite Hcolon. cbv zeta. rewrite Hparts.
  cbn [negb].
  destruct Hsuffix as [[-> ->]|[Hne ->]].
  - cbn [String.eqb]. rewrite list_elements_one by assumption. cbn [length Nat.eqb orb negb].
    unfold list_APPEND.
    destruct (String.eqb_spec (account +:+ ":" +:+ repo) "") as [E|_]; [congruence|].
    rewrite list_elements_two by (assumption || reflexivity).
    cbv beta iota zeta. rewrite Hresolve.
    now rewrite (set_unquoted_id _ (github_url_chars account repo Ha Hr)).
  - change (String.eqb ("::" +:+ ref) "") with false. cbv iota.
    rewrite list_elements_two by (assumption || now apply plain_no_list_chars).
    cbn [length Nat.eqb orb negb].
    rewrite list_elements_two by (assumption || now apply plain_no_list_chars).
    cbv beta iota zeta. rewrite Hresolve.
    rewrite (set_unquoted_id _ (github_url_chars account repo Ha Hr)).
    now rewrite set_unquoted_id by now apply plain_no_list_chars.
Qed.

(** The long form [scheme:rest], with what follows it. *)
Lemma parse_url (scheme rest suffix ref : string) :
  plain scheme = true -> plain rest = true -> has_slash rest = true ->
  plain ref = true ->
  (suffix = "" /\ ref = "main") \/ suffix = "::" +:+ ref ->
  parse_pluginentry (scheme +:+ ":" +:+ rest +:+ suffix)
  = Configured (RemoteEntry (scheme +:+ ":" +:+ rest) ref).
Proof.
  intros Hs Hr Hslash Href Hsuffix.
  assert (Hne : rest <> "") by (intros ->; discriminate Hslash).
  assert (Hurl_chars : all_chars (fun c => negb (is_list_char c)) (scheme +:+ ":" +:+ rest) = true).
  { rewrite !all_chars_app, (plain_no_list_chars scheme Hs), (plain_no_list_chars rest Hr).
    reflexivity. }
  assert (Hurl_ne : scheme +:+ ":" +:+ rest <> "") by (destruct scheme; discriminate).
  assert (Hparts : REPLACE_double_colon (scheme +:+ ":" +:+ rest +:+ suffix)
                   = if String.eqb suffix "" then scheme +:+ ":" +:+ rest
                     else (scheme +:+ ":" +:+ rest) +:+ ";" +:+ ref).
  { rewrite REPLACE_double_colon_plain by assumption.
    destruct Hsuffix as [[-> ->]| ->].
    - rewrite string_append_empty_r, REPLACE_double_colon_last by assumption. reflexivity.
    - rewrite REPLACE_double_colon_single by assumption.
      change (REPLACE_double_colon ("::" +:+ ref)) with (String ";" (REPLACE_double_colon ref)).
      rewrite REPLACE_double_colon_id by assumption.
      destruct ref; simpl; now rewrite !string_app_assoc. }
  assert (Hcolon : has_colon (scheme +:+ ":" +:+ rest +:+ suffix) = true).
  { rewrite has_colon_app. apply orb_true_iff. right. reflexivity. }
  assert (Hhas : has_slash (scheme +:+ ":" +:+ rest) = true).
  { rewrite !has_slash_app, Hslash. now rewrite !orb_true_r. }
  unfold parse_pluginentry. rewrite Hcolon. cbv zeta. rewrite Hparts.
  cbn [negb].
  destruct Hsuffix as [[-> ->]| ->].
  - cbn [String.eqb]. rewrite list_elements_one by assumption. cbn [length Nat.eqb orb negb].
    unfold list_APPEND.
    destruct (String.eqb_spec (scheme +:+ ":" +:+ rest) "") as [E|_]; [congruence|].
    rewrite list_elements_two by (assumption || reflexivity).
    cbv beta iota zeta. rewrite Hhas. cbn [negb].
    now rewrite set_unquoted_id by assumption.
  - change (String.eqb ("::" +:+ ref) "") with false. cbv iota.
    rewrite list_elements_two by (assumption || now apply plain_no_list_chars).
    cbn [length Nat.eqb orb negb].
    rewrite list_elements_two by (assumption || now apply plain_no_list_chars).
    cbv beta iota zeta. rewrite Hhas. cbn [negb].
    rewrite set_unquoted_id by assumption.
    now rewrite set_unquoted_id by now apply plain_no_list_chars.
Qed.

(** X14. [parse_pluginentry] reads the forms of an entry as the comment
    of lines 301-306 gives them. An entry is a local path exactly when
    it has no colon. The condensed form [account:name] stands for the
    repository https://github.com/account/ncplugin-name.git, and is read
    like this long form; a form without [::gitref] gets the git
    reference main, a form with it gets that reference; and an entry of
    three parts between [::] is refused as invalid syntax, the error the
    loop over the entries stops with for such a number of parts. *)
Theorem parse_pluginentry_forms :
  (forall entry, parse_pluginentry entry = Configured LocalEntry <-> has_colon entry = false) /\
  (forall account name ref,
     plain account = true -> has_slash account = false ->
     plain name = true -> has_slash name = false -> name <> "" -> plain ref = true ->
     parse_pluginentry (account +:+ ":" +:+ name)
     = Configured (RemoteEntry (github_url account name) "main") /\
     parse_pluginentry (account +:+ ":" +:+ name +:+ "::" +:+ ref)
     = Configured (RemoteEntry (github_url account name) ref) /\
     parse_pluginentry (github_url account name)
     = parse_pluginentry (account +:+ ":" +:+ name) /\
     parse_pluginentry (github_url account name +:+ "::" +:+ ref)
     = parse_pluginentry (account +:+ ":" +:+ name +:+ "::" +:+ ref)) /\
  (forall scheme rest ref,
     plain scheme = true -> plain rest = true -> has_slash rest = true ->
     plain ref = true ->
     parse_pluginentry (scheme +:+ ":" +:+ rest)
     = Configured (RemoteEntry (scheme +:+ ":" +:+ rest) "main") /\
     parse_pluginentry (scheme +:+ ":" +:+ rest +:+ "::" +:+ ref)
     = Configured (RemoteEntry (scheme +:+ ":" +:+ rest) ref)) /\
  (forall a b c,
     plain a = true -> plain b = true -> plain c = true ->
     parse_pluginentry (a +:+ "::" +:+ b +:+ "::" +:+ c)
     = FATAL_ERROR ("Invalid syntax of entry in BUILTIN_PLUGIN_LIST: "
                    +:+ a +:+ "::" +:+ b +:+ "::" +:+ c)) /\
  (forall e names,
     pluginentry_islocal e = false ->
     nparts e = entry_nparts (pluginentry e) ->
     (exists msg, parse_pluginentry (pluginentry e) = FATAL_ERROR msg /\
                  msg = "Invalid syntax of entry in BUILTIN_PLUGIN_LIST: " +:+ pluginentry e)
     <-> add_plugin names e
         = FATAL_ERROR ("Invalid syntax of entry in BUILTIN_PLUGIN_LIST: " +:+ pluginentry e)).
Proof.
  split; [|split; [|split; [|split]]].
  - intros entry. unfold parse_pluginentry.
    destruct (has_colon entry); cbn [negb]; [|tauto].
    split; [|discriminate]. cbv zeta.
    destruct (negb _); [discriminate|].
    destruct (list_elements _) as [|? [|? ?]]; discriminate.
  - intros account name ref Ha Hsa Hn Hsn Hne Href.
    assert (H1 : parse_pluginentry (account +:+ ":" +:+ name)
                 = Configured (RemoteEntry (github_url account name) "main")).
    { rewrite <- (string_append_empty_r name) at 1.
      apply parse_condensed; auto. }
    assert (H2 : parse_pluginentry (account +:+ ":" +:+ name +:+ "::" +:+ ref)
                 = Configured (RemoteEntry (github_url account name) ref)).
    { apply parse_condensed; auto. }
    assert (Hrest : plain ("//github.com/" +:+ account +:+ "/ncplugin-" +:+ name +:+ ".git") = true).
    { unfold plain in *. rewrite !all_chars_app, Ha, Hn. reflexivity. }
    assert (Hslash : has_slash ("//github.com/" +:+ account +:+ "/ncplugin-" +:+ name +:+ ".git") = true)
      by reflexivity.
    assert (Hlong : forall suffix ref',
              plain ref' = true ->
              (suffix = "" /\ ref' = "main") \/ suffix = "::" +:+ ref' ->
              parse_pluginentry (github_url account name +:+ suffix)
              = Configured (RemoteEntry (github_url account name) ref')).
    { intros suffix ref' Href' Hsuffix.
      pose proof (parse_url "https" _ suffix ref' eq_refl Hrest Hslash Href' Hsuffix) as Hp.
      assert (E : github_url account name +:+ suffix
                  = "https" +:+ ":" +:+
                    ("//github.com/" +:+ account +:+ "/ncplugin-" +:+ name +:+ ".git")
                    +:+ suffix).
      { unfold github_url. rewrite !string_app_assoc. reflexivity. }
      rewrite E. exact Hp. }
    split; [exact H1|]. split; [exact H2|]. split.
    + rewrite H1. rewrite <- (string_append_empty_r (github_url account name)) at 1.
      apply Hlong; [reflexivity|]. now left.
    + rewrite H2. apply Hlong; [assumption|]. now right.
  - intros scheme rest ref Hs Hr Hslash Href. split.
    + rewrite <- (string_append_empty_r rest) at 1. apply parse_url; auto.
    + apply parse_url; auto.
  - intros a b c Ha Hb Hc. unfold parse_pluginentry.
    assert (Hcolon : has_colon (a +:+ "::" +:+ b +:+ "::" +:+ c) = true).
    { rewrite has_colon_app. apply orb_true_iff. right. reflexivity. }
    rewrite Hcolon. cbv zeta. cbn [negb].
    rewrite REPLACE_double_colon_plain by assumption.
    change (REPLACE_double_colon ("::" +:+ b +:+ "::" +:+ c))
      with (String ";" (REPLACE_double_colon (b +:+ "::" +:+ c))).
    rewrite REPLACE_double_colon_plain by assumption.
    change (REPLACE_double_colon ("::" +:+ c)) with (String ";" (REPLACE_double_colon c)).
    rewrite REPLACE_double_colon_id by assumption.
    change (a +:+ String ";" (b +:+ String ";" c)) with (a +:+ ";" +:+ b +:+ ";" +:+ c).
    rewrite list_elements_three by now apply plain_no_list_chars.
    reflexivity.
  - intros e names Hlocal Hn. unfold add_plugin, parse_pluginentry, entry_nparts in *.
    unfold pluginentry_islocal in Hlocal. apply negb_false_iff in Hlocal.
    unfold pluginentry_islocal. rewrite Hlocal. cbn [negb andb]. cbv zeta.
    rewrite <- Hn.
    destruct (negb ((nparts e =? 1)%nat || (nparts e =? 2)%nat)).
    + split; [reflexivity|]. intros _. eexists. split; reflexivity.
    + split.
      * intros (msg & Hmsg & ->).
        match type of Hmsg with
        | match ?x with _ => _ end = _ => destruct x as [|? [|? ?]]
        end; try discriminate Hmsg; injection Hmsg as Hmsg; lazy in Hmsg; discriminate Hmsg.
      * intros Hadd. exfalso.
        repeat case_match; try discriminate Hadd;
          injection Hadd as Hadd; lazy in Hadd; discriminate Hadd.
Qed.

End CMakeConfigFacts.
(** ** The file that loads the built-in plugins *)

Module PluginLoaderFacts.
Import CMake CMakeConfig CMakeFacts CMakeConfigFacts.

Lemma TOUPPER_app (a b : string) : TOUPPER (a +:+ b) = TOUPPER a +:+ TOUPPER b.
Proof.
  induction a as [|c a IH]; [reflexivity|].
  rewrite string_app_cons. simpl. rewrite IH. reflexivity.
Qed.

Lemma contains_char_app (c : ascii) (a b : string) :
  contains_char c (a +:+ b) = contains_char c a || contains_char c b.
Proof.
  induction a as [|c' a IH]; [reflexivity|].
  rewrite string_app_cons. simpl. rewrite IH. apply orb_assoc.
Qed.

(** A suffix without a semicolon is a suffix of what follows the
    semicolon. *)
Lemma has_suffix_after_semicolon (suffix a b : string) :
  contains_char ";" suffix = false ->
  has_suffix suffix (a +:+ ";" +:+ b) = true -> has_suffix suffix b = true.
Proof.
  intros Hsuffix.
  assert (Hne : forall s, contains_char ";" s = true -> String.eqb s suffix = false).
  { intros s Hs. apply String.eqb_neq. intros ->. congruence. }
  induction a as [|c a IH].
  - change ("" +:+ ";" +:+ b) with (String ";" b). cbn [has_suffix].
    rewrite Hne by reflexivity. now rewrite orb_false_l.
  - rewrite string_app_cons. cbn [has_suffix].
    rewrite Hne.
    + rewrite orb_false_l. exact IH.
    + change (String c (a +:+ ";" +:+ b)) with (String c a +:+ ";" +:+ b).
      rewrite contains_char_app. apply orb_true_iff. right. reflexivity.
Qed.

Lemma fold_left_list_APPEND (rest : list string) (v : string) :
  v <> "" -> fold_left list_APPEND rest v = join_semicolon (v :: rest).
Proof.
  revert v. induction rest as [|n rest IH]; intros v Hv; [reflexivity|].
  cbn [fold_left]. unfold list_APPEND at 2.
  destruct (String.eqb_spec v "") as [->|_]; [congruence|].
  rewrite IH by (destruct v; discriminate).
  destruct rest as [|n' rest]; cbn [join_semicolon]; now rewrite ?string_app_assoc.
Qed.

Lemma list_value_join (names : list string) :
  List.Forall (fun n => n <> "") names -> list_value names = join_semicolon names.
Proof.
  unfold list_value. destruct 1 as [|n names Hn Hnames]; [reflexivity|].
  cbn [fold_left]. unfold list_APPEND at 2. cbn [String.eqb].
  now apply fold_left_list_APPEND.
Qed.

(** The names are read back from the variable as they were appended. *)
Lemma expand_joined (names : list string) (n : string) :
  List.Forall (fun n => all_chars (fun c => negb (is_list_char c)) n = true) (n :: names) ->
  expand_list_from (join_semicolon (n :: names)) 0 "" = n :: names.
Proof.
  revert n. induction names as [|n' names IH]; intros n Hall.
  - cbn [join_semicolon]. rewrite <- (string_append_empty_r n) at 1.
    rewrite expand_list_from_chars by now inversion Hall. reflexivity.
  - inversion Hall as [|? ? Hn Hrest]; subst.
    change (join_semicolon (n :: n' :: names))
      with (n +:+ ";" +:+ join_semicolon (n' :: names)).
    rewrite expand_list_from_chars by assumption.
    change (";" +:+ join_semicolon (n' :: names))
      with (String ";" (join_semicolon (n' :: names))).
    rewrite expand_list_from_semicolon. now rewrite IH.
Qed.

Lemma unquoted_arguments_joined (names : list string) :
  List.Forall (fun n => n <> "" /\ all_chars (fun c => negb (is_list_char c)) n = true) names ->
  unquoted_arguments (join_semicolon names) = names.
Proof.
  intros Hall. destruct names as [|n names]; [reflexivity|].
  unfold unquoted_arguments, list_elements.
  assert (Hne : join_semicolon (n :: names) <> "").
  { inversion Hall as [|? ? [Hn _] _]; subst.
    destruct names; cbn [join_semicolon]; [assumption|]. destruct n; [congruence|discriminate]. }
  destruct (String.eqb_spec (join_semicolon (n :: names)) "") as [E|_]; [congruence|].
  rewrite expand_joined.
  - apply forallb_filter_id. apply forallb_forall. rewrite List.Forall_forall in Hall.
    intros x Hx. destruct (Hall x Hx) as [Hxne _].
    apply negb_true_iff, String.eqb_neq, Hxne.
  - eapply List.Forall_impl; [|exact Hall]. now intros x [_ Hx].
Qed.

(** The value of the variable is no false constant when no name is. *)
Lemma joined_names_true (names : list string) (n : string) :
  List.Forall (fun n => is_false_constant n = false) (n :: names) ->
  is_false_constant (join_semicolon (n :: names)) = false.
Proof.
  revert n. induction names as [|n' names IH]; intros n Hall.
  - now inversion Hall.
  - inversion Hall as [|? ? Hn Hrest]; subst. specialize (IH n' Hrest).
    change (join_semicolon (n :: n' :: names))
      with (n +:+ ";" +:+ join_semicolon (n' :: names)).
    unfold is_false_constant in *. cbv zeta in *.
    apply orb_false_iff in IH as [_ IH]. apply orb_false_iff. split.
    + apply bool_decide_eq_false. intros Hin.
      assert (Hsemi : contains_char ";" (TOUPPER (n +:+ ";" +:+ join_semicolon (n' :: names))) = true).
      { rewrite !TOUPPER_app, !contains_char_app. apply orb_true_iff. right. reflexivity. }
      repeat (apply elem_of_cons in Hin as [Hin|Hin]; [rewrite Hin in Hsemi; discriminate Hsemi|]).
      now apply elem_of_nil in Hin.
    + apply not_true_is_false. intros Hs.
      rewrite !TOUPPER_app in Hs. change (TOUPPER ";") with ";" in Hs.
      apply has_suffix_after_semicolon in Hs; [congruence|reflexivity].
Qed.

Lemma add_plugins_names_true (entries : list PluginEntry) (names names' : PluginNames) :
  add_plugins names entries = Configured names' ->
  List.Forall (fun e => is_false_constant (plugin_name e) = false) entries.
Proof.
  revert names. induction entries as [|e entries IH]; intros names; [constructor|].
  simpl. destruct (add_plugin names e) as [names1|msg] eqn:Hadd; [|discriminate].
  intros Hrest. constructor; [|now apply (IH names1)].
  unfold add_plugin in Hadd. fold (plugin_name e) in Hadd.
  repeat case_match; try discriminate Hadd.
  match goal with
  | H : negb _ || is_false_constant (plugin_name e) = false |- _ =>
    now apply orb_false_iff in H as [_ H]
  end.
Qed.

(** X15. When the configuration of the plugins goes through, the loader
    file is written exactly when there is a plugin: with no entry in
    [BUILTIN_PLUGIN_LIST] no file is written, and with entries (whose
    names hold none of the characters a list is cut at) the file
    declares and loads the plugins of the entries, each once, in the
    order of the list; the names in it differ even when the case of
    their letters is ignored. *)
Theorem plugin_loader_lists_the_plugins (BUILD_EXTRA : bool) (entries : list PluginEntry)
    (names : PluginNames) :
  configure_plugins BUILD_EXTRA entries = Configured names ->
  List.Forall (fun e => all_chars (fun c => negb (is_list_char c)) (plugin_name e) = true)
              entries ->
  autogen_ncplugins_cc (list_value (NCrystal_builtin_plugin_names names))
  = (if entries is [] then None else Some (ncplugins_text (map plugin_name entries))) /\
  NoDup (map TOLOWER (map plugin_name entries)).
Proof.
  intros Hconf Hchars.
  pose proof (add_plugins_names_true entries _ names Hconf) as Htrue.
  destruct (add_plugins_Configured entries _ names Hconf) as (Hlc & Hnames & Hnd).
  cbn [all_plugin_names_lc NCrystal_builtin_plugin_names app] in Hnames, Hlc.
  assert (Hne : List.Forall (fun n => n <> "") (map plugin_name entries)).
  { apply List.Forall_map. eapply List.Forall_impl; [|exact Htrue].
    intros e He Hempty. cbv beta in He. now rewrite Hempty in He. }
  split.
  - rewrite Hnames, list_value_join by assumption.
    destruct entries as [|e entries]; [reflexivity|].
    unfold autogen_ncplugins_cc.
    cbn [map]. rewrite joined_names_true.
    + f_equal. f_equal. apply (unquoted_arguments_joined (plugin_name e :: map plugin_name entries)).
      change (plugin_name e :: map plugin_name entries) with (map plugin_name (e :: entries)).
      apply List.Forall_map. rewrite List.Forall_forall in Htrue, Hchars |- *.
      intros x Hx. split; [|now apply Hchars].
      intros Hempty. specialize (Htrue x Hx). cbv beta in Htrue. now rewrite Hempty in Htrue.
    + change (plugin_name e :: map plugin_name entries) with (map plugin_name (e :: entries)).
      now apply List.Forall_map.
  - specialize (Hnd (standard_plugin_names_NoDup BUILD_EXTRA)).
    rewrite Hlc in Hnd. apply NoDup_app in Hnd as (_ & _ & Hnd).
    now rewrite map_map.
Qed.

End PluginLoaderFacts.
(** ** Elements Geant4 has no symbol for *)




Section Fallback.
Context `{Externals}.





End Fallback.
(** ** The further properties in the installation of [Scenario] *)

Section MoreCases.
Import Scenario Cases.
#[local] Existing Instance installation.

(** *** Formulas and keys *)

(** The unit cell of corundum and its formula unit have the same formula. *)
Lemma corundum_cell_and_formula_unit :
  getChemicalFormula corundum_info = getChemicalFormula corundum_unit_info.
Proof.
  apply (getChemicalFormula_same_proportions corundum_info corundum_unit_info
           corundum_atoms corundum_unit_atoms 1 6); try reflexivity; try discriminate.
  - repeat constructor.
  - repeat constructor.
  - apply perm_swap.
Defined.

Lemma nist_symbols_wellformed : symbols_wellformed.
Proof.
  split.
  - apply NoDup_ListNoDup. apply (bool_decide_unpack _). vm_compute. reflexivity.
  - apply (bool_decide_unpack _). vm_compute. reflexivity.
Qed.

Example water_and_peroxide :
  getChemicalFormulaInHillSystemString [(1, 2); (8, 1)] = "H2O" /\
  getChemicalFormulaInHillSystemString [(1, 2); (8, 2)] = "H2O2".
Proof. split; vm_compute; reflexivity. Qed.

(** A formula written "Al2O3" is the formula of corundum. *)
Lemma corundum_string_identifies_corundum :
  [(8, 3); (13, 2)] = ([(8, 3); (13, 2)] : ChemicalFormula).
Proof.
  apply (hill_string_identifies_formula [(8, 3); (13, 2)] [(8, 3); (13, 2)]
           nist_symbols_wellformed).
  - repeat constructor.
  - repeat constructor.
  - repeat constructor.
  - repeat constructor.
  - reflexivity.
Defined.

Example corundum_base_key :
  base_chemform corundum_info = Ok ([(8, 3); (13, 2)], "Al2O3") /\
  base_chemform corundum_unit_info = Ok ([(8, 3); (13, 2)], "Al2O3").
Proof. split; vm_compute; reflexivity. Qed.

Lemma corundum_key_identifies_corundum :
  [(8, 3); (13, 2)] = ([(8, 3); (13, 2)] : ChemicalFormula).
Proof.
  exact (base_key_identifies_formula corundum_info corundum_unit_info
           [(8, 3); (13, 2)] [(8, 3); (13, 2)] "Al2O3" nist_symbols_wellformed
           (proj1 corundum_base_key) (proj2 corundum_base_key)).
Defined.

(** *** The base material of corundum *)

Lemma corundum_base_material_complete :
  exists m,
    materialTable (getBaseG4MaterialWithCache corundum_info empty_world).2 !! 0%nat
    = Some (Some m) /\
    mat_name m = "NCrystalBaseMat::Al2O3" /\
    mat_origin m = FromComponents 2 /\
    mat_chemicalFormula m = "Al2O3" /\
    mat_elements m = [(NistElementZ 8, AtomCount 3); (NistElementZ 13, AtomCount 2)].
Proof.
  destruct (base_material_complete corundum_info empty_world
              (getBaseG4MaterialWithCache corundum_info empty_world).2 0%nat)
    as (m & cf & key & Hm & _).
  - vm_compute. reflexivity.
  - simpl. lia.
  - exists m. split; [exact Hm|].
    vm_compute in Hm. injection Hm as <-. repeat split; vm_compute; reflexivity.
Defined.

(** *** Requests after other requests and deletions *)

Lemma al_world_reachable : reachable_world al_world.
Proof. exists [], [Request Al]. vm_compute. reflexivity. Qed.

Lemma al_deleted_world_reachable : reachable_world al_deleted_world.
Proof. exists [], [Request Al; Destroy 1%nat]. vm_compute. reflexivity. Qed.

(** Aluminium at 77 K, requested after aluminium: a new material on the
    base material of aluminium. *)
Lemma al_77K_after_al :
  (createMaterial_MatCfg Al_77K al_world).1 = Ok None \/
  exists mat m b s,
    (createMaterial_MatCfg Al_77K al_world).1 = Ok (Some mat) /\
    materialTable (createMaterial_MatCfg Al_77K al_world).2 !! mat = Some (Some m) /\
    mat_name m = "NCrystal::" +:+ Al_77K /\
    mat_origin m = FromBaseMaterial b /\ (b < mat)%nat /\
    In (mat, s) (scatterProperties (createMaterial_MatCfg Al_77K al_world).2).
Proof.
  destruct (request_returns_its_material al_world (createMaterial_MatCfg Al_77K al_world).2
              Al_77K (createMaterial_MatCfg Al_77K al_world).1
              al_world_reachable (surjective_pairing _))
    as [(Hnone & _)|(mat & m & b & s & Hr & Hm & Hname & Horigin & Hlt & _ & Hs)].
  - now left.
  - right. exists mat, m, b, s. auto 10.
Defined.

Lemma al_world_scatter_properties :
  map fst (scatterProperties al_world) = derived_pointers (calls al_world) /\
  List.NoDup (map fst (scatterProperties al_world)).
Proof.
  destruct (one_scatter_property_per_material al_world al_world_reachable)
    as (Hmap & Hnd & _).
  split; assumption.
Defined.

Example al_deleted_world_entry :
  cache al_deleted_world !! toStrCfg Al = Some 1%nat /\
  materialTable al_deleted_world !! 1%nat = Some None.
Proof. split; vm_compute; reflexivity. Qed.

(** Aluminium requested again after its material was deleted. *)
Lemma al_built_again :
  build_material Al al_deleted_world = getG4MaterialWithCache Al al_deleted_world /\
  materialTable (getG4MaterialWithCache Al al_deleted_world).2 !! 1%nat = Some None.
Proof.
  destruct (deleted_material_is_built_again al_deleted_world
              (getG4MaterialWithCache Al al_deleted_world).2 Al 1%nat
              (getG4MaterialWithCache Al al_deleted_world).1)
    as (Hbuild & Hnull & _).
  - apply reachable_in_range, al_deleted_world_reachable.
  - exact (proj1 al_deleted_world_entry).
  - exact (proj2 al_deleted_world_entry).
  - apply surjective_pairing.
  - split; [|exact Hnull]. rewrite Hbuild. symmetry. apply surjective_pairing.
Defined.

(** *** Threads *)


Lemma two_threads_complete :
  exists schedule,
    forall t, (t < 2)%nat ->
      has_returned (run_schedule schedule (run_schedule [1%nat; 0%nat] two_threads)) t.
Proof.
  destruct (every_request_completes empty_world [Al; corundum]
              (run_schedule [1%nat; 0%nat] two_threads))
    as (schedule & _ & _ & Hall).
  - eexists. reflexivity.
  - exists schedule. exact Hall.
Defined.

(** *** Plugins *)

Example two_plugins_configured :
  CMake.configure_plugins true [my_plugin; other_plugin]
  = CMake.Configured
      {| CMake.all_plugin_names_lc :=
           ["stdscat"; "stdabs"; "stdncmat"; "nxslaz"; "myplugin"; "otherplugin"];
         CMake.NCrystal_builtin_plugin_names := ["MyPlugin"; "OtherPlugin"] |}.
Proof. vm_compute. reflexivity. Qed.

Lemma loader_of_two_plugins :
  CMakeConfig.autogen_ncplugins_cc "MyPlugin;OtherPlugin"
  = Some (CMakeConfig.ncplugins_text ["MyPlugin"; "OtherPlugin"]).
Proof.
  destruct (PluginLoaderFacts.plugin_loader_lists_the_plugins true [my_plugin; other_plugin] _
              two_plugins_configured) as [Hfile _].
  - repeat constructor.
  - exact Hfile.
Defined.

Example loader_text :
  CMakeConfig.ncplugins_text ["MyPlugin"]
  = string_concat
      ["//Autogenerated file"; CMakeConfig.newline;
       "#include <iostream>"; CMakeConfig.newline;
       "#include "; CMakeConfig.quote; "NCrystal/NCPluginMgmt.hh"; CMakeConfig.quote;
       CMakeConfig.newline;
       "namespace NCrystalPlugin_MyPlugin { void registerPlugin(); }"; CMakeConfig.newline;
       "namespace NCrystal {"; CMakeConfig.newline;
       "  void provideBuiltinPlugins() {"; CMakeConfig.newline;
       "    Plugins::loadBuiltinPlugin("; CMakeConfig.quote; "MyPlugin"; CMakeConfig.quote;
       ",NCrystalPlugin_MyPlugin::registerPlugin);"; CMakeConfig.newline;
       "  }"; CMakeConfig.newline; "}"; CMakeConfig.newline].
Proof. vm_compute. reflexivity. Qed.

Example plugin_entries :
  CMakeConfig.parse_pluginentry "/opt/ncplugin-MyPlugin" = CMake.Configured CMakeConfig.LocalEntry /\
  CMakeConfig.parse_pluginentry "mctools:MyPlugin::develop"
  = CMake.Configured (CMakeConfig.RemoteEntry
      "https://github.com/mctools/ncplugin-MyPlugin.git" "develop") /\
  CMakeConfig.parse_pluginentry "https://github.com/mctools/ncplugin-MyPlugin.git"
  = CMake.Configured (CMakeConfig.RemoteEntry
      "https://github.com/mctools/ncplugin-MyPlugin.git" "main") /\
  CMakeConfig.parse_pluginentry "mctools:MyPlugin::develop::v2"
  = CMake.FATAL_ERROR
      "Invalid syntax of entry in BUILTIN_PLUGIN_LIST: mctools:MyPlugin::develop::v2".
Proof. repeat split; vm_compute; reflexivity. Qed.

(** The condensed entry of a plugin of mctools, and its long form. *)
Lemma mctools_MyPlugin_forms :
  CMakeConfig.parse_pluginentry "mctools:MyPlugin::develop"
  = CMake.Configured (CMakeConfig.RemoteEntry
      "https://github.com/mctools/ncplugin-MyPlugin.git" "develop") /\
  CMakeConfig.parse_pluginentry "https://github.com/mctools/ncplugin-MyPlugin.git::develop"
  = CMakeConfig.parse_pluginentry "mctools:MyPlugin::develop".
Proof.
  destruct CMakeConfigFacts.parse_pluginentry_forms as (_ & Hcondensed & _).
  destruct (Hcondensed "mctools" "MyPlugin" "develop") as (_ & Href & _ & Hlong);
    try reflexivity; [discriminate|].
  split; [exact Href|exact Hlong].
Defined.

(** Corundum, requested after aluminium: what the request adds. *)
Lemma corundum_after_al_leaves_the_rest :
  exists new evs attached,
    materialTable (createMaterial_MatCfg corundum al_world).2
    = materialTable al_world ++ map Some new /\
    (length new <= 2)%nat /\
    calls (createMaterial_MatCfg corundum al_world).2 = calls al_world ++ evs /\
    scatterProperties (createMaterial_MatCfg corundum al_world).2
    = scatterProperties al_world ++ attached /\
    (length attached <= 1)%nat /\
    (forall key, key <> toStrCfg corundum ->
       cache (createMaterial_MatCfg corundum al_world).2 !! key = cache al_world !! key).
Proof.
  destruct (request_leaves_the_rest_alone al_world
              (createMaterial_MatCfg corundum al_world).2 corundum
              (createMaterial_MatCfg corundum al_world).1
              (reachable_in_range al_world al_world_reachable)
              (surjective_pairing _))
    as (new & evs & attached & Ht & Hn & _ & Hc & _ & Hs & Ha & _ & _ & Hk).
  exists new, evs, attached. auto 10.
Defined.


Example oxide_of_element_120_text :
  getChemicalFormulaInHillSystemString [(120, 1); (8, 2)] = "O2Elem<120>" /\
  getChemicalFormulaInHillSystemString [(120, 2); (6, 1); (1, 4)] = "CH4Elem<120>2".
Proof. split; vm_compute; reflexivity. Qed.

End MoreCases.

Section IncompleteFiles.
Import Scenario Cases.
#[local] Existing Instance incomplete_files.

(** A file without density is refused. *)
Lemma no_density_is_reported :
  exists e,
    err_kind e = MissingInfo /\
    createMaterial_MatCfg no_density (initial_world [])
    = (Ok None,
       set_calls [EvCreateScatter no_density; EvCreateInfo no_density; handled e]
                 (initial_world [])).
Proof.
  apply (missing_info_is_reported (initial_world []) no_density no_density no_density_info).
  - intros idx Hidx. discriminate Hidx.
  - intros idx Hidx. discriminate Hidx.
  - reflexivity.
  - reflexivity.
  - reflexivity.
  - now left.
Defined.

Example no_composition_is_reported :
  createMaterial_MatCfg no_composition (initial_world [])
  = (Ok None,
     set_calls [EvCreateScatter no_composition; EvCreateInfo no_composition;
                handled (error MissingInfo
                  "Selected crystal info source lacks info about atomic composition.")]
               (initial_world [])).
Proof. vm_compute. reflexivity. Qed.

End IncompleteFiles.

Section ClashingLibraries.
Import Scenario Cases.
#[local] Existing Instance clashing_libraries.

(** With two NCrystal libraries in the process no factory is called. *)
Lemma clash_is_reported :
  createMaterial_MatCfg Al_clashing (initial_world [])
  = (Ok None, log_call (handled clash) (initial_world [])).
Proof.
  apply (clash_stops_every_build (initial_world []) Al_clashing clash).
  - apply caches_in_range_initial.
  - reflexivity.
  - intros idx Hidx. discriminate Hidx.
Defined.

End ClashingLibraries.
